(** * FlowPilot: the scheduling engine, embedded and checked against its specification

    The repository holds two programs that place tasks on a calendar:

    - [server/] : [scheduler_engine.py] over the SQL task table of [storage.py]
      and the calendar adapter of [connect_gcal.py]  (module [Server] below);
    - [backend/main.py] : the in-memory FastAPI application with its own
      [Task] model, the task makers of [parse_into_tasks] and
      [parse_gmail_tasks], [simple_plan], [GoogleServices.find_free_slot],
      the flows [run_agent_flow] and [run_full_sync] (its calendar loop, its
      Canvas import and its steps from Gmail on) and the endpoint
      [delete_task]  (module [Backend] below).

    Python values are embedded as follows.

    - A [datetime] is its local wall-clock reading in microseconds, a [Z]; a
      [date] is a day number, a [Z], counted as [date.toordinal] counts.
      Every datetime [scheduler_engine.py] compares carries the same
      [tzinfo] (it converts what it reads with [astimezone(TZ)]), and Python
      then compares and subtracts wall-clock readings, so one integer line
      is exact.  For [backend/main.py] one time zone throughout is assumed.
    - A [timedelta] is a number of microseconds.
    - An exception is a constructor of [Py.exn]; code that can raise returns a
      [Py.outcome].
    - The Google services are not part of the repository: they are the fields
      of a record, and what a theorem needs from them is a stated hypothesis. *)

From Stdlib Require Import Ascii.
From stdpp Require Import base tactics option list list_numbers numbers strings pretty sorting relations.

#[local] Open Scope Z_scope.

(** ** Python values shared by both programs *)
Module Py.

(** The exceptions that occur: [TypeError] is raised by the interpreter itself
    (comparing a [datetime] with a [date], [date.replace(hour=...)]);
    [ValueError] by [datetime.fromisoformat] on text it cannot read;
    [AttributeError] by an attribute looked up on [None];
    [OverflowError] by a sum that is no [datetime];
    [ServiceError] stands for whatever a Google client call raises. *)
Inductive exn : Type :=
| TypeError
| ValueError
| AttributeError
| OverflowError
| ServiceError.

Inductive outcome (A : Type) : Type :=
| Ret (a : A)
| Raise (e : exn).
Arguments Ret {A} a.
Arguments Raise {A} e.

Definition usec_per_minute : Z := 60000000.
Definition usec_per_hour : Z := 3600000000.
Definition usec_per_day : Z := 86400000000.

(** [timedelta(minutes=m)] *)
Definition minutes (m : Z) : Z := m * usec_per_minute.

(** [datetime.combine(d, time(h, mi))] *)
Definition combine (d h mi : Z) : Z :=
  d * usec_per_day + h * usec_per_hour + mi * usec_per_minute.

(** [dt.date()], [dt.hour], [dt.minute] *)
Definition date_of (t : Z) : Z := t `div` usec_per_day.
Definition hour_of (t : Z) : Z := (t `mod` usec_per_day) `div` usec_per_hour.
Definition minute_of (t : Z) : Z := (t `mod` usec_per_hour) `div` usec_per_minute.

(** The range of [datetime]: from [datetime.min], 00:00 of 1 January of
    year 1, to [datetime.max], the last microsecond of 31 December 9999. *)
Definition datetime_min : Z := 1 * usec_per_day.
Definition datetime_max : Z := 3652060 * usec_per_day - 1.

(** [dt + timedelta(minutes=m)]: "date value out of range" when the sum is
    no [datetime] (a delta too large to build raises the same error). *)
Definition add_minutes (dt m : Z) : outcome Z :=
  if bool_decide (datetime_min ≤ dt + minutes m ≤ datetime_max)
  then Ret (dt + minutes m)
  else Raise OverflowError.

(** [dt.replace(hour=h, minute=mi)]: the date, the second and the microsecond
    are kept. *)
Definition replace_hour_minute (t h mi : Z) : Z :=
  combine (date_of t) h mi + t `mod` usec_per_minute.

End Py.

(** ** [server/]: storage.py, connect_gcal.py, scheduler_engine.py *)
Module Server.
Import Py.

(** *** The free-slot finder (scheduler_engine.py, [_find_free_slot]) *)

(** [_day_bounds]: [WORK_START = time(9, 0)], [WORK_END = time(18, 0)]. *)
Definition _day_bounds (d : Z) : Z * Z := (combine d 9 0, combine d 18 0).

(** How the [for (bs, be) in busy] loop ends: by its [return], or by running
    out of intervals or [break]ing, with the value of [cur] at that point. *)
Inductive scan_exit : Type :=
| Found (slot : Z * Z)
| Fell (cur : Z).

(** The loop of lines 59-67.  [gap = (bs - cur).total_seconds() / 60.0] is
    compared with [duration_min]; both sides are scaled to microseconds here.
    (The source compares floats; the two roundings cannot change the result
    below 10^8 minutes, a span of two centuries.) *)
Fixpoint scan_gaps (day_end duration_min cur : Z) (busy : list (Z * Z)) : scan_exit :=
  match busy with
  | [] => Fell cur
  | (bs, be) :: rest =>
      if bool_decide (minutes duration_min ≤ bs - cur)
      then Found (cur, cur + minutes duration_min)
      else
        let cur := Z.max cur be in
        if bool_decide (day_end < cur) then Fell cur
        else scan_gaps day_end duration_min cur rest
  end.

(** [if duration_min <= 0: duration_min = 30] *)
Definition clamp (duration_min : Z) : Z :=
  if bool_decide (duration_min ≤ 0) then 30 else duration_min.

(** The body of [_find_free_slot] once the day's bounds and busy list are
    known: the clamp of a non-positive duration, the loop, the tail gap. *)
Definition find_free_slot_in (day_start day_end : Z) (busy : list (Z * Z))
    (duration_min : Z) : option (Z * Z) :=
  let duration_min := clamp duration_min in
  match scan_gaps day_end duration_min day_start busy with
  | Found slot => Some slot
  | Fell cur =>
      if bool_decide (minutes duration_min ≤ day_end - cur)
      then Some (cur, cur + minutes duration_min)
      else None
  end.

(** What the specification asks of a slot [[s, e)] against half-open busy
    intervals. *)
Definition clear_of (s e : Z) (busy : list (Z * Z)) : Prop :=
  Forall (λ b : Z * Z, e ≤ b.1 ∨ b.2 ≤ s) busy.

(** A placement of [len] microseconds starting at [t] is valid in the window. *)
Definition fits_at (ws we : Z) (busy : list (Z * Z)) (len t : Z) : Prop :=
  ws ≤ t ∧ t + len ≤ we ∧ clear_of t (t + len) busy.

(** Busy intervals ordered by start. *)
Definition by_start (a b : Z * Z) : Prop := a.1 ≤ b.1.

(** The precondition of the specification's [findSlot]: every interval lies in
    the window and is non-empty, and each ends before the next one starts. *)
Fixpoint canonical_from (lo we : Z) (busy : list (Z * Z)) : Prop :=
  match busy with
  | [] => True
  | (bs, be) :: rest => lo ≤ bs ∧ bs < be ∧ be ≤ we ∧ canonical_from be we rest
  end.

(** *** The task table (storage.py) *)

(** A row of [tasks].  [due] and [planned_at] are [DateTime] columns, read
    back as [datetime]; [duration_min] and [priority] are non-null integers;
    [status] is one of 'pending', 'planned', 'done'. *)
Record Task : Type := {
  id : Z;
  title : string;
  source : string;
  raw_ref : option string;
  due : option Z;
  duration_min : Z;
  priority : Z;
  planned_at : option Z;
  calendar_event_id : option string;
  status : string;
  notes : option string;
}.

(** *** The calendar (connect_gcal.py) *)

(** An item of [events().list]: [ev_start] is the instant read from
    [start.dateTime or start.date], [None] when the key is missing or its text
    does not parse; likewise [ev_end]. *)
Record Event : Type := {
  ev_start : option Z;
  ev_end : option Z;
}.

(** The body [create_event_summary] sends to [events().insert]. *)
Record EventBody : Type := {
  summary : string;
  description : string;
  start_dt : Z;
  end_dt : Z;
}.

(** Google Calendar as the adapter sees it: a remote state, a listing of the
    events between [timeMin] and [timeMax], and an insertion that answers with
    the new event's [id] (if the answer carries one).  Either call may raise,
    and either may change the remote state. *)
Record CalendarService : Type := {
  calendar : Type;
  events_list : calendar → Z → Z → outcome (list Event) * calendar;
  events_insert : calendar → EventBody → outcome (option string) * calendar;
}.

(** What one task came to in a pass: the event created for it, or the
    [if not placed: pass] branch. *)
Inductive Entry : Type :=
| Booked (task : Z) (start_dt end_dt : Z) (eid : option string)
| Unplaced (task : Z).

Definition entry_task (en : Entry) : Z :=
  match en with Booked i _ _ _ => i | Unplaced i => i end.

Definition is_booking (en : Entry) : bool :=
  match en with Booked _ _ _ _ => true | Unplaced _ => false end.

(** One call of the adapter as the engine made it: the window given to
    [events().list] or the body given to [events().insert], and what came
    back. *)
Inductive Call : Type :=
| ListCall (time_min time_max : Z) (answer : outcome (list Event))
| InsertCall (body : EventBody) (answer : outcome (option string)).

(** The exception a call raised, if it raised. *)
Definition call_failed (c : Call) : option exn :=
  match c with
  | ListCall _ _ (Raise e) => Some e
  | InsertCall _ (Raise e) => Some e
  | _ => None
  end.

(** The event a call created: the body sent and the id answered. *)
Definition call_created (c : Call) : option (EventBody * option string) :=
  match c with
  | InsertCall body (Ret eid) => Some (body, eid)
  | _ => None
  end.

(** The events a list of calls created, and the exceptions it met. *)
Definition created (cs : list Call) : list (EventBody * option string) :=
  omap call_created cs.

Definition failures (cs : list Call) : list exn := omap call_failed cs.

(** [busy.sort(key=lambda x: x[0])]: Python's sort is stable. *)
Fixpoint insert_by_start (x : Z * Z) (l : list (Z * Z)) : list (Z * Z) :=
  match l with
  | [] => [x]
  | y :: l' => if bool_decide (y.1 < x.1) then y :: insert_by_start x l' else x :: y :: l'
  end.

Definition sort_by_start (l : list (Z * Z)) : list (Z * Z) :=
  foldr insert_by_start [] l.

(** [s.get(..)], [e.get(..)], the two [fromisoformat] calls and the [continue]s
    of [_busy_intervals_for_day]. *)
Definition event_interval (ev : Event) : option (Z * Z) :=
  match ev_start ev, ev_end ev with
  | Some s, Some e => Some (s, e)
  | _, _ => None
  end.

Definition busy_of (events : list Event) : list (Z * Z) :=
  sort_by_start (omap event_interval events).

(** *** Sorting the pending tasks (scheduler_engine.py, lines 83-87) *)

(** The value of [due_key]: a [datetime] when the task has a [due], and the
    [date] of today plus two days when it has none. *)
Inductive when : Type :=
| Datetime (t : Z)
| Date (d : Z).

(** [a == b]: a [datetime] and a [date] are unequal, no error. *)
Definition when_eq (a b : when) : bool :=
  match a, b with
  | Datetime x, Datetime y => bool_decide (x = y)
  | Date x, Date y => bool_decide (x = y)
  | _, _ => false
  end.

(** [a < b]: "can't compare datetime.datetime to datetime.date". *)
Definition when_lt (a b : when) : outcome bool :=
  match a, b with
  | Datetime x, Datetime y => Ret (bool_decide (x < y))
  | Date x, Date y => Ret (bool_decide (x < y))
  | _, _ => Raise TypeError
  end.

(** [a <= b] *)
Definition when_le (a b : when) : outcome bool :=
  match a, b with
  | Datetime x, Datetime y => Ret (bool_decide (x ≤ y))
  | Date x, Date y => Ret (bool_decide (x ≤ y))
  | _, _ => Raise TypeError
  end.

(** [min(a, b)] answers [a] unless [b < a]. *)
Definition py_min (a b : when) : outcome when :=
  match when_lt b a with
  | Ret c => Ret (if c then b else a)
  | Raise e => Raise e
  end.

(** [t.due or (datetime.now(TZ).date() + timedelta(days=2))] *)
Definition due_key (today : Z) (t : Task) : when :=
  match due t with
  | Some dt => Datetime dt
  | None => Date (today + 2)
  end.

(** [(due_key(t), -(t.priority or 0))]; [t.priority or 0] is [t.priority]. *)
Definition sort_key (today : Z) (t : Task) : when * Z :=
  (due_key today t, - priority t).

(** [<] on the key tuples: the first components are compared with [==], and
    [<] is asked of the first pair that differs. *)
Definition key_lt (a b : when * Z) : outcome bool :=
  if when_eq a.1 b.1 then Ret (bool_decide (a.2 < b.2)) else when_lt a.1 b.1.

(** [tasks.sort(key=...)]: a stable sort that asks [<] of the keys and lets
    the comparison's exception through. *)
Fixpoint insert_task (today : Z) (x : Task) (l : list Task) : outcome (list Task) :=
  match l with
  | [] => Ret [x]
  | y :: l' =>
      match key_lt (sort_key today y) (sort_key today x) with
      | Raise e => Raise e
      | Ret true =>
          match insert_task today x l' with
          | Ret r => Ret (y :: r)
          | Raise e => Raise e
          end
      | Ret false => Ret (x :: y :: l')
      end
  end.

Fixpoint sort_tasks (today : Z) (l : list Task) : outcome (list Task) :=
  match l with
  | [] => Ret []
  | x :: l' =>
      match sort_tasks today l' with
      | Ret sorted => insert_task today x sorted
      | Raise e => Raise e
      end
  end.

(** The fields [plan_all_pending] assigns after a successful insertion. *)
Definition booked (t : Task) (start : Z) (eid : option string) : Task :=
  {| id := id t; title := title t; source := source t; raw_ref := raw_ref t;
     due := due t; duration_min := duration_min t; priority := priority t;
     planned_at := Some start; calendar_event_id := eid;
     status := "planned"; notes := notes t |}.

(** [db.add(t); db.commit()]: the row with [t]'s primary key now reads [t]. *)
Definition update_row (rows : list Task) (t : Task) : list Task :=
  (λ r, if bool_decide (id r = id t) then t else r) <$> rows.

(** [db.query(Task).filter(Task.status == "pending").all()] *)
Definition pending (rows : list Task) : list Task :=
  filter (λ t, status t = "pending") rows.

(** digest.py, lines 8-9: the two counts of [daily_digest_text]. *)
Definition planned_today (rows : list Task) : nat :=
  length (filter (λ t, status t = "planned") rows).

Definition pending_count (rows : list Task) : nat :=
  length (filter (λ t, status t = "pending") rows).

(** The body [plan_all_pending] gives [create_event_summary] for a task and
    a slot (lines 102-107). *)
Definition body_for (t : Task) (start_dt end_dt : Z) : EventBody :=
  {| summary := "[FlowPilot] " +:+ title t;
     description := "Auto-scheduled by FlowPilot. Priority=" +:+ pretty (priority t);
     start_dt := start_dt; end_dt := end_dt |}.

(** What a pass may do to a row: nothing, or book it if it is pending. *)
Definition row_step (r r' : Task) : Prop :=
  r' = r ∨ (status r = "pending" ∧ ∃ start eid, r' = booked r start eid).

(** *** The pass (scheduler_engine.py, [plan_all_pending]) *)
Section Engine.
Context {S : CalendarService}.

(** What a pass can touch: the task table and the remote calendar; and two
    records kept beside them, of what each task came to and of the calls
    made to the adapter. *)
Record World : Type := {
  db : list Task;
  remote : calendar S;
  journal : list Entry;
  calls : list Call;
}.

(** A computation that may raise and that reads and writes the world; what
    was written before an exception stays written. *)
Definition M (A : Type) : Type := World → outcome A * World.

Definition ret {A} (a : A) : M A := λ w, (Ret a, w).
Definition raise {A} (e : exn) : M A := λ w, (Raise e, w).
Definition lift {A} (o : outcome A) : M A := λ w, (o, w).
Definition bind {A B} (m : M A) (k : A → M B) : M B :=
  λ w, match m w with
       | (Ret a, w') => k a w'
       | (Raise e, w') => (Raise e, w')
       end.

#[local] Notation "x <- m ;; k" := (bind m (λ x, k))
  (at level 100, m at next level, right associativity).

(** connect_gcal.py, [list_events_between] *)
Definition list_events_between (time_min time_max : Z) : M (list Event) :=
  λ w, let r := events_list S (remote w) time_min time_max in
       (r.1, {| db := db w; remote := r.2; journal := journal w;
                calls := calls w ++ [ListCall time_min time_max r.1] |}).

(** connect_gcal.py, [create_event_summary] *)
Definition create_event_summary (summary : string) (start_dt end_dt : Z)
    (description : string) : M (option string) :=
  λ w, let body := {| summary := summary; description := description;
                       start_dt := start_dt; end_dt := end_dt |} in
       let r := events_insert S (remote w) body in
       (r.1, {| db := db w; remote := r.2; journal := journal w;
                calls := calls w ++ [InsertCall body r.1] |}).

(** [db.add(t); db.commit()] *)
Definition commit (t : Task) : M unit :=
  λ w, (Ret tt, {| db := update_row (db w) t; remote := remote w; journal := journal w;
                   calls := calls w |}).

(** Writes down what a task came to.  The source keeps no such record; it
    is here so that theorems can speak of the bookings a pass made. *)
Definition note (en : Entry) : M unit :=
  λ w, (Ret tt, {| db := db w; remote := remote w; journal := journal w ++ [en];
                   calls := calls w |}).

(** The day's events, read and ordered by start. *)
Definition _busy_intervals_for_day (d : Z) : M (list (Z * Z)) :=
  events <- list_events_between (_day_bounds d).1 (_day_bounds d).2 ;;
  ret (busy_of events).

(** "Greedy scan from WORK_START to WORK_END avoiding busy intervals." *)
Definition _find_free_slot (d duration_min : Z) : M (option (Z * Z)) :=
  busy <- _busy_intervals_for_day d ;;
  ret (find_free_slot_in (_day_bounds d).1 (_day_bounds d).2 busy duration_min).

(** [t.duration_min or 60] *)
Definition duration_or_60 (t : Task) : Z :=
  if bool_decide (duration_min t = 0) then 60 else duration_min t.

(** The [while d <= last_day] loop over the days it visits; [true] is
    [placed]. *)
Fixpoint try_days (t : Task) (days : list Z) : M bool :=
  match days with
  | [] => ret false
  | d :: rest =>
      slot <- _find_free_slot d (duration_or_60 t) ;;
      match slot with
      | Some (start_dt, end_dt) =>
          eid <- create_event_summary ("[FlowPilot] " +:+ title t) start_dt end_dt
                   ("Auto-scheduled by FlowPilot. Priority=" +:+ pretty (priority t)) ;;
          _ <- commit (booked t start_dt eid) ;;
          _ <- note (Booked (id t) start_dt end_dt eid) ;;
          ret true
      | None => try_days t rest
      end
  end.

(** The body of [for t in tasks].  [min(today, last_day)] and [d <= last_day]
    compare a [date] with [last_day]. *)
Definition plan_one (today : Z) (t : Task) : M unit :=
  let last_day := due_key today t in
  cur_day <- lift (py_min (Date today) last_day) ;;
  placed <-
    match cur_day, last_day with
    | Date d, Date l => try_days t (seqZ d (l - d + 1))
    | _, _ => raise TypeError
    end ;;
  if placed : bool then ret tt else note (Unplaced (id t)).

(** [for t in tasks] *)
Fixpoint for_tasks (body : Task → M unit) (tasks : list Task) : M unit :=
  match tasks with
  | [] => ret tt
  | t :: rest => _ <- body t ;; for_tasks body rest
  end.

(** "Place blocks for pending tasks before their due date (or today if no
    due)."  [today] is [datetime.now(TZ).date()], taken to be the same day
    from the first task of a pass to the last. *)
Definition plan_all_pending (today : Z) : M unit :=
  tasks <- (λ w, (Ret (pending (db w)), w)) ;;
  tasks <- lift (sort_tasks today tasks) ;;
  for_tasks (plan_one today) tasks.

(** The entries a run from [w] to [w'] added. *)
Definition new_entries (w w' : World) : list Entry :=
  drop (length (journal w)) (journal w').

(** The calls a run from [w] to [w'] made. *)
Definition new_calls (w w' : World) : list Call :=
  drop (length (calls w)) (calls w').

(** *** What "unchanged busy-interval data" asks of the calendar *)

(** One call of the adapter. *)
Definition service_step (c c' : calendar S) : Prop :=
  (∃ a b, c' = (events_list S c a b).2) ∨ (∃ body, c' = (events_insert S c body).2).

(** [c'] is [c] some adapter calls later. *)
Definition later : relation (calendar S) := rtc service_step.

(** The adapter raised [e] at the state [c] or some calls after it. *)
Definition adapter_raised (c : calendar S) (e : exn) : Prop :=
  ∃ c', later c c' ∧
    ((∃ a b, (events_list S c' a b).1 = Raise e)
     ∨ (∃ body, (events_insert S c' body).1 = Raise e)).

(** From the state [c] on, no listing of a day in [days] leaves room for
    [t]. *)
Definition no_room (t : Task) (days : list Z) (c : calendar S) : Prop :=
  ∀ c' d evs, later c c' → d ∈ days →
    (events_list S c' (_day_bounds d).1 (_day_bounds d).2).1 = Ret evs →
    find_free_slot_in (_day_bounds d).1 (_day_bounds d).2 (busy_of evs)
      (duration_or_60 t) = None.

(** A task is quiet when the pass can do nothing for it: it has a [due], or
    its days have no room. *)
Definition quiet (today : Z) (t : Task) (c : calendar S) : Prop :=
  due t = None → no_room t (seqZ today 3) c.

(** The bookings among journal entries. *)
Definition bookings (entries : list Entry) : list Entry :=
  filter (λ en, is_booking en = true) entries.

(** A listing answers only events that start by [timeMax], and an event once
    listed for a window is listed for it ever after: nothing is deleted or
    moved while the engine runs. *)
Record Steady : Prop := {
  steady_window : ∀ c a b evs,
    (events_list S c a b).1 = Ret evs →
    Forall (λ ev, ∀ s, ev_start ev = Some s → s ≤ b) evs;
  steady_grows : ∀ c c' a b evs evs',
    later c c' →
    (events_list S c a b).1 = Ret evs → (events_list S c' a b).1 = Ret evs' →
    evs ⊆ evs';
}.

(** Every listing answers only events that start by its [timeMax]. *)
Definition listing_bounded : Prop :=
  ∀ c a b evs,
    (events_list S c a b).1 = Ret evs →
    Forall (λ ev, ∀ s, ev_start ev = Some s → s ≤ b) evs.

End Engine.
Arguments World : clear implicits.
Arguments M : clear implicits.
Arguments Steady : clear implicits.
Arguments listing_bounded : clear implicits.

End Server.

(** ** [backend/main.py] *)
Module Backend.
Import Py.

(** *** models.py *)

(** The pydantic [Task].  [planDay] is one of 'unscheduled', 'today',
    'tomorrow'. *)
Record Task : Type := {
  id : string;
  title : string;
  dueDate : option Z;
  duration : option Z;
  planDay : string;
  needsClarification : bool;
  pendingQuestions : list string;
  calendarEventId : option string;
  isExternal : bool;
}.

(** [a == b] on two [Task]s compares their fields. *)
#[global] Instance Task_eq_dec : EqDecision Task.
Proof. solve_decision. Defined.

(** [t.planDay = v], [t.dueDate = v], [t.calendarEventId = v] *)
Definition with_planDay (t : Task) (v : string) : Task :=
  {| id := id t; title := title t; dueDate := dueDate t; duration := duration t;
     planDay := v; needsClarification := needsClarification t;
     pendingQuestions := pendingQuestions t; calendarEventId := calendarEventId t;
     isExternal := isExternal t |}.

Definition with_dueDate (t : Task) (v : option Z) : Task :=
  {| id := id t; title := title t; dueDate := v; duration := duration t;
     planDay := planDay t; needsClarification := needsClarification t;
     pendingQuestions := pendingQuestions t; calendarEventId := calendarEventId t;
     isExternal := isExternal t |}.

Definition with_calendarEventId (t : Task) (v : option string) : Task :=
  {| id := id t; title := title t; dueDate := dueDate t; duration := duration t;
     planDay := planDay t; needsClarification := needsClarification t;
     pendingQuestions := pendingQuestions t; calendarEventId := v;
     isExternal := isExternal t |}.

(** *** planner.py, [simple_plan] *)

(** The branch of [simple_plan] a task takes.  [(now + timedelta(days=1))]
    is [now] one day of microseconds later. *)
Definition bucket (now : Z) (t : Task) : string :=
  if needsClarification t then "unscheduled"
  else
    match dueDate t with
    | Some due =>
        if bool_decide (date_of due = date_of now) then "today"
        else if bool_decide (date_of due = date_of (now + usec_per_day)) then "tomorrow"
        else "unscheduled"
    | None => "unscheduled"
    end.

(** [for task in state.tasks: task.planDay = ...].  The tasks are objects:
    [objects] holds every [Task] by address and [refs] is [state.tasks]. *)
Definition simple_plan (now : Z) (objects : list Task) (refs : list nat) : list Task :=
  foldl (λ h r, alter (λ t, with_planDay t (bucket now t)) r h) objects refs.

(** *** google_services.py, [GoogleServices.find_free_slot] *)

(** Lines 488-492, with [WORK_START_HOUR = 9] and [WORK_END_HOUR = 18].  For
    a start at or after 18:00 the source evaluates
    [(start_time.date() + timedelta(days=1)).replace(hour=9, minute=0)]:
    [date.replace] takes no [hour], and the call raises [TypeError]. *)
Definition adjust_start (start_time : Z) : outcome Z :=
  if bool_decide (hour_of start_time < 9) then Ret (replace_hour_minute start_time 9 0)
  else if bool_decide (18 ≤ hour_of start_time) then Raise TypeError
  else Ret start_time.

(** Check 1 of the scan. *)
Definition out_of_hours (current_time end_time : Z) : bool :=
  bool_decide (hour_of current_time < 9)
  || (bool_decide (18 < hour_of end_time)
      || (bool_decide (hour_of end_time = 18) && bool_decide (0 < minute_of end_time))).

(** Lines 531-535: jump to the end of the busy slot, rounded up to the next
    five-minute mark. *)
Definition round_up_5 (slot_end : Z) : Z :=
  if bool_decide (minute_of slot_end `mod` 5 ≠ 0)
  then slot_end + minutes (5 - minute_of slot_end `mod` 5)
  else slot_end.

(** Check 2: [for slot in busy_slots], up to its [break].  A slot is [None]
    when [fromisoformat] cannot read it.  The answer is the next
    [current_time], or [None] when the slot is free. *)
Fixpoint first_conflict (busy_slots : list (option (Z * Z))) (current_time end_time : Z)
    : outcome (option Z) :=
  match busy_slots with
  | [] => Ret None
  | None :: _ => Raise ValueError
  | Some (slot_start, slot_end) :: rest =>
      if bool_decide (current_time < slot_end) && bool_decide (slot_start < end_time)
      then Ret (Some (round_up_5 slot_end))
      else first_conflict rest current_time end_time
  end.

(** [for _ in range(n)].  The roll to the next day in check 1 is again
    [date.replace(hour=...)]: it raises.  [Ret None] is the loop running out. *)
Fixpoint scan_slots (n : nat) (busy_slots : list (option (Z * Z)))
    (duration_minutes current_time : Z) : outcome (option Z) :=
  match n with
  | O => Ret None
  | S n =>
      let end_time := current_time + minutes duration_minutes in
      if out_of_hours current_time end_time then Raise TypeError
      else
        match first_conflict busy_slots current_time end_time with
        | Raise e => Raise e
        | Ret (Some next) => scan_slots n busy_slots duration_minutes next
        | Ret None => Ret (Some current_time)
        end
  end.

(** The [try] block of lines 498-549 given what the free/busy query answered:
    [except Exception] and the exhausted loop both return [start_time]. *)
Definition scan_or_fallback (response : outcome (list (option (Z * Z))))
    (start_time duration_minutes : Z) : Z :=
  match response with
  | Raise _ => start_time
  | Ret busy_slots =>
      match scan_slots 96 busy_slots duration_minutes start_time with
      | Ret (Some found) => found
      | Ret None => start_time
      | Raise _ => start_time
      end
  end.

(** The dict [create_event] sends to [events().insert]; the attendees play no
    part in what follows and are left out. *)
Record EventBody : Type := {
  summary : string;
  description : string;
  start_iso : Z;
  end_iso : Z;
}.

(** Google Calendar as [GoogleServices] uses it. *)
Record GoogleCalendar : Type := {
  gcal : Type;
  freebusy_query : gcal → Z → Z → outcome (list (option (Z * Z))) * gcal;
  events_insert : gcal → EventBody → outcome (option string) * gcal;
}.

(** An insertion that went through, and the task object it was made for. *)
Record Insertion : Type := {
  for_task : nat;
  at_start : Z;
  at_end : Z;
}.

(** [title.lower()] and [title.capitalize()], on ASCII letters. *)
Definition lower_char (a : ascii) : ascii :=
  let n := nat_of_ascii a in
  if (65 <=? n)%nat && (n <=? 90)%nat then ascii_of_nat (n + 32) else a.

Definition upper_char (a : ascii) : ascii :=
  let n := nat_of_ascii a in
  if (97 <=? n)%nat && (n <=? 122)%nat then ascii_of_nat (n - 32) else a.

Fixpoint lower (s : string) : string :=
  match s with
  | EmptyString => EmptyString
  | String a s' => String (lower_char a) (lower s')
  end.

Definition capitalize (s : string) : string :=
  match s with
  | EmptyString => EmptyString
  | String a s' => String (upper_char a) (lower s')
  end.

(** One entry of the language model's answer to the Gmail prompt, as
    [parse_gmail_tasks] reads it: the title after [strip()], the due after
    [_normalize_due], the duration, and the uuid drawn for the task. *)
Record GmailItem : Type := {
  item_title : string;
  item_due : option Z;
  item_duration : option Z;
  item_uuid : string;
}.

(** parser.py, [parse_gmail_tasks]: the loop over the items. *)
Definition parse_gmail_tasks (items : list GmailItem) : list Task :=
  (λ item,
     {| id := item_uuid item; title := capitalize (item_title item);
        dueDate := item_due item;
        duration := Some (default 60 (item_duration item));
        planDay := "unscheduled"; needsClarification := false;
        pendingQuestions := []; calendarEventId := None; isExternal := true |})
  <$> filter (λ item, item_title item ≠ "") items.

(** One entry of the language model's answer to the voice prompt, as
    [parse_into_tasks] reads it: the title after [strip()], the due after
    [_normalize_due], the duration, the uuid drawn for the task, and the name
    the task has to ask about.  [voice_ask] is the name, as [name.title()]
    writes it, when the entry has [needs_contact_name], its lower-cased title
    reads [email] or [call] and then the name, and [contacts.find] does not
    know the name; it is [None] in every other case. *)
Record VoiceItem : Type := {
  voice_title : string;
  voice_due : option Z;
  voice_duration : option Z;
  voice_ask : option string;
  voice_uuid : string;
}.

(** parser.py, [parse_into_tasks]: the loop over the items.  [isExternal] is
    not given to [Task(..)] and takes its default. *)
Definition parse_into_tasks (items : list VoiceItem) : list Task :=
  (λ item,
     {| id := voice_uuid item; title := capitalize (voice_title item);
        dueDate := voice_due item;
        duration := Some (default 60 (voice_duration item));
        planDay := "unscheduled";
        needsClarification := bool_decide (voice_ask item ≠ None);
        pendingQuestions :=
          match voice_ask item with
          | Some name => ["Who is " +:+ name +:+ "? Provide an email/phone."]
          | None => []
          end;
        calendarEventId := None; isExternal := false |})
  <$> filter (λ item, voice_title item ≠ "") items.

(** The fields of a task that only its maker sets. *)
Definition same_identity (t t' : Task) : Prop :=
  id t' = id t ∧ title t' = title t ∧ duration t' = duration t
  ∧ needsClarification t' = needsClarification t
  ∧ pendingQuestions t' = pendingQuestions t ∧ isExternal t' = isExternal t.

(** An item of [events().list] as step 2 of [run_full_sync] reads it.  An
    all-day event carries [start.date] and [end.date], a timed one
    [start.dateTime] and [end.dateTime]; each is what [fromisoformat] makes of
    the text, [Raise ValueError] when it cannot read it.  [event_summary] and
    [event_id] are [None] when the key is missing. *)
Inductive EventTime : Type :=
| AllDay (start_date end_date : outcome Z)
| Timed (start_time end_time : outcome Z)
| Untimed.

Record CalendarEvent : Type := {
  event_summary : option string;
  event_time : EventTime;
  event_id : option string;
}.

(** Lines 759-781: the start and the end step 2 gives an event, [None] for
    its [continue].  An all-day event that covers today counts from 09:00 to
    17:00 of today, one that starts tomorrow from 09:00 to 17:00 of tomorrow,
    any other is skipped; [end.date] is the day after the last day. *)
Definition event_times (now : Z) (ev : CalendarEvent) : outcome (option (Z * Z)) :=
  match event_time ev with
  | AllDay (Raise e) _ => Raise e
  | AllDay (Ret _) (Raise e) => Raise e
  | AllDay (Ret start_date) (Ret end_date) =>
      let end_date := end_date - 1 in
      if bool_decide (start_date ≤ date_of now) && bool_decide (date_of now ≤ end_date)
      then Ret (Some (replace_hour_minute now 9 0, replace_hour_minute now 17 0))
      else if bool_decide (start_date = date_of (now + usec_per_day))
      then Ret (Some (replace_hour_minute (now + usec_per_day) 9 0,
                      replace_hour_minute (now + usec_per_day) 17 0))
      else Ret None
  | Timed (Raise e) _ => Raise e
  | Timed (Ret _) (Raise e) => Raise e
  | Timed (Ret start_time) (Ret end_time) => Ret (Some (start_time, end_time))
  | Untimed => Ret None
  end.

(** Lines 783-797: the task made from an event.  [int(x / 60)] rounds toward
    zero. *)
Definition event_task (task_id title : string) (start_time end_time : Z) : Task :=
  let is_external := negb (String.prefix "FlowPilot:" title) in
  {| id := task_id; title := title; dueDate := Some start_time;
     duration := Some ((end_time - start_time) `quot` usec_per_minute);
     planDay := "unscheduled"; needsClarification := false; pendingQuestions := [];
     calendarEventId := if is_external then None else Some task_id;
     isExternal := is_external |}.

(** A [VEVENT] of the Canvas feed as [import_canvas_ics] reads it: [str] of
    its summary, the [dt] of its [dtstart] ([None] when the component has no
    [dtstart]) and of its [dtend], each a [date] or a [datetime], and the
    text of [hash(title+str(due))]. *)
Inductive IcsTime : Type :=
| IcsDate (d : Z)
| IcsDateTime (t : Z).

Record VEvent : Type := {
  vevent_summary : string;
  vevent_dtstart : option IcsTime;
  vevent_dtend : option IcsTime;
  vevent_hash : string;
}.

(** Lines 646-649: sixty minutes, or the minutes from [dtstart], here a
    [datetime], to [dtend]; a [date] minus a [datetime] is a [TypeError]. *)
Definition canvas_duration (dtstart : Z) (dtend : option IcsTime) : outcome Z :=
  match dtend with
  | None => Ret 60
  | Some (IcsDateTime dtend) => Ret ((dtend - dtstart) `quot` usec_per_minute)
  | Some (IcsDate _) => Raise TypeError
  end.

(** Lines 650-653: the task made from a [VEVENT]. *)
Definition canvas_task (task_id title : string) (due duration : Z) : Task :=
  {| id := task_id; title := title; dueDate := Some due; duration := Some duration;
     planDay := "unscheduled"; needsClarification := false; pendingQuestions := [];
     calendarEventId := None; isExternal := true |}.

(** [any(x.id == task_id for x in STATE.tasks)] *)
Definition id_known (objs : list Task) (refs : list nat) (task_id : string) : bool :=
  existsb (λ r, match objs !! r with
                | Some x => bool_decide (id x = task_id)
                | None => false
                end) refs.

(** The first task of [STATE.tasks] with the id: the loop of [delete_task]
    up to its [break]. *)
Fixpoint first_with_id (objs : list Task) (refs : list nat) (task_id : string)
    : option nat :=
  match refs with
  | [] => None
  | r :: rest =>
      match objs !! r with
      | Some x => if bool_decide (id x = task_id) then Some r
                  else first_with_id objs rest task_id
      | None => first_with_id objs rest task_id
      end
  end.

(** [tasks.remove(t)]: the first element that is [t] or equals it field by
    field goes. *)
Fixpoint py_remove (objs : list Task) (r : nat) (refs : list nat) : list nat :=
  match refs with
  | [] => []
  | r' :: rest =>
      if bool_decide (r' = r) || bool_decide (objs !! r' = objs !! r) then rest
      else r' :: py_remove objs r rest
  end.

(** *** The flows *)
Section Flows.
Context {G : GoogleCalendar}.

(** The process: every [Task] object by address, [STATE.tasks], the calendar
    client ([None] when [GOOGLE.cal_service] is missing), and the insertions
    made so far. *)
Record World : Type := {
  objects : list Task;
  state_tasks : list nat;
  cal_service : option (gcal G);
  inserted : list Insertion;
}.

Definition B (A : Type) : Type := World → outcome A * World.

Definition ret {A} (a : A) : B A := λ w, (Ret a, w).
Definition bind {A C} (m : B A) (k : A → B C) : B C :=
  λ w, match m w with
       | (Ret a, w') => k a w'
       | (Raise e, w') => (Raise e, w')
       end.

Definition lift {A} (o : outcome A) : B A := λ w, (o, w).

(** [try: body except Exception: print(..)] *)
Definition attempt (body : B unit) : B unit :=
  λ w, match body w with
       | (Ret _, w') => (Ret tt, w')
       | (Raise _, w') => (Ret tt, w')
       end.

#[local] Notation "x <- m ;; k" := (bind m (λ x, k))
  (at level 100, m at next level, right associativity).

Definition get (r : nat) : B (option Task) := λ w, (Ret (objects w !! r), w).

Definition update (r : nat) (f : Task → Task) : B unit :=
  λ w, (Ret tt, {| objects := alter f r (objects w); state_tasks := state_tasks w;
                   cal_service := cal_service w; inserted := inserted w |}).

(** [GoogleServices.find_free_slot] *)
Definition find_free_slot (start_time duration_minutes : Z) : B Z :=
  λ w, match cal_service w with
       | None => (Ret start_time, w)
       | Some c =>
           match adjust_start start_time with
           | Raise e => (Raise e, w)
           | Ret start_time =>
               let r := freebusy_query G c start_time (start_time + 3 * usec_per_day) in
               (Ret (scan_or_fallback r.1 start_time duration_minutes),
                {| objects := objects w; state_tasks := state_tasks w;
                   cal_service := Some r.2; inserted := inserted w |})
           end
       end.

(** [GoogleServices.create_event], called for the task object [r]. *)
Definition create_event (r : nat) (title : string) (start_iso end_iso : Z)
    (description : string) : B (option string) :=
  λ w, match cal_service w with
       | None => (Ret (Some "ERROR: Google Calendar service not available."), w)
       | Some c =>
           let res := events_insert G c
                        {| summary := title; description := description;
                           start_iso := start_iso; end_iso := end_iso |} in
           match res.1 with
           | Ret eid =>
               (Ret eid,
                {| objects := objects w; state_tasks := state_tasks w;
                   cal_service := Some res.2;
                   inserted := inserted w ++ [{| for_task := r; at_start := start_iso;
                                                 at_end := end_iso |}] |})
           | Raise e =>
               (Raise e,
                {| objects := objects w; state_tasks := state_tasks w;
                   cal_service := Some res.2; inserted := inserted w |})
           end
       end.

Definition raise {A} (e : exn) : B A := λ w, (Raise e, w).

Fixpoint for_each {A} (body : A → B unit) (l : list A) : B unit :=
  match l with
  | [] => ret tt
  | x :: rest => _ <- body x ;; for_each body rest
  end.

(** A new [Task] object; the answer is its address. *)
Definition alloc (t : Task) : B nat :=
  λ w, (Ret (length (objects w)),
        {| objects := objects w ++ [t]; state_tasks := state_tasks w;
           cal_service := cal_service w; inserted := inserted w |}).

Fixpoint alloc_all (ts : list Task) : B (list nat) :=
  match ts with
  | [] => ret []
  | t :: rest => r <- alloc t ;; rs <- alloc_all rest ;; ret (r :: rs)
  end.

(** [STATE.tasks.append(task)] *)
Definition append_task (r : nat) : B unit :=
  λ w, (Ret tt, {| objects := objects w; state_tasks := state_tasks w ++ [r];
                   cal_service := cal_service w; inserted := inserted w |}).

(** [any(x.title.lower() == task.title.lower() for x in STATE.tasks)] *)
Definition title_known (objs : list Task) (refs : list nat) (name : string) : bool :=
  existsb (λ r, match objs !! r with
                | Some x => bool_decide (lower (title x) = lower name)
                | None => false
                end) refs.

(** Step 4 of [run_full_sync]: a Gmail task joins [STATE.tasks] unless a task
    of that title is there already. *)
Definition add_gmail_task (r : nat) : B unit :=
  λ w, match objects w !! r with
       | Some task =>
           if title_known (objects w) (state_tasks w) (title task) then (Ret tt, w)
           else append_task r w
       | None => (Ret tt, w)
       end.

(** Step 5: [t.dueDate is None and t.planDay == "unscheduled" and not
    t.needsClarification]. *)
Definition wants_deadline (objs : list Task) (r : nat) : bool :=
  match objs !! r with
  | Some t => bool_decide (dueDate t = None) && bool_decide (planDay t = "unscheduled")
              && negb (needsClarification t)
  | None => false
  end.

(** [if t.dueDate] *)
Definition has_due (objs : list Task) (r : nat) : bool :=
  match objs !! r with
  | Some t => bool_decide (dueDate t ≠ None)
  | None => false
  end.

(** [t in tasks]: some element is the object [t] or equals it field by
    field. *)
Definition py_in (objs : list Task) (r : nat) (refs : list nat) : bool :=
  existsb (λ r', bool_decide (r' = r) || bool_decide (objs !! r' = objs !! r)) refs.

(** The loop of step 5.  [answers] are what [get_ai_deadline] returned, call
    by call; [None] is its "no estimate". *)
Fixpoint ask_deadlines (refs : list nat) (answers : list (option Z)) : B unit :=
  match refs with
  | [] => ret tt
  | r :: rest =>
      _ <- match answers with
           | Some ai_due_date :: _ => update r (λ t, with_dueDate t (Some ai_due_date))
           | _ => ret tt
           end ;;
      ask_deadlines rest (tail answers)
  end.

(** The body of the [try] in [run_full_sync] (lines 847-860). *)
Definition schedule_auto (r : nat) : B unit :=
  ot <- get r ;;
  match ot with
  | None => ret tt
  | Some task =>
      match dueDate task with
      | None => raise AttributeError
      | Some start_time =>
          let task_duration := default 60 (duration task) in
          final_start_time <- find_free_slot start_time task_duration ;;
          final_end_time <- lift (add_minutes final_start_time task_duration) ;;
          event_id <- create_event r ("FlowPilot: " +:+ title task)
                        final_start_time final_end_time
                        ("Task ID: " +:+ id task +:+ " (Auto-scheduled)") ;;
          _ <- update r (λ t, with_calendarEventId t event_id) ;;
          update r (λ t, with_dueDate t (Some final_start_time))
      end
  end.

(** [simple_plan(STATE)] *)
Definition replan (now : Z) : B unit :=
  λ w, (Ret tt, {| objects := simple_plan now (objects w) (state_tasks w);
                   state_tasks := state_tasks w; cal_service := cal_service w;
                   inserted := inserted w |}).

(** [run_full_sync] from its step 4 on.  Steps 1 to 3 append the tasks read
    from the calendar and from Canvas to [STATE.tasks]; the world it starts
    from has them.  [items] is the language model's answer for the mailbox
    ([sync_gmail] answers [[]] when anything fails), [answers] its deadline
    estimates, [now] the clock. *)
Definition run_full_sync (items : list GmailItem) (answers : list (option Z))
    (now : Z) : B unit :=
  gmail_tasks <- alloc_all (parse_gmail_tasks items) ;;
  _ <- for_each add_gmail_task gmail_tasks ;;
  tasks_to_plan <- (λ w, (Ret (filter (λ r, wants_deadline (objects w) r = true)
                                 (state_tasks w)), w)) ;;
  _ <- ask_deadlines tasks_to_plan answers ;;
  tasks_to_schedule <- (λ w, (Ret (filter (λ r, has_due (objects w) r = true)
                                     tasks_to_plan), w)) ;;
  gmail_tasks_with_dates <-
    (λ w, (Ret (filter (λ r, has_due (objects w) r = true
                             ∧ py_in (objects w) r tasks_to_schedule = false)
                  gmail_tasks), w)) ;;
  _ <- for_each (λ r, attempt (schedule_auto r))
         (tasks_to_schedule ++ gmail_tasks_with_dates) ;;
  replan now.

(** The body of the [try] in [run_agent_flow] (lines 701-730). *)
Definition schedule_voice (now : Z) (r : nat) : B unit :=
  ot <- get r ;;
  match ot with
  | None => ret tt
  | Some task =>
      let task_duration := default 60 (duration task) in
      start_time <- match dueDate task with
                    | Some due => ret due
                    | None => find_free_slot now task_duration
                    end ;;
      final_start_time <- find_free_slot start_time task_duration ;;
      final_end_time <- lift (add_minutes final_start_time task_duration) ;;
      event_id <- create_event r ("FlowPilot: " +:+ title task)
                    final_start_time final_end_time ("Task ID: " +:+ id task) ;;
      _ <- update r (λ t, with_calendarEventId t event_id) ;;
      update r (λ t, with_dueDate t (Some final_start_time))
  end.

(** [not t.needsClarification] *)
Definition is_ready (objs : list Task) (r : nat) : bool :=
  match objs !! r with
  | Some t => negb (needsClarification t)
  | None => false
  end.

(** [run_agent_flow] once [parse_into_tasks] has answered [new_tasks]. *)
Definition run_agent_flow (new_tasks : list Task) (now : Z) : B unit :=
  match new_tasks with
  | [] => ret tt
  | _ =>
      new_refs <- alloc_all new_tasks ;;
      _ <- for_each append_task new_refs ;;
      tasks_to_schedule <- (λ w, (Ret (filter (λ r, is_ready (objects w) r = true)
                                         new_refs), w)) ;;
      _ <- for_each (λ r, attempt (schedule_voice now r)) tasks_to_schedule ;;
      replan now
  end.

(** Step 2 of [run_full_sync], one event of the loop. *)
Definition import_event (now : Z) (ev : CalendarEvent) : B unit :=
  λ w, let title := default "Untitled Event" (event_summary ev) in
       match event_times now ev with
       | Raise e => (Raise e, w)
       | Ret None => (Ret tt, w)
       | Ret (Some (start_time, end_time)) =>
           match event_id ev with
           | None => (Ret tt, w)
           | Some task_id =>
               if bool_decide (task_id = "") then (Ret tt, w)
               else if id_known (objects w) (state_tasks w) task_id then (Ret tt, w)
               else (r <- alloc (event_task task_id title start_time end_time) ;;
                     append_task r) w
           end
       end.

(** [for event in events], given what [list_upcoming_events] answered. *)
Definition import_calendar (now : Z) (events : list CalendarEvent) : B unit :=
  for_each (import_event now) events.

(** [import_canvas_ics], one [VEVENT] of the loop: a component without
    [dtstart] raises [AttributeError] at [.dt], one whose [dtstart] is a
    [date] is skipped, any other becomes a task unless a task of
    [STATE.tasks] has its id.  Giving the due a time zone leaves its
    wall-clock reading. *)
Definition import_canvas_event (ev : VEvent) : B unit :=
  λ w, match vevent_dtstart ev with
       | None => (Raise AttributeError, w)
       | Some (IcsDate _) => (Ret tt, w)
       | Some (IcsDateTime due) =>
           match canvas_duration due (vevent_dtend ev) with
           | Raise e => (Raise e, w)
           | Ret duration =>
               let task_id := "ics-" +:+ vevent_hash ev in
               if id_known (objects w) (state_tasks w) task_id then (Ret tt, w)
               else (r <- alloc (canvas_task task_id (vevent_summary ev) due duration) ;;
                     append_task r) w
           end
       end.

(** [import_canvas_ics] once the feed is fetched and read; the count it
    returns is only printed. *)
Definition import_canvas_ics (vevents : list VEvent) : B unit :=
  for_each import_canvas_event vevents.

(** Steps 2 and 3 of [run_full_sync].  [now] is the clock of line 751 and
    [events] what [list_upcoming_events] answered (when that call raises,
    the run ends before it has touched anything).  [canvas] is [None] when
    step 3 is skipped or the feed cannot be fetched, [Some (Raise e)] when
    [Calendar.from_ical] raises on it, and otherwise the [VEVENT]s of the
    feed. *)
Definition sync_imports (now : Z) (events : list CalendarEvent)
    (canvas : option (outcome (list VEvent))) : B unit :=
  _ <- import_calendar now events ;;
  match canvas with
  | None => ret tt
  | Some (Raise e) => raise e
  | Some (Ret vevents) => import_canvas_ics vevents
  end.

(** [run_full_sync] from its step 2 on (step 1 reads the contacts): the
    imports, then the steps from 4 on, which [run_full_sync] above embeds;
    [now'] is the clock of the final [simple_plan]. *)
Definition run_full_sync_all (now : Z) (events : list CalendarEvent)
    (canvas : option (outcome (list VEvent))) (items : list GmailItem)
    (answers : list (option Z)) (now' : Z) : B unit :=
  _ <- sync_imports now events canvas ;;
  run_full_sync items answers now'.

(** The endpoint [delete_task].  The answer is its [ok] and the event id it
    hands to [GOOGLE.delete_event], if it does. *)
Definition delete_task (task_id : string) : B (bool * option string) :=
  λ w, match first_with_id (objects w) (state_tasks w) task_id with
       | None => (Ret (false, None), w)
       | Some r =>
           (Ret (true,
                 match objects w !! r with
                 | Some t =>
                     match calendarEventId t with
                     | Some eid =>
                         if negb (isExternal t) && negb (bool_decide (eid = ""))
                         then Some eid else None
                     | None => None
                     end
                 | None => None
                 end),
            {| objects := objects w;
               state_tasks := py_remove (objects w) r (state_tasks w);
               cal_service := cal_service w; inserted := inserted w |})
       end.

(** The ids of [STATE.tasks], in order. *)
Definition task_ids (w : World) : list string :=
  omap (λ r, id <$> objects w !! r) (state_tasks w).

(** The insertions a run from [w] to [w'] made. *)
Definition new_insertions (w w' : World) : list Insertion :=
  drop (length (inserted w)) (inserted w').

(** [needsClarification], object by object. *)
Definition flags (w : World) : list bool := needsClarification <$> objects w.

(** From [w] to [w'] no flag changed, and every insertion made was for an
    object in [P]. *)
Definition keeps (P : nat → Prop) (w w' : World) : Prop :=
  flags w' = flags w
  ∧ ∃ added, inserted w' = inserted w ++ added
             ∧ Forall (λ ins, P (for_task ins)) added.

(** From [w] to [w'] [STATE.tasks] was only appended to, and every task
    object is still there with its identity. *)
Definition extends (w w' : World) : Prop :=
  state_tasks w `prefix_of` state_tasks w'
  ∧ ∀ r t, objects w !! r = Some t →
           ∃ t', objects w' !! r = Some t' ∧ same_identity t t'.

(** The insertion lasts as long as the task it was made for says, an hour
    when the task says nothing. *)
Definition lasts_its_duration (w' : World) (ins : Insertion) : Prop :=
  ∃ t, objects w' !! for_task ins = Some t
       ∧ at_end ins = at_start ins + minutes (default 60 (duration t)).

(** From [w] to [w'] tasks were only appended, and every insertion made
    lasts its task's duration. *)
Definition books_by_duration (w w' : World) : Prop :=
  extends w w'
  ∧ ∃ added, inserted w' = inserted w ++ added
             ∧ Forall (lasts_its_duration w') added.

End Flows.
Arguments World : clear implicits.
Arguments B : clear implicits.

End Backend.

(** ** Concrete inputs *)

(** A calendar kept as a list of events.  A listing answers the events that
    start before [timeMax] and end after [timeMin]; an insertion appends the
    event and answers with an id made from its position.  [outages] scripts
    the calls to come: [true] makes the next call raise. *)
Module Desk.
Import Py Server.

Record desk : Type := {
  held : list Event;
  outages : list bool;
}.

Definition in_window (a b : Z) (ev : Event) : bool :=
  match ev_start ev with Some s => bool_decide (s < b) | None => true end
  && match ev_end ev with Some e => bool_decide (a < e) | None => true end.

Definition desk_list (c : desk) (a b : Z) : outcome (list Event) * desk :=
  match outages c with
  | true :: rest => (Raise ServiceError, {| held := held c; outages := rest |})
  | _ => (Ret (filter (λ ev, in_window a b ev = true) (held c)),
          {| held := held c; outages := tail (outages c) |})
  end.

Definition desk_insert (c : desk) (body : EventBody) : outcome (option string) * desk :=
  match outages c with
  | true :: rest => (Raise ServiceError, {| held := held c; outages := rest |})
  | _ => (Ret (Some ("evt" +:+ pretty (length (held c)))),
          {| held := held c ++ [{| ev_start := Some (start_dt body);
                                   ev_end := Some (end_dt body) |}];
             outages := tail (outages c) |})
  end.

Definition service : CalendarService :=
  {| calendar := desk; events_list := desk_list; events_insert := desk_insert |}.

Definition meeting (d h1 m1 h2 m2 : Z) : Event :=
  {| ev_start := Some (combine d h1 m1); ev_end := Some (combine d h2 m2) |}.

Definition task (i : Z) (name : string) (due : option Z) (dur prio : Z) : Task :=
  {| id := i; title := name; source := "email"; raw_ref := None; due := due;
     duration_min := dur; priority := prio; planned_at := None;
     calendar_event_id := None; status := "pending"; notes := None |}.

Definition world (rows : list Task) (evs : list Event) (script : list bool)
    : World service :=
  @Build_World service rows {| held := evs; outages := script |} [] [].

(** Today (day 100) is taken from 09:00 to 18:00, and so are the two days
    after it but for the hour 17:00-18:00 of day 101. *)
Definition crowded : list Event :=
  [meeting 100 9 0 18 0; meeting 101 9 0 17 0; meeting 102 9 0 18 0].

Definition two_undated : list Task :=
  [task 1 "write" None 60 1; task 2 "read" None 60 5].

(** An empty calendar whose second call, the insertion for the first task,
    raises. *)
Definition insert_fails : World service := world two_undated [] [false; true].

(** Day 100 with meetings that overlap one another and one that runs past
    18:00, as two calendars laid over each other give them. *)
Definition overlapping : list Event :=
  [meeting 100 10 0 11 30; meeting 100 10 30 11 0; meeting 100 17 30 19 0].

End Desk.

(** The same kind of calendar for [backend/main.py]: the free/busy query
    answers the busy intervals that meet the window, an insertion adds one;
    while [down] every call raises. *)
Module Board.
Import Py Backend.

Record board : Type := {
  taken : list (Z * Z);
  down : bool;
}.

Definition board_query (c : board) (a b : Z) : outcome (list (option (Z * Z))) * board :=
  if down c then (Raise ServiceError, c)
  else (Ret (Some <$> filter (λ iv : Z * Z, iv.1 < b ∧ a < iv.2) (taken c)), c).

Definition board_insert (c : board) (body : EventBody) : outcome (option string) * board :=
  if down c then (Raise ServiceError, c)
  else (Ret (Some ("evt" +:+ pretty (length (taken c)))),
        {| taken := taken c ++ [(start_iso body, end_iso body)]; down := false |}).

Definition google : GoogleCalendar :=
  {| gcal := board; freebusy_query := board_query; events_insert := board_insert |}.

(** A task said at 08:00 of day 100, due that day at 15:00. *)
Definition bank_call : Task :=
  {| id := "a"; title := "Call the bank"; dueDate := Some (combine 100 15 0);
     duration := Some 30; planDay := "unscheduled"; needsClarification := false;
     pendingQuestions := []; calendarEventId := None; isExternal := false |}.

Definition process (objs : list Task) (refs : list nat) (busy : list (Z * Z))
    : World google :=
  @Build_World google objs refs (Some {| taken := busy; down := false |}) [].

(** Ninety-six five-minute meetings from 09:00 on. *)
Definition back_to_back (d : Z) : list (Z * Z) :=
  (λ i, (combine d 9 0 + minutes (5 * i), combine d 9 0 + minutes (5 * i + 5)))
  <$> seqZ 0 96.

(** The language model found one task in the mailbox, due on day 100 at
    10:00 and two hours long. *)
Definition yc_mail : GmailItem :=
  {| item_title := "apply to yc (from email)"; item_due := Some (combine 100 10 0);
     item_duration := Some 120; item_uuid := "6f1c" |}.

(** The same mail read on a later sync: another uuid, the title in other
    letters. *)
Definition yc_mail_again : GmailItem :=
  {| item_title := "Apply to YC (from Email)"; item_due := Some (combine 101 10 0);
     item_duration := Some 120; item_uuid := "b07e" |}.

(** What the calendar lists on day 100: a meeting, an event the agent made
    itself, and an all-day event that carries the meeting's id. *)
Definition agenda : list CalendarEvent :=
  [ {| event_summary := Some "Standup";
       event_time := Timed (Ret (combine 100 10 0)) (Ret (combine 100 10 30));
       event_id := Some "e1" |};
    {| event_summary := Some "FlowPilot: Call the bank";
       event_time := Timed (Ret (combine 100 15 0)) (Ret (combine 100 15 30));
       event_id := Some "e2" |};
    {| event_summary := None;
       event_time := AllDay (Ret 100) (Ret 101);
       event_id := Some "e1" |} ].

(** What the calendar lists on day 101 once the task of [yc_mail] has been
    booked: the event the agent made for it. *)
Definition own_event : CalendarEvent :=
  {| event_summary := Some "FlowPilot: Apply to yc (from email)";
     event_time := Timed (Ret (combine 100 10 0)) (Ret (combine 100 12 0));
     event_id := Some "evt0" |}.

(** A quiz of the Canvas feed, on day 100 from 13:00 to 13:45. *)
Definition quiz : VEvent :=
  {| vevent_summary := "Quiz 3";
     vevent_dtstart := Some (IcsDateTime (combine 100 13 0));
     vevent_dtend := Some (IcsDateTime (combine 100 13 45));
     vevent_hash := "-42" |}.

(** The process without a calendar client. *)
Definition offline (objs : list Task) (refs : list nat) : World google :=
  @Build_World google objs refs None [].

(** A task said without a time. *)
Definition buy_milk : Task :=
  {| id := "b"; title := "Buy milk"; dueDate := None;
     duration := Some 15; planDay := "unscheduled"; needsClarification := false;
     pendingQuestions := []; calendarEventId := None; isExternal := false |}.

(** A task said without a time, longer than the calendar of [datetime]. *)
Definition long_haul : Task :=
  {| id := "c"; title := "Sail around"; dueDate := None;
     duration := Some 14400000030; planDay := "unscheduled"; needsClarification := false;
     pendingQuestions := []; calendarEventId := None; isExternal := false |}.

End Board.

Section FreeSlot.
Import Py Server.

Lemma minutes_pos d : 0 < d → 0 < minutes d.
Proof. unfold minutes, usec_per_minute. lia. Qed.

(** Completeness of the scan: nothing is asked of the busy list.  Any valid
    placement at or after [cur] forces the scan to answer, no later. *)
Lemma scan_gaps_complete we d busy : ∀ cur t,
  0 < d → cur ≤ t → t + minutes d ≤ we → clear_of t (t + minutes d) busy →
  match scan_gaps we d cur busy with
  | Found (s, e) => cur ≤ s ∧ s ≤ t ∧ e = s + minutes d
  | Fell c => c ≤ t
  end.
Proof.
  induction busy as [|[bs be] rest IH]; intros cur t Hd Hcur Hwe Hclear; simpl.
  - done.
  - apply Forall_cons in Hclear as [Hb Hrest]. simpl in Hb.
    pose proof (minutes_pos d Hd).
    case_bool_decide as Hgap.
    + lia.
    + case_bool_decide as Hbrk.
      * lia.
      * specialize (IH (cur `max` be) t Hd ltac:(lia) Hwe Hrest).
        destruct (scan_gaps we d (cur `max` be) rest) as [[s e]|c]; lia.
Qed.

(** Soundness of the scan needs the list ordered by start, as
    [_busy_intervals_for_day] leaves it, with no start past the window's end
    (the calendar query's [timeMax]); intervals may overlap one another and
    may stick out of the window. *)
Lemma scan_gaps_sound we d busy : ∀ cur,
  0 < d → StronglySorted by_start busy → Forall (λ b, b.1 ≤ we) busy →
  match scan_gaps we d cur busy with
  | Found (s, e) => cur ≤ s ∧ e = s + minutes d ∧ e ≤ we ∧ clear_of s e busy
  | Fell c => cur ≤ c ∧ Forall (λ b, b.2 ≤ c) busy ∨ we < c
  end.
Proof.
  induction busy as [|[bs be] rest IH]; intros cur Hd Hsort Hin; simpl.
  - left. split; [lia|constructor].
  - apply StronglySorted_inv in Hsort as [Hsort Hle].
    apply Forall_cons in Hin as [Hbs Hin]. simpl in Hbs.
    case_bool_decide as Hgap.
    + repeat split; [lia..|].
      constructor; [left; simpl; lia|].
      eapply Forall_impl; [exact Hle|]. unfold by_start. simpl. intros [s' e'] ?.
      left. simpl in *. lia.
    + case_bool_decide as Hbrk; [right; lia|].
      specialize (IH (cur `max` be) Hd Hsort Hin).
      destruct (scan_gaps we d (cur `max` be) rest) as [[s e]|c].
      * destruct IH as (? & -> & ? & Hc). repeat split; [lia|done|].
        constructor; [right; simpl; lia|done].
      * destruct IH as [[? Hall]|?]; [left|by right].
        split; [lia|]. constructor; [simpl; lia|done].
Qed.

(** The finder's answer is a valid placement of the clamped duration. *)
Lemma find_free_slot_in_sound ws we busy d s e :
  0 < d → StronglySorted by_start busy → Forall (λ b, b.1 ≤ we) busy →
  find_free_slot_in ws we busy d = Some (s, e) →
  e = s + minutes d ∧ fits_at ws we busy (minutes d) s.
Proof.
  intros Hd Hsort Hin. unfold find_free_slot_in, clamp.
  rewrite bool_decide_eq_false_2 by lia.
  pose proof (scan_gaps_sound we d busy ws Hd Hsort Hin) as Hs.
  pose proof (minutes_pos d Hd).
  destruct (scan_gaps we d ws busy) as [[s' e']|c].
  - intros [= -> ->]. destruct Hs as (? & -> & ? & ?).
    split; [done|]. split; [lia|]. split; done.
  - case_bool_decide as Htail; [|done]. intros [= <- <-].
    destruct Hs as [[? Hall]|?]; [|lia].
    split; [done|]. split; [done|]. split; [lia|].
    eapply Forall_impl; [exact Hall|]. intros [bs be] ?. by right.
Qed.

(** Whenever some placement is valid, the finder answers, and no later. *)
Lemma find_free_slot_in_complete ws we busy d t :
  0 < d → fits_at ws we busy (minutes d) t →
  ∃ s, find_free_slot_in ws we busy d = Some (s, s + minutes d) ∧ s ≤ t.
Proof.
  intros Hd (Hws & Hwe & Hclear). unfold find_free_slot_in, clamp.
  rewrite bool_decide_eq_false_2 by lia.
  pose proof (scan_gaps_complete we d busy ws t Hd Hws Hwe Hclear) as Hc.
  destruct (scan_gaps we d ws busy) as [[s e]|c].
  - destruct Hc as (? & ? & ->). by exists s.
  - exists c. rewrite bool_decide_eq_true_2 by lia. done.
Qed.

(** A list in the specification's canonical form is ordered by start and
    stays inside the window. *)
Lemma canonical_from_sorted we busy : ∀ lo,
  canonical_from lo we busy →
  StronglySorted by_start busy ∧ Forall (λ b, lo ≤ b.1 ∧ b.1 ≤ we) busy.
Proof.
  induction busy as [|[bs be] rest IH]; intros lo; simpl.
  - intros _. split; constructor.
  - intros (Hlo & Hne & Hwe & Hrest). destruct (IH be Hrest) as [Hs Hall].
    split; constructor; simpl.
    + done.
    + eapply Forall_impl; [exact Hall|]. unfold by_start. simpl. intros [??] ?; simpl in *. lia.
    + lia.
    + eapply Forall_impl; [exact Hall|]. intros [??] ?; simpl in *. lia.
Qed.


(** C1.  For a busy list in canonical form (ordered, pairwise disjoint,
    inside the window [[ws, we]]) and a positive duration [d]: every slot the
    finder returns is [[s, s + d]] with [ws ≤ s], [s + d ≤ we], clear of
    every busy interval; and whenever [d] fits in the window, in that some
    placement of [d] is clear of every busy interval, the finder returns a
    slot. *)
Theorem find_free_slot_returns_valid_slot ws we busy d :
  0 < d → canonical_from ws we busy →
  (∀ s e, find_free_slot_in ws we busy d = Some (s, e) →
          e = s + minutes d ∧ ws ≤ s ∧ s + minutes d ≤ we
          ∧ clear_of s (s + minutes d) busy)
  ∧ ((∃ t, fits_at ws we busy (minutes d) t) →
     ∃ s, find_free_slot_in ws we busy d = Some (s, s + minutes d)).
Proof.
  intros Hd Hcanon. split.
  - intros s e Hs.
    destruct (canonical_from_sorted we busy ws Hcanon) as [Hsort Hin].
    eapply find_free_slot_in_sound in Hs as [-> (? & ? & ?)]; [done..|].
    eapply Forall_impl; [exact Hin|]. simpl. lia.
  - intros [t Ht].
    destruct (find_free_slot_in_complete ws we busy d t Hd Ht) as (s & Hs & _).
    by exists s.
Qed.

(** The specification's scenario: working hours 09:00-18:00, one meeting
    10:00-11:00, ninety minutes asked; the slot is 11:00-12:30. *)
Lemma find_free_slot_returns_valid_slot_witness :
  find_free_slot_in (combine 0 9 0) (combine 0 18 0)
    [(combine 0 10 0, combine 0 11 0)] 90 = Some (combine 0 11 0, combine 0 12 30)
  ∧ (combine 0 12 30 = combine 0 11 0 + minutes 90
     ∧ combine 0 9 0 ≤ combine 0 11 0
     ∧ combine 0 11 0 + minutes 90 ≤ combine 0 18 0
     ∧ clear_of (combine 0 11 0) (combine 0 11 0 + minutes 90)
         [(combine 0 10 0, combine 0 11 0)]).
Proof.
  split; [vm_compute; reflexivity|].
  apply (find_free_slot_returns_valid_slot
           (combine 0 9 0) (combine 0 18 0) [(combine 0 10 0, combine 0 11 0)] 90).
  - lia.
  - vm_compute. repeat split; congruence.
  - vm_compute. reflexivity.
Defined.

(** A window taken from end to end has no slot: a duration no longer than
    the window is not enough for the finder to answer. *)
Lemma find_free_slot_in_full_window :
  find_free_slot_in (combine 0 9 0) (combine 0 18 0)
    [(combine 0 9 0, combine 0 18 0)] 60 = None.
Proof. vm_compute. reflexivity. Qed.

(** C2.  The returned slot is the earliest fit: no start strictly before the
    returned one begins a slot of duration [d] that lies in the working-hours
    window and is clear of every busy interval.  The scan needs no order on
    the busy list for this. *)
Theorem find_free_slot_earliest_fit ws we busy d s e :
  0 < d → find_free_slot_in ws we busy d = Some (s, e) →
  ∀ t, t < s → ¬ fits_at ws we busy (minutes d) t.
Proof.
  intros Hd Hs t Hlt Ht.
  destruct (find_free_slot_in_complete ws we busy d t Hd Ht) as (s' & Hs' & Hle).
  rewrite Hs in Hs'. injection Hs' as -> _. lia.
Qed.

(** In the same scenario no ninety minutes starting at 09:30 are free. *)
Lemma find_free_slot_earliest_fit_witness :
  find_free_slot_in (combine 0 9 0) (combine 0 18 0)
    [(combine 0 10 0, combine 0 11 0)] 90 = Some (combine 0 11 0, combine 0 12 30)
  ∧ ¬ fits_at (combine 0 9 0) (combine 0 18 0)
        [(combine 0 10 0, combine 0 11 0)] (minutes 90) (combine 0 9 30).
Proof.
  split; [vm_compute; reflexivity|].
  apply (find_free_slot_earliest_fit
           (combine 0 9 0) (combine 0 18 0) [(combine 0 10 0, combine 0 11 0)] 90
           (combine 0 11 0) (combine 0 12 30)).
  - lia.
  - vm_compute. reflexivity.
  - vm_compute. reflexivity.
Defined.

End FreeSlot.

(** ** The day's busy list *)
Section BusyList.
Import Py Server.

Lemma insert_by_start_perm x l : insert_by_start x l ≡ₚ x :: l.
Proof.
  induction l as [|y l IH]; simpl; [done|].
  case_bool_decide; [|done]. rewrite IH. apply Permutation_swap.
Qed.

Lemma sort_by_start_perm l : sort_by_start l ≡ₚ l.
Proof.
  induction l as [|x l IH]; simpl; [done|].
  rewrite insert_by_start_perm. by rewrite IH.
Qed.

Lemma insert_by_start_sorted x l :
  StronglySorted by_start l → StronglySorted by_start (insert_by_start x l).
Proof.
  induction l as [|y l IH]; simpl; intros Hs.
  - repeat constructor.
  - apply StronglySorted_inv in Hs as [Hs Hy]. case_bool_decide as Hlt.
    + constructor; [by apply IH|].
      rewrite insert_by_start_perm. constructor; [unfold by_start; lia|done].
    + constructor; [by constructor|]. constructor; [unfold by_start; lia|].
      eapply Forall_impl; [exact Hy|]. unfold by_start. intros; lia.
Qed.

Lemma sort_by_start_sorted l : StronglySorted by_start (sort_by_start l).
Proof.
  induction l as [|x l IH]; simpl; [constructor|]. by apply insert_by_start_sorted.
Qed.

Lemma busy_of_sorted evs : StronglySorted by_start (busy_of evs).
Proof. apply sort_by_start_sorted. Qed.

Lemma elem_of_busy_of evs b :
  b ∈ busy_of evs ↔ ∃ ev, ev ∈ evs ∧ event_interval ev = Some b.
Proof.
  unfold busy_of. rewrite sort_by_start_perm. apply list_elem_of_omap.
Qed.

Lemma busy_of_mono evs evs' : evs ⊆ evs' → busy_of evs ⊆ busy_of evs'.
Proof.
  intros Hsub b. rewrite !elem_of_busy_of. intros (ev & Hev & Hb).
  exists ev. split; [by apply Hsub|done].
Qed.

Lemma busy_of_window evs we :
  Forall (λ ev, ∀ s, ev_start ev = Some s → s ≤ we) evs →
  Forall (λ b, b.1 ≤ we) (busy_of evs).
Proof.
  intros Hall. apply Forall_forall. intros [s e] Hb.
  apply elem_of_busy_of in Hb as (ev & Hev & Hb).
  rewrite Forall_forall in Hall. specialize (Hall ev Hev). simpl.
  unfold event_interval in Hb.
  destruct (ev_start ev) as [s'|] eqn:Hs; [|done].
  destruct (ev_end ev); [|done]. injection Hb as -> _. by apply Hall.
Qed.

Lemma clamp_pos d : 0 < clamp d.
Proof. unfold clamp. case_bool_decide; lia. Qed.

Lemma find_free_slot_in_clamp ws we busy d :
  find_free_slot_in ws we busy d = find_free_slot_in ws we busy (clamp d).
Proof.
  unfold find_free_slot_in.
  replace (clamp (clamp d)) with (clamp d); [done|].
  unfold clamp. repeat case_bool_decide; lia.
Qed.

Lemma clear_of_subseteq s e busy busy' :
  busy ⊆ busy' → clear_of s e busy' → clear_of s e busy.
Proof.
  unfold clear_of. rewrite !Forall_forall. intros Hsub H b Hb. apply H. by apply Hsub.
Qed.

(** More busy intervals never open a slot. *)
Lemma find_free_slot_in_none_mono ws we busy busy' d :
  busy ⊆ busy' → StronglySorted by_start busy' → Forall (λ b, b.1 ≤ we) busy' →
  find_free_slot_in ws we busy d = None → find_free_slot_in ws we busy' d = None.
Proof.
  intros Hsub Hsort Hwin. rewrite !(find_free_slot_in_clamp _ _ _ d).
  pose proof (clamp_pos d) as Hd. intros Hnone.
  destruct (find_free_slot_in ws we busy' (clamp d)) as [[s e]|] eqn:Hsome; [|done].
  apply find_free_slot_in_sound in Hsome as [-> (? & ? & Hclear)]; [|done..].
  destruct (find_free_slot_in_complete ws we busy (clamp d) s Hd) as (s' & Hs' & _).
  - repeat split; [done..|]. by eapply clear_of_subseteq.
  - congruence.
Qed.

End BusyList.

(** ** One pass of [plan_all_pending] *)
Section Pass.
Import Py Server.
Context {S : CalendarService}.
Implicit Types (w : World S) (t : Task) (c : calendar S).

Lemma later_list c a b : later c (events_list S c a b).2.
Proof. apply rtc_once. left. eauto. Qed.

Lemma later_insert c body : later c (events_insert S c body).2.
Proof. apply rtc_once. right. eauto. Qed.

Lemma adapter_raised_later c c' e : later c c' → adapter_raised c' e → adapter_raised c e.
Proof. intros Hl (c'' & Hl' & H). exists c''. split; [by etrans|done]. Qed.

(** What [try_days] does to the world, by its result. *)
Lemma try_days_spec t days : ∀ w,
  later (remote w) (remote (try_days t days w).2) ∧
  match (try_days t days w).1 with
  | Ret true =>
      ∃ s e eid,
        db (try_days t days w).2 = update_row (db w) (booked t s eid)
        ∧ journal (try_days t days w).2 = journal w ++ [Booked (id t) s e eid]
  | Ret false =>
      db (try_days t days w).2 = db w ∧ journal (try_days t days w).2 = journal w
  | Raise e =>
      db (try_days t days w).2 = db w ∧ journal (try_days t days w).2 = journal w
      ∧ adapter_raised (remote w) e
  end.
Proof.
  induction days as [|d rest IH]; intros w; simpl.
  - split; [done|]. done.
  - unfold bind at 1. unfold _find_free_slot, _busy_intervals_for_day, bind,
      list_events_between, ret. simpl.
    pose proof (later_list (remote w) (combine d 9 0) (combine d 18 0)) as Hl.
    destruct (events_list S (remote w) (combine d 9 0) (combine d 18 0))
      as [[evs|e] c1] eqn:Hlist; simpl in *.
    + destruct (find_free_slot_in _ _ _ _) as [[s e]|]; simpl.
      * unfold create_event_summary, commit, note. simpl.
        match goal with |- context [events_insert S c1 ?b] =>
          pose proof (later_insert c1 b) as Hi;
          destruct (events_insert S c1 b) as [[eid|e'] c2] eqn:Hins end; simpl in *.
        -- split; [by etrans|]. by exists s, e, eid.
        -- split; [by etrans|]. repeat split.
           exists c1. split; [done|]. right. eexists. by rewrite Hins.
      * match goal with |- context [try_days t rest ?w0] => specialize (IH w0) end.
        simpl in IH. destruct IH as [Hl' IH]. split; [by etrans|].
        destruct (try_days t rest _) as [[[]|e] w']; simpl in *; [done..|].
        destruct IH as (? & ? & ?). repeat split; [done..|].
        by eapply adapter_raised_later.
    + split; [done|]. repeat split.
      exists (remote w). split; [done|]. left. eexists _, _. by rewrite Hlist.
Qed.


(** A task with a [due] stops the pass: [min(today, last_day)] compares a
    [date] with a [datetime]. *)
Lemma plan_one_dated today t dt w :
  due t = Some dt → plan_one today t w = (Raise TypeError, w).
Proof. intros Hd. unfold plan_one, due_key. rewrite Hd. done. Qed.

(** A task without one is searched for on today and the two days after. *)
Lemma plan_one_undated today t w :
  due t = None →
  plan_one today t w =
    bind (try_days t (seqZ today 3))
      (λ placed : bool, if placed then ret tt else note (Unplaced (id t))) w.
Proof.
  intros Hd. unfold plan_one, due_key. rewrite Hd. unfold py_min, when_lt.
  rewrite bool_decide_eq_false_2 by lia. unfold bind at 1. unfold lift.
  by replace (today + 2 - today + 1) with 3 by lia.
Qed.

(** What one iteration of the pass does to the world. *)
Lemma plan_one_spec today t w :
  later (remote w) (remote (plan_one today t w).2) ∧
  ((∃ s e eid,
      (plan_one today t w).1 = Ret tt
      ∧ db (plan_one today t w).2 = update_row (db w) (booked t s eid)
      ∧ journal (plan_one today t w).2 = journal w ++ [Booked (id t) s e eid])
   ∨ ((plan_one today t w).1 = Ret tt
      ∧ db (plan_one today t w).2 = db w
      ∧ journal (plan_one today t w).2 = journal w ++ [Unplaced (id t)])
   ∨ (∃ e, (plan_one today t w).1 = Raise e
      ∧ db (plan_one today t w).2 = db w
      ∧ journal (plan_one today t w).2 = journal w
      ∧ (due t = None → adapter_raised (remote w) e))).
Proof.
  destruct (due t) as [dt|] eqn:Hd.
  - rewrite (plan_one_dated today t dt w Hd). simpl. split; [done|].
    right. right. exists TypeError. done.
  - rewrite (plan_one_undated today t w Hd). unfold bind.
    pose proof (try_days_spec t (seqZ today 3) w) as [Hl Hs].
    destruct (try_days t (seqZ today 3) w) as [[[]|e] w']; simpl in *.
    + split; [done|]. left. destruct Hs as (s & e & eid & ? & ?). by exists s, e, eid.
    + split; [done|]. right. left. destruct Hs as [-> ->]. done.
    + split; [done|]. right. right. exists e. destruct Hs as (? & ? & ?). done.
Qed.


Lemma elem_of_update_row_ne rows t r :
  r ∈ rows → id r ≠ id t → r ∈ update_row rows t.
Proof.
  intros Hr Hne. unfold update_row. apply list_elem_of_fmap. exists r.
  by rewrite bool_decide_eq_false_2.
Qed.

Lemma elem_of_update_row_eq rows t r :
  r ∈ rows → id r = id t → t ∈ update_row rows t.
Proof.
  intros Hr Heq. unfold update_row. apply list_elem_of_fmap. exists r.
  by rewrite bool_decide_eq_true_2.
Qed.

Lemma elem_of_update_row_inv rows t r :
  r ∈ update_row rows t → r = t ∨ (r ∈ rows ∧ id r ≠ id t).
Proof.
  unfold update_row. intros (r0 & -> & Hr0)%list_elem_of_fmap.
  case_bool_decide; [by left|by right].
Qed.

(** The loop over the ordered tasks.  It stops at the first iteration that
    raises; [done] are the tasks it finished, [rest] those it did not. *)
Lemma for_tasks_spec today l : ∀ w,
  NoDup (id <$> l) → (∀ t, t ∈ l → t ∈ db w) →
  ∃ done rest added,
    l = done ++ rest
    ∧ journal (for_tasks (plan_one today) l w).2 = journal w ++ added
    ∧ entry_task <$> added = id <$> done
    ∧ ((for_tasks (plan_one today) l w).1 = Ret tt ∧ rest = []
       ∨ ∃ e t, (for_tasks (plan_one today) l w).1 = Raise e
                ∧ head rest = Some t
                ∧ (due t = None → adapter_raised (remote w) e))
    ∧ (∀ i s e eid, Booked i s e eid ∈ added →
         ∃ t, t ∈ done ∧ id t = i
              ∧ booked t s eid ∈ db (for_tasks (plan_one today) l w).2)
    ∧ (∀ t, t ∈ l → (∀ s e eid, Booked (id t) s e eid ∉ added) →
         t ∈ db (for_tasks (plan_one today) l w).2)
    ∧ (∀ r, r ∈ db w → id r ∉ (id <$> l) →
         r ∈ db (for_tasks (plan_one today) l w).2).
Proof.
  induction l as [|t l IH]; intros w Hnd Hin.
  - exists [], [], []. simpl. rewrite app_nil_r.
    repeat split; [by left|..]; try done.
    + intros ???? H. by apply elem_of_nil in H.
    + intros ? H. by apply elem_of_nil in H.
  - simpl in Hnd. apply NoDup_cons in Hnd as [Hfresh Hnd].
    simpl. unfold bind.
    pose proof (plan_one_spec today t w) as [Hl Hcase].
    destruct (plan_one today t w) as [r1 w1]; simpl in *.
    assert (Ht : t ∈ db w) by (apply Hin; left).
    assert (Hne : ∀ t', t' ∈ l → id t' ≠ id t).
    { intros t' Ht' Heq. apply Hfresh. rewrite <- Heq. by apply list_elem_of_fmap_2. }
    destruct Hcase as [(s & e & eid & -> & Hdb & Hj)|[(-> & Hdb & Hj)|(e & -> & Hdb & Hj & Hraised)]].
    + destruct (IH w1 Hnd) as (done & rest & added & -> & Hj' & Hmap & Hres & Hbk & Hun & Hkeep).
      { intros t' Ht'. rewrite Hdb. apply elem_of_update_row_ne; [|by apply Hne].
        apply Hin. by right. }
      exists (t :: done), rest, (Booked (id t) s e eid :: added).
      split; [done|]. split; [by rewrite Hj', Hj, <- app_assoc|].
      split; [by rewrite !fmap_cons, Hmap|]. split.
      { destruct Hres as [?|(e' & t' & ? & ? & Hr)]; [by left|right].
        exists e', t'. repeat split; [done..|]. intros Hd.
        eapply adapter_raised_later; [exact Hl|by apply Hr]. }
      split; [|split].
      * intros i s' e' eid' [Heq|Hel]%elem_of_cons.
        -- injection Heq as -> -> -> ->. exists t. split; [left|]. split; [done|].
           apply Hkeep; [|done]. rewrite Hdb. by eapply elem_of_update_row_eq.
        -- destruct (Hbk _ _ _ _ Hel) as (t' & ? & ? & ?). exists t'.
           split; [by right|done].
      * intros t' [->|Ht']%elem_of_cons Hnb.
        -- exfalso. eapply Hnb. left.
        -- apply Hun; [done|]. intros s' e' eid' Hel. eapply Hnb. right. exact Hel.
      * intros r Hr Hnotin. apply Hkeep.
        -- rewrite Hdb. apply elem_of_update_row_ne; [done|].
           intros Heq. apply Hnotin. rewrite Heq. left.
        -- intros Hel. apply Hnotin. by right.
    + destruct (IH w1 Hnd) as (done & rest & added & -> & Hj' & Hmap & Hres & Hbk & Hun & Hkeep).
      { intros t' Ht'. rewrite Hdb. apply Hin. by right. }
      exists (t :: done), rest, (Unplaced (id t) :: added).
      split; [done|]. split; [by rewrite Hj', Hj, <- app_assoc|].
      split; [by rewrite !fmap_cons, Hmap|]. split.
      { destruct Hres as [?|(e' & t' & ? & ? & Hr)]; [by left|right].
        exists e', t'. repeat split; [done..|]. intros Hd.
        eapply adapter_raised_later; [exact Hl|by apply Hr]. }
      split; [|split].
      * intros i s' e' eid' [Heq|Hel]%elem_of_cons; [done|].
        destruct (Hbk _ _ _ _ Hel) as (t' & ? & ? & ?). exists t'.
        split; [by right|done].
      * intros t' [->|Ht']%elem_of_cons Hnb.
        -- apply Hkeep; [by rewrite Hdb|done].
        -- apply Hun; [done|]. intros s' e' eid' Hel. eapply Hnb. right. exact Hel.
      * intros r Hr Hnotin. apply Hkeep; [by rewrite Hdb|].
        intros Hel. apply Hnotin. by right.
    + exists [], (t :: l), []. simpl. rewrite app_nil_r.
      split; [done|]. split; [done|]. split; [done|]. split.
      { right. exists e, t. done. }
      split; [|split].
      * intros ???? H. by apply elem_of_nil in H.
      * intros t' Ht' _. rewrite Hdb. by apply Hin.
      * intros r Hr _. by rewrite Hdb.
Qed.


Lemma insert_task_perm today x l l' :
  insert_task today x l = Ret l' → l' ≡ₚ x :: l.
Proof.
  revert l'. induction l as [|y l IH]; simpl; intros l'.
  - by intros [= <-].
  - destruct (key_lt _ _) as [[]|]; [|by intros [= <-]|done].
    destruct (insert_task today x l) as [r|]; [|done]. intros [= <-].
    rewrite (IH r eq_refl). apply Permutation_swap.
Qed.

Lemma sort_tasks_perm today l l' : sort_tasks today l = Ret l' → l' ≡ₚ l.
Proof.
  revert l'. induction l as [|x l IH]; simpl; intros l'.
  - by intros [= <-].
  - destruct (sort_tasks today l) as [sorted|]; [|done]. intros Hins.
    rewrite (insert_task_perm _ _ _ _ Hins). by rewrite (IH sorted eq_refl).
Qed.

(** Tasks without a [due] all carry the same [date] key: the sort raises
    nothing on them. *)
Lemma insert_task_undated today x l :
  due x = None → Forall (λ t, due t = None) l → ∃ l', insert_task today x l = Ret l'.
Proof.
  intros Hx. induction l as [|y l IH]; simpl; intros Hl; [by eexists|].
  apply Forall_cons in Hl as [Hy Hl].
  unfold key_lt, sort_key, due_key. rewrite Hx, Hy. simpl.
  rewrite bool_decide_eq_true_2 by done.
  case_bool_decide; [|by eexists]. destruct (IH Hl) as [r ->]. by eexists.
Qed.

Lemma sort_tasks_undated today l :
  Forall (λ t, due t = None) l → ∃ l', sort_tasks today l = Ret l'.
Proof.
  induction l as [|x l IH]; simpl; intros Hl; [by eexists|].
  apply Forall_cons in Hl as [Hx Hl]. destruct (IH Hl) as [sorted Hs]. rewrite Hs.
  apply insert_task_undated; [done|].
  apply Forall_forall. intros t Ht. rewrite Forall_forall in Hl. apply Hl.
  by rewrite <- (sort_tasks_perm _ _ _ Hs).
Qed.

Lemma plan_all_pending_run today w :
  plan_all_pending today w =
    match sort_tasks today (pending (db w)) with
    | Ret order => for_tasks (plan_one today) order w
    | Raise e => (Raise e, w)
    end.
Proof. unfold plan_all_pending, bind, lift. by destruct (sort_tasks _ _). Qed.

Lemma pending_elem rows t : t ∈ pending rows ↔ status t = "pending" ∧ t ∈ rows.
Proof. unfold pending. by rewrite list_elem_of_filter. Qed.

Lemma pending_ids_nodup rows : NoDup (id <$> rows) → NoDup (id <$> pending rows).
Proof.
  intros Hnd. eapply sublist_NoDup; [exact Hnd|].
  apply fmap_sublist. unfold pending. apply sublist_filter.
Qed.

Lemma new_entries_app w w' added :
  journal w' = journal w ++ added → new_entries w w' = added.
Proof. intros Hj. unfold new_entries. by rewrite Hj, drop_app_length. Qed.

(** The pass rewrites rows in place: the keys of the table do not change. *)
Lemma update_row_ids rows t : id <$> update_row rows t = id <$> rows.
Proof.
  unfold update_row. rewrite <- list_fmap_compose. apply list_fmap_ext.
  intros _ r _. simpl. by case_bool_decide.
Qed.

Lemma for_tasks_ids today l : ∀ w,
  id <$> db (for_tasks (plan_one today) l w).2 = id <$> db w.
Proof.
  induction l as [|t l IH]; intros w; simpl; [done|]. unfold bind.
  pose proof (plan_one_spec today t w) as [_ Hcase].
  destruct (plan_one today t w) as [r1 w1]; simpl in *.
  destruct Hcase as [(s & e & eid & -> & Hdb & _)|[(-> & Hdb & _)|(e & -> & Hdb & _)]].
  - rewrite IH, Hdb. apply update_row_ids.
  - by rewrite IH, Hdb.
  - simpl. by rewrite Hdb.
Qed.

Lemma plan_all_pending_ids today w :
  id <$> db (plan_all_pending today w).2 = id <$> db w.
Proof.
  rewrite plan_all_pending_run. destruct (sort_tasks _ _); [|done]. apply for_tasks_ids.
Qed.

Lemma nodup_ids_same_row (rows : list Task) r r' :
  NoDup (id <$> rows) → r ∈ rows → r' ∈ rows → id r = id r' → r = r'.
Proof.
  induction rows as [|x rows IH]; simpl; intros Hnd Hr Hr' Heq.
  - by apply elem_of_nil in Hr.
  - apply NoDup_cons in Hnd as [Hx Hnd].
    apply elem_of_cons in Hr as [->|Hr]; apply elem_of_cons in Hr' as [->|Hr'].
    + done.
    + exfalso. apply Hx. rewrite Heq. by apply list_elem_of_fmap_2.
    + exfalso. apply Hx. rewrite <- Heq. by apply list_elem_of_fmap_2.
    + by apply IH.
Qed.


(** *** The calls of a pass *)

(** What [try_days] asked of the adapter: one listing per day tried and at
    most one insertion, the last call; a call that raises is the last one,
    and its exception is the result. *)
Lemma try_days_trace t days : ∀ w,
  ∃ cs,
    calls (try_days t days w).2 = calls w ++ cs
    ∧ failures cs = match (try_days t days w).1 with Raise e => [e] | Ret _ => [] end
    ∧ match (try_days t days w).1 with
      | Ret true =>
          ∃ s e eid,
            created cs = [(body_for t s e, eid)]
            ∧ journal (try_days t days w).2 = journal w ++ [Booked (id t) s e eid]
      | _ => created cs = []
      end.
Proof.
  induction days as [|d rest IH]; intros w; simpl.
  - exists []. by rewrite app_nil_r.
  - unfold bind at 1 2 3 4. unfold _find_free_slot, _busy_intervals_for_day, bind,
      list_events_between, ret. simpl.
    destruct (events_list S (remote w) (combine d 9 0) (combine d 18 0))
      as [[evs|e] c1] eqn:Hlist; simpl.
    + destruct (find_free_slot_in _ _ _ _) as [[s e]|]; simpl.
      * unfold create_event_summary, commit, note. simpl.
        destruct (events_insert S c1 _) as [[eid|e'] c2] eqn:Hins; simpl.
        -- eexists. rewrite <- app_assoc. split; [done|]. split; [done|].
           by exists s, e, eid.
        -- eexists. rewrite <- app_assoc. split; [done|]. done.
      * match goal with |- context [try_days t rest ?w0] =>
          destruct (IH w0) as (cs & Hc & Hf & Hcr) end.
        exists (ListCall (combine d 9 0) (combine d 18 0) (Ret evs) :: cs).
        simpl in Hc. rewrite Hc, <- app_assoc. split; [done|]. split; [done|].
        destruct (try_days t rest _) as [[[]|e] w']; simpl in *; done.
    + eexists. split; [done|]. done.
Qed.

(** The same for the body of the loop, and for the loop: every event
    created was made with the body of a task of the list and is written
    down for that task, and over tasks without a [due] the calls that raised
    are none when the loop returns and the one that ended it otherwise. *)
Lemma plan_one_trace today t w :
  ∃ cs js,
    calls (plan_one today t w).2 = calls w ++ cs
    ∧ journal (plan_one today t w).2 = journal w ++ js
    ∧ (∀ body eid, (body, eid) ∈ created cs →
         body = body_for t (start_dt body) (end_dt body)
         ∧ Booked (id t) (start_dt body) (end_dt body) eid ∈ js)
    ∧ (due t = None →
         failures cs = match (plan_one today t w).1 with Raise e => [e] | Ret _ => [] end).
Proof.
  destruct (due t) as [dt|] eqn:Hdue.
  { rewrite (plan_one_dated today t dt w Hdue). exists [], []. simpl.
    rewrite !app_nil_r. split; [done|]. split; [done|]. split; [|done].
    intros body eid Hin. by apply elem_of_nil in Hin. }
  rewrite (plan_one_undated today t w Hdue). unfold bind.
  destruct (try_days_trace t (seqZ today 3) w) as (cs & Hc & Hf & Hcr).
  pose proof (try_days_spec t (seqZ today 3) w) as [_ Hs].
  destruct (try_days t (seqZ today 3) w) as [[[]|e] w0]; simpl in *.
  - destruct Hcr as (s & e & eid & Hcr & Hj). exists cs, [Booked (id t) s e eid].
    split; [done|]. split; [done|]. split; [|done].
    intros body eid' Hin. rewrite Hcr in Hin. apply list_elem_of_singleton in Hin.
    injection Hin as -> ->. simpl. split; [done|left].
  - destruct Hs as [_ Hj]. exists cs, [Unplaced (id t)]. rewrite Hj.
    split; [done|]. split; [done|]. split; [|done].
    intros body eid Hin. rewrite Hcr in Hin. by apply elem_of_nil in Hin.
  - destruct Hs as (_ & Hj & _). exists cs, []. rewrite app_nil_r.
    split; [done|]. split; [done|]. split; [|done].
    intros body eid Hin. rewrite Hcr in Hin. by apply elem_of_nil in Hin.
Qed.

Lemma for_tasks_trace today l : ∀ w,
  ∃ cs js,
    calls (for_tasks (plan_one today) l w).2 = calls w ++ cs
    ∧ journal (for_tasks (plan_one today) l w).2 = journal w ++ js
    ∧ (∀ body eid, (body, eid) ∈ created cs →
         ∃ t, t ∈ l ∧ body = body_for t (start_dt body) (end_dt body)
              ∧ Booked (id t) (start_dt body) (end_dt body) eid ∈ js)
    ∧ (Forall (λ t, due t = None) l →
         failures cs
         = match (for_tasks (plan_one today) l w).1 with Raise e => [e] | Ret _ => [] end).
Proof.
  induction l as [|t l IH]; intros w; simpl.
  - exists [], []. rewrite !app_nil_r. split; [done|]. split; [done|]. split; [|done].
    intros body eid Hin. by apply elem_of_nil in Hin.
  - unfold bind. destruct (plan_one_trace today t w) as (cs & js & Hc & Hj & Hcr & Hf).
    destruct (plan_one today t w) as [[[]|e] w1]; simpl in *.
    + destruct (IH w1) as (cs1 & js1 & Hc1 & Hj1 & Hcr1 & Hf1).
      exists (cs ++ cs1), (js ++ js1). rewrite Hc1, Hc, Hj1, Hj, <- !app_assoc.
      split; [done|]. split; [done|]. split.
      * intros body eid Hin. unfold created in Hin. rewrite omap_app in Hin.
        apply elem_of_app in Hin as [Hin|Hin].
        -- destruct (Hcr body eid Hin) as [? ?]. exists t. split; [left|].
           split; [done|]. apply elem_of_app. by left.
        -- destruct (Hcr1 body eid Hin) as (t' & ? & ? & ?). exists t'.
           split; [by right|]. split; [done|]. apply elem_of_app. by right.
      * intros [Hd Hl]%Forall_cons. unfold failures in *. rewrite omap_app.
        by rewrite (Hf Hd), (Hf1 Hl).
    + exists cs, js. split; [done|]. split; [done|]. split.
      * intros body eid Hin. destruct (Hcr body eid Hin) as [? ?]. exists t.
        split; [left|done].
      * intros [Hd _]%Forall_cons. by apply Hf.
Qed.

Lemma new_calls_app w w' added :
  calls w' = calls w ++ added → new_calls w w' = added.
Proof. intros Hc. unfold new_calls. by rewrite Hc, drop_app_length. Qed.

(** What the row of a task reads once the pass has written a booking down
    for it. *)
Lemma booked_entry_row today (w : World S) i s e eid :
  NoDup (id <$> db w) →
  Booked i s e eid ∈ new_entries w (plan_all_pending today w).2 →
  ∃ t0 t',
    t0 ∈ db w ∧ id t0 = i ∧ status t0 = "pending"
    ∧ t' ∈ db (plan_all_pending today w).2 ∧ id t' = i
    ∧ (∀ r, r ∈ db (plan_all_pending today w).2 → id r = i → r = t')
    ∧ status t' = "planned" ∧ calendar_event_id t' = eid
    ∧ planned_at t' = Some s ∧ due t' = due t0.
Proof.
  intros Hnd Hin.
  pose proof (plan_all_pending_ids today w) as Hids.
  rewrite plan_all_pending_run in Hin, Hids |- *.
  destruct (sort_tasks today (pending (db w))) as [order|err] eqn:Hsort; simpl in *.
  - pose proof (sort_tasks_perm _ _ _ Hsort) as Hperm.
    destruct (for_tasks_spec today order w) as
      (done & rest & added & -> & Hj & _ & _ & Hbk & _ & _).
    { rewrite Hperm. by apply pending_ids_nodup. }
    { intros t Ht. rewrite Hperm in Ht. by apply pending_elem in Ht as [_ ?]. }
    rewrite (new_entries_app _ _ _ Hj) in Hin.
    destruct (Hbk _ _ _ _ Hin) as (t & Ht & <- & Hrow).
    assert (Hp : t ∈ pending (db w)).
    { rewrite <- Hperm. apply elem_of_app. by left. }
    apply pending_elem in Hp as [Hst Hdb].
    exists t, (booked t s eid). repeat split; try done.
    intros r Hr Heq. eapply nodup_ids_same_row; [|exact Hr|exact Hrow|exact Heq].
    by rewrite Hids.
  - unfold new_entries in Hin. rewrite drop_all in Hin. by apply elem_of_nil in Hin.
Qed.

(** Every event a pass created was made for a pending task, with the body
    of lines 102-107, and is written down for that task. *)
Lemma plan_all_pending_created today (w : World S) body eid :
  (body, eid) ∈ created (new_calls w (plan_all_pending today w).2) →
  ∃ t, t ∈ db w ∧ status t = "pending"
       ∧ body = body_for t (start_dt body) (end_dt body)
       ∧ Booked (id t) (start_dt body) (end_dt body) eid
         ∈ new_entries w (plan_all_pending today w).2.
Proof.
  rewrite plan_all_pending_run.
  destruct (sort_tasks today (pending (db w))) as [order|err] eqn:Hsort; simpl.
  - destruct (for_tasks_trace today order w) as (cs & js & Hc & Hj & Hcr & _).
    rewrite (new_calls_app _ _ _ Hc), (new_entries_app _ _ _ Hj). intros Hin.
    destruct (Hcr body eid Hin) as (t & Ht & Hb & Hen).
    rewrite (sort_tasks_perm _ _ _ Hsort) in Ht. apply pending_elem in Ht as [? ?].
    by exists t.
  - unfold new_calls. rewrite drop_all. intros Hin. by apply elem_of_nil in Hin.
Qed.

(** C4 (amended).  After a successful booking in a pass of
    [plan_all_pending], that is, for every event the pass had the adapter
    create: the event was made for a task that was pending, and that task's
    row reads [status] = 'planned', [calendar_event_id] = the id the adapter
    answered with, [planned_at] = the start of the body the adapter was
    given; its [due] is what it was before the pass. *)
Theorem booking_marks_task_planned today (w : World S) body eid :
  NoDup (id <$> db w) →
  (body, eid) ∈ created (new_calls w (plan_all_pending today w).2) →
  ∃ t0 t',
    t0 ∈ db w ∧ status t0 = "pending"
    ∧ body = body_for t0 (start_dt body) (end_dt body)
    ∧ t' ∈ db (plan_all_pending today w).2 ∧ id t' = id t0
    ∧ (∀ r, r ∈ db (plan_all_pending today w).2 → id r = id t0 → r = t')
    ∧ status t' = "planned" ∧ calendar_event_id t' = eid
    ∧ planned_at t' = Some (start_dt body) ∧ due t' = due t0.
Proof.
  intros Hnd Hin.
  destruct (plan_all_pending_created today w body eid Hin) as (t & Ht & Hst & Hbody & Hen).
  destruct (booked_entry_row today w _ _ _ _ Hnd Hen)
    as (t0 & t' & Ht0 & Hid0 & Hst0 & Ht' & Hid' & Huniq & ? & ? & ? & ?).
  assert (t0 = t) as -> by by apply (nodup_ids_same_row (db w)).
  exists t, t'. repeat split; done.
Qed.

(** C5 (amended).  In a pass over pending tasks that carry no [due]: when no
    call of the adapter raises, the pass returns and every task has its
    result, also after a task for which no day had a slot; an exception of a
    calendar adapter call is not caught: it is what [plan_all_pending]
    raises, the task it struck and the tasks after it get no result, and
    every task without a booking is left as it was. *)
Theorem pass_stops_at_adapter_failure today (w : World S) :
  NoDup (id <$> db w) →
  (∀ t, t ∈ db w → status t = "pending" → due t = None) →
  ∃ order done rest,
    sort_tasks today (pending (db w)) = Ret order
    ∧ order = done ++ rest
    ∧ entry_task <$> new_entries w (plan_all_pending today w).2 = id <$> done
    ∧ (failures (new_calls w (plan_all_pending today w).2) = [] →
         (plan_all_pending today w).1 = Ret tt ∧ rest = [])
    ∧ (∀ e, e ∈ failures (new_calls w (plan_all_pending today w).2) →
         (plan_all_pending today w).1 = Raise e ∧ rest ≠ []
         ∧ failures (new_calls w (plan_all_pending today w).2) = [e])
    ∧ (∀ t, t ∈ order →
         (∀ s e eid, Booked (id t) s e eid ∉ new_entries w (plan_all_pending today w).2) →
         t ∈ db (plan_all_pending today w).2).
Proof.
  intros Hnd Hundated.
  assert (Hund : Forall (λ t, due t = None) (pending (db w))).
  { apply Forall_forall. intros t [? ?]%pending_elem. by apply Hundated. }
  destruct (sort_tasks_undated today (pending (db w)) Hund) as [order Hsort].
  pose proof (sort_tasks_perm _ _ _ Hsort) as Hperm.
  rewrite plan_all_pending_run, Hsort.
  destruct (for_tasks_spec today order w) as
    (done & rest & added & Hsplit & Hj & Hmap & Hres & _ & Hun & _).
  { rewrite Hperm. by apply pending_ids_nodup. }
  { intros t Ht. rewrite Hperm in Ht. by apply pending_elem in Ht as [_ ?]. }
  destruct (for_tasks_trace today order w) as (cs & js & Hc & _ & _ & Hf).
  rewrite (new_entries_app _ _ _ Hj), (new_calls_app _ _ _ Hc), Hf by by rewrite Hperm.
  exists order, done, rest. split; [done|]. split; [done|]. split; [done|].
  destruct Hres as [[Hret ->]|(e & t & He & Hhead & _)].
  - rewrite Hret. split; [done|]. split; [|done].
    intros e He. by apply elem_of_nil in He.
  - rewrite He. split; [done|]. split; [|done].
    intros e' ->%list_elem_of_singleton. split; [done|]. split; [by destruct rest|done].
Qed.


(** *** Tasks with a due date *)

Lemma key_lt_raise a b e : key_lt a b = Raise e → e = TypeError.
Proof.
  unfold key_lt. destruct (when_eq a.1 b.1); [done|].
  destruct a.1, b.1; simpl; congruence.
Qed.

Lemma key_lt_same_kind today x y b :
  key_lt (sort_key today y) (sort_key today x) = Ret b →
  (due x = None ↔ due y = None).
Proof.
  unfold key_lt, sort_key, due_key. simpl.
  destruct (due x), (due y); simpl; done.
Qed.

Lemma insert_task_raise today x l e : insert_task today x l = Raise e → e = TypeError.
Proof.
  induction l as [|y l IH]; simpl; [done|].
  destruct (key_lt _ _) as [[]|e'] eqn:Hk.
  - destruct (insert_task today x l); [done|]. intros [= <-]. by apply IH.
  - done.
  - intros [= <-]. by eapply key_lt_raise.
Qed.

Lemma sort_tasks_raise today l e : sort_tasks today l = Raise e → e = TypeError.
Proof.
  revert e. induction l as [|x l IH]; simpl; intros e; [done|].
  destruct (sort_tasks today l).
  - apply insert_task_raise.
  - intros [= <-]. by apply IH.
Qed.

(** The sort gets through only when every key is a [date] or every key is a
    [datetime]. *)
Lemma sort_tasks_same_kind today l l' :
  sort_tasks today l = Ret l' →
  Forall (λ t, due t = None) l ∨ Forall (λ t, due t ≠ None) l.
Proof.
  revert l'. induction l as [|x l IH]; simpl; intros l'; [by left|].
  destruct (sort_tasks today l) as [sorted|] eqn:Hs; [|done].
  pose proof (sort_tasks_perm _ _ _ Hs) as Hperm.
  destruct sorted as [|y sorted].
  { apply Permutation_nil_l in Hperm as <-. intros _.
    destruct (due x) eqn:Hx; [right|left]; repeat constructor; congruence. }
  simpl. destruct (key_lt _ _) as [b|] eqn:Hk; [|done]. intros _.
  apply key_lt_same_kind in Hk.
  assert (Hy : y ∈ l) by (rewrite <- Hperm; left).
  destruct (IH _ eq_refl) as [Hall|Hall]; [left|right]; constructor; try done.
  - apply Hk. rewrite Forall_forall in Hall. by apply Hall.
  - rewrite Forall_forall in Hall. specialize (Hall y Hy). tauto.
Qed.

(** A pending task with a [due] stops the pass before anything is tried:
    the table, the calendar and the journal are as they were. *)
Lemma dated_task_stops_pass today (w : World S) t dt :
  t ∈ db w → status t = "pending" → due t = Some dt →
  plan_all_pending today w = (Raise TypeError, w).
Proof.
  intros Ht Hst Hdue. rewrite plan_all_pending_run.
  assert (Hp : t ∈ pending (db w)) by by apply pending_elem.
  destruct (sort_tasks today (pending (db w))) as [order|e] eqn:Hsort.
  - pose proof (sort_tasks_perm _ _ _ Hsort) as Hperm.
    destruct (sort_tasks_same_kind _ _ _ Hsort) as [Hall|Hall];
      rewrite Forall_forall in Hall.
    + specialize (Hall t Hp). congruence.
    + destruct order as [|t1 order].
      { apply Permutation_nil_l in Hperm. rewrite <- Hperm in Hp.
        by apply elem_of_nil in Hp. }
      assert (Ht1 : t1 ∈ pending (db w)) by (rewrite <- Hperm; left).
      specialize (Hall t1 Ht1). destruct (due t1) as [dt1|] eqn:Hd1; [|done].
      simpl. unfold bind. by rewrite (plan_one_dated today t1 dt1 w Hd1).
  - by rewrite (sort_tasks_raise _ _ _ Hsort).
Qed.


(** *** Running the pass twice *)

Lemma no_room_later t days c c' : later c c' → no_room t days c → no_room t days c'.
Proof. intros Hl Hn c'' d evs Hl'. apply Hn. by etrans. Qed.

Lemma no_room_nil t c : no_room t [] c.
Proof. intros c' d evs _ Hd. by apply elem_of_nil in Hd. Qed.

(** Days searched in vain stay full for as long as the calendar only grows. *)
Lemma try_days_unplaced t days : ∀ w,
  Steady S → (try_days t days w).1 = Ret false →
  no_room t days (remote (try_days t days w).2).
Proof.
  intros w HS. revert w. induction days as [|d rest IH]; intros w; simpl.
  - intros _. apply no_room_nil.
  - unfold bind at 1 2. unfold _find_free_slot, _busy_intervals_for_day, bind,
      list_events_between, ret. simpl.
    pose proof (later_list (remote w) (combine d 9 0) (combine d 18 0)) as Hl.
    destruct (events_list S (remote w) (combine d 9 0) (combine d 18 0))
      as [[evs|e] c1] eqn:Hlist; simpl in *; [|done].
    destruct (find_free_slot_in _ _ _ _) as [[s e]|] eqn:Hfind; simpl.
    + unfold create_event_summary, commit, note. simpl.
      by destruct (events_insert S c1 _) as [[eid|e'] c2].
    + set (w1 := {| db := db w; remote := c1; journal := journal w; calls := _ |}).
      intros Hres. specialize (IH w1 Hres).
      pose proof (try_days_spec t rest w1) as [Hl1 _]. simpl in Hl1.
      intros c' d' evs' Hl' [->|Hd']%elem_of_cons Hlist'.
      * eapply find_free_slot_in_none_mono; [| | |exact Hfind].
        -- apply busy_of_mono. eapply (steady_grows HS (remote w) c'); [|by rewrite Hlist|done].
           etrans; [exact Hl|]. by etrans.
        -- apply busy_of_sorted.
        -- apply busy_of_window. by eapply (steady_window HS).
      * by eapply IH.
Qed.

(** Where there is no room, [try_days] books nothing. *)
Lemma try_days_quiet t days : ∀ w,
  no_room t days (remote w) → (try_days t days w).1 ≠ Ret true.
Proof.
  induction days as [|d rest IH]; intros w Hn; simpl; [done|].
  unfold bind at 1 2. unfold _find_free_slot, _busy_intervals_for_day, bind,
    list_events_between, ret. simpl.
  pose proof (later_list (remote w) (combine d 9 0) (combine d 18 0)) as Hl.
  pose proof (Hn (remote w) d) as Hd.
  destruct (events_list S (remote w) (combine d 9 0) (combine d 18 0))
    as [[evs|e] c1] eqn:Hlist; simpl in *; [|done].
  rewrite (Hd evs); [|done|left|by rewrite Hlist].
  apply IH. simpl. eapply no_room_later; [exact Hl|].
  intros c' d' evs' Hl' Hd'. apply Hn; [done|by right].
Qed.

Lemma quiet_later today t c c' : later c c' → quiet today t c → quiet today t c'.
Proof. intros Hl Hq Hd. eapply no_room_later; [exact Hl|by apply Hq]. Qed.

Lemma for_tasks_later today l : ∀ w,
  later (remote w) (remote (for_tasks (plan_one today) l w).2).
Proof.
  induction l as [|t l IH]; intros w; simpl; [done|]. unfold bind.
  pose proof (plan_one_spec today t w) as [Hl _].
  destruct (plan_one today t w) as [[[]|e] w1]; simpl in *; [|done].
  etrans; [exact Hl|apply IH].
Qed.

Lemma for_tasks_raise today l : ∀ w e,
  Forall (λ t, due t = None) l →
  (for_tasks (plan_one today) l w).1 = Raise e → adapter_raised (remote w) e.
Proof.
  induction l as [|t l IH]; intros w e Hall; simpl; [done|].
  apply Forall_cons in Hall as [Ht Hall]. unfold bind.
  pose proof (plan_one_spec today t w) as [Hl Hcase].
  destruct (plan_one today t w) as [[[]|e1] w1]; simpl in *.
  - intros He. eapply adapter_raised_later; [exact Hl|]. by apply IH.
  - intros [= <-].
    destruct Hcase as [(? & ? & ? & ? & _)|[(? & _)|(e' & [= <-] & _ & _ & Hr)]];
      [done..|]. by apply Hr.
Qed.

(** An [Unplaced] entry means the task's days were searched in vain. *)
Lemma plan_one_unplaced today t w :
  Steady S → due t = None →
  journal (plan_one today t w).2 = journal w ++ [Unplaced (id t)] →
  no_room t (seqZ today 3) (remote (plan_one today t w).2).
Proof.
  intros HS Hdue. rewrite (plan_one_undated today t w Hdue). unfold bind.
  pose proof (try_days_unplaced t (seqZ today 3) w HS) as Hun.
  pose proof (try_days_spec t (seqZ today 3) w) as [_ Hs].
  destruct (try_days t (seqZ today 3) w) as [[[]|e] w0]; simpl in *.
  - destruct Hs as (s & e & eid & _ & ->). by intros [= ?]%app_inv_head.
  - intros _. by apply Hun.
  - destruct Hs as (_ & -> & _). intros Hj. apply (f_equal length) in Hj.
    rewrite length_app in Hj. simpl in Hj. lia.
Qed.

(** After a pass that returned, every task it went over is booked (its rows
    read 'planned') or quiet; and every row is an old row or a planned one. *)
Lemma for_tasks_settles today l : ∀ w,
  Steady S → (for_tasks (plan_one today) l w).1 = Ret tt →
  (∀ t, t ∈ l →
     (∀ r, r ∈ db (for_tasks (plan_one today) l w).2 → id r = id t → status r = "planned")
     ∨ quiet today t (remote (for_tasks (plan_one today) l w).2))
  ∧ (∀ r, r ∈ db (for_tasks (plan_one today) l w).2 → r ∈ db w ∨ status r = "planned").
Proof.
  intros w HS. revert w. induction l as [|t l IH]; intros w; simpl.
  - intros _. split; [|by left]. intros t Ht. by apply elem_of_nil in Ht.
  - unfold bind.
    pose proof (plan_one_spec today t w) as [Hl Hcase].
    pose proof (plan_one_unplaced today t w HS) as Hup.
    destruct (plan_one today t w) as [[[]|e] w1] eqn:Hone; simpl in *; [|done].
    intros Hres. destruct (IH w1 Hres) as [Hall Hrows].
    pose proof (for_tasks_later today l w1) as Hl1.
    destruct Hcase as [(s & e & eid & _ & Hdb & _)|[(_ & Hdb & Hj)|(? & ? & _)]]; [| |done].
    + split.
      * intros t' [->|Ht']%elem_of_cons; [left|by apply Hall].
        intros r Hr Hid. destruct (Hrows r Hr) as [Hr1|?]; [|done].
        rewrite Hdb in Hr1. by apply elem_of_update_row_inv in Hr1 as [->|[_ ?]].
      * intros r Hr. destruct (Hrows r Hr) as [Hr1|?]; [|by right].
        rewrite Hdb in Hr1. apply elem_of_update_row_inv in Hr1 as [->|[? _]];
          [by right|by left].
    + split.
      * intros t' [->|Ht']%elem_of_cons; [right|by apply Hall].
        intros Hdue. eapply no_room_later; [exact Hl1|]. by apply Hup.
      * intros r Hr. destruct (Hrows r Hr) as [Hr1|?]; [left|by right]. by rewrite <- Hdb.
Qed.


Lemma bookings_snoc_unplaced entries i :
  bookings (entries ++ [Unplaced i]) = bookings entries.
Proof. unfold bookings. rewrite filter_app. simpl. by rewrite app_nil_r. Qed.

(** Over quiet tasks the loop books nothing and rewrites no row. *)
Lemma for_tasks_quiet today l : ∀ w,
  (∀ t, t ∈ l → quiet today t (remote w)) →
  db (for_tasks (plan_one today) l w).2 = db w
  ∧ bookings (journal (for_tasks (plan_one today) l w).2) = bookings (journal w).
Proof.
  induction l as [|t l IH]; intros w Hq; simpl; [done|]. unfold bind.
  destruct (due t) as [dt|] eqn:Hdue.
  { by rewrite (plan_one_dated today t dt w Hdue). }
  rewrite (plan_one_undated today t w Hdue). unfold bind.
  assert (Hn : no_room t (seqZ today 3) (remote w)) by (apply Hq; [left|done]).
  pose proof (try_days_quiet t (seqZ today 3) w Hn) as Hno.
  pose proof (try_days_spec t (seqZ today 3) w) as [Hl Hs].
  destruct (try_days t (seqZ today 3) w) as [[[]|e] w0]; simpl in *.
  - done.
  - destruct Hs as [Hdb Hj]. unfold note. simpl.
    set (w1 := {| db := db w0; remote := remote w0; journal := journal w0 ++ _;
                  calls := _ |}).
    destruct (IH w1) as [Hdb' Hj'].
    { intros t' Ht'. simpl. eapply quiet_later; [exact Hl|]. apply Hq. by right. }
    split; [by rewrite Hdb'|]. rewrite Hj'. simpl. by rewrite bookings_snoc_unplaced, Hj.
  - destruct Hs as (-> & -> & _). done.
Qed.

(** Over quiet tasks the loop has the adapter create nothing. *)
Lemma for_tasks_quiet_created today l w :
  (∀ t, t ∈ l → quiet today t (remote w)) →
  created (new_calls w (for_tasks (plan_one today) l w).2) = [].
Proof.
  intros Hq. destruct (for_tasks_quiet today l w Hq) as [_ Hb].
  destruct (for_tasks_trace today l w) as (cs & js & Hc & Hj & Hcr & _).
  rewrite (new_calls_app _ _ _ Hc).
  rewrite Hj in Hb. unfold bookings in Hb. rewrite filter_app in Hb.
  rewrite <- (app_nil_r (filter _ (journal w))) in Hb at 2.
  apply app_inv_head in Hb.
  destruct (created cs) as [|[body eid] more] eqn:Hcs; [done|]. exfalso.
  destruct (Hcr body eid) as (t & _ & _ & Hin); [rewrite ?Hcs; left|].
  assert (Hin' : Booked (id t) (start_dt body) (end_dt body) eid
                 ∈ filter (λ en, is_booking en = true) js)
    by by apply list_elem_of_filter.
  rewrite Hb in Hin'. by apply elem_of_nil in Hin'.
Qed.

(** C7 (amended).  Running [plan_all_pending] twice in succession on the
    same table, with no new task and a calendar from which nothing is
    removed, and no call of the adapter raising during the first run: the
    second run has the adapter create no event, writes down no booking and
    changes no row, so no booked task's [calendar_event_id] changes. *)
Theorem second_pass_books_nothing today (w : World S) :
  Steady S →
  failures (new_calls w (plan_all_pending today w).2) = [] →
  db (plan_all_pending today (plan_all_pending today w).2).2
    = db (plan_all_pending today w).2
  ∧ bookings (journal (plan_all_pending today (plan_all_pending today w).2).2)
    = bookings (journal (plan_all_pending today w).2)
  ∧ created (new_calls (plan_all_pending today w).2
               (plan_all_pending today (plan_all_pending today w).2).2) = [].
Proof.
  intros HS Hclean.
  destruct (decide (Forall (λ t, due t = None) (pending (db w)))) as [Hund|Hdated].
  - destruct (sort_tasks_undated today _ Hund) as [order Hsort].
    pose proof (sort_tasks_perm _ _ _ Hsort) as Hperm.
    rewrite (plan_all_pending_run today w), Hsort in Hclean |- *.
    destruct (for_tasks_trace today order w) as (cs & _ & Hc & _ & _ & Hf).
    rewrite (new_calls_app _ _ _ Hc), Hf in Hclean by by rewrite Hperm.
    pose proof (for_tasks_settles today order w HS) as Hsettle.
    destruct (for_tasks (plan_one today) order w) as [[[]|e] w1]; simpl in *; [|done].
    destruct (Hsettle eq_refl) as [Hall Hrows].
    rewrite plan_all_pending_run.
    destruct (sort_tasks today (pending (db w1))) as [order2|e] eqn:Hsort2.
    2:{ simpl. unfold new_calls. by rewrite drop_all. }
    pose proof (sort_tasks_perm _ _ _ Hsort2) as Hperm2.
    assert (Hq : ∀ t, t ∈ order2 → quiet today t (remote w1)).
    { intros t Ht.
      rewrite Hperm2 in Ht. apply pending_elem in Ht as [Hst Ht].
      destruct (Hrows t Ht) as [Hold|?]; [|congruence].
      destruct (Hall t) as [Hplanned|?]; [|specialize (Hplanned t Ht eq_refl); congruence|done].
      rewrite Hperm. by apply pending_elem. }
    destruct (for_tasks_quiet today order2 w1 Hq) as [? ?].
    split; [done|]. split; [done|]. by apply for_tasks_quiet_created.
  - apply not_Forall_Exists in Hdated; [|apply _].
    apply Exists_exists in Hdated as (t & [Hst Ht]%pending_elem & Hdue).
    destruct (due t) as [dt|] eqn:Hd; [|done].
    rewrite (dated_task_stops_pass today w t dt Ht Hst Hd). simpl.
    rewrite (dated_task_stops_pass today w t dt Ht Hst Hd). simpl.
    split; [done|]. split; [done|]. unfold new_calls. by rewrite drop_all.
Qed.

End Pass.

(** ** The pass on a concrete calendar *)
Section Scenarios.
Import Py Server Desk.

Lemma desk_later_held c c' : @later service c c' → held c ⊆ held c'.
Proof.
  induction 1 as [c|c c1 c2 Hstep _ IH]; [done|].
  etrans; [|exact IH]. clear IH.
  destruct Hstep as [(a & b & ->)|(body & ->)]; simpl.
  - unfold desk_list. by destruct (outages c) as [|[] ?].
  - unfold desk_insert. destruct (outages c) as [|[] ?]; simpl; [|done|];
      intros ev Hev; apply elem_of_app; by left.
Qed.

Lemma desk_list_ret c a b evs :
  (desk_list c a b).1 = Ret evs → evs = filter (λ ev, in_window a b ev = true) (held c).
Proof. unfold desk_list. destruct (outages c) as [|[] ?]; simpl; congruence. Qed.

(** The list-backed calendar only grows, and lists by window. *)
Lemma desk_steady : Steady service.
Proof.
  split.
  - intros c a b evs ->%desk_list_ret. apply Forall_forall.
    intros ev [Hwin _]%list_elem_of_filter s Hs. unfold in_window in Hwin.
    rewrite Hs in Hwin. apply andb_prop in Hwin as [Hlt%bool_decide_eq_true _]. lia.
  - intros c c' a b evs evs' Hl ->%desk_list_ret ->%desk_list_ret ev.
    rewrite !list_elem_of_filter. intros [? ?]. split; [done|].
    by apply (desk_later_held c c' Hl).
Qed.

(** On the crowded calendar the task of priority 5 takes the one free hour,
    17:00 of day 101: the adapter is given that hour and answers 'evt3'. *)
Lemma booking_marks_task_planned_witness :
  NoDup (id <$> db (world two_undated crowded []))
  ∧ (body_for (task 2 "read" None 60 5) (combine 101 17 0) (combine 101 18 0), Some "evt3")
    ∈ created (new_calls (world two_undated crowded [])
                 (plan_all_pending 100 (world two_undated crowded [])).2)
  ∧ ∃ t0 t',
      t0 ∈ db (world two_undated crowded []) ∧ status t0 = "pending"
      ∧ body_for (task 2 "read" None 60 5) (combine 101 17 0) (combine 101 18 0)
        = body_for t0 (combine 101 17 0) (combine 101 18 0)
      ∧ t' ∈ db (plan_all_pending 100 (world two_undated crowded [])).2 ∧ id t' = id t0
      ∧ (∀ r, r ∈ db (plan_all_pending 100 (world two_undated crowded [])).2 →
              id r = id t0 → r = t')
      ∧ status t' = "planned" ∧ calendar_event_id t' = Some "evt3"
      ∧ planned_at t' = Some (combine 101 17 0) ∧ due t' = due t0.
Proof.
  assert (Hnd : NoDup (id <$> db (world two_undated crowded []))).
  { apply (bool_decide_unpack _). vm_compute. exact I. }
  assert (Hin : (body_for (task 2 "read" None 60 5) (combine 101 17 0) (combine 101 18 0),
                 Some "evt3")
                ∈ created (new_calls (world two_undated crowded [])
                             (plan_all_pending 100 (world two_undated crowded [])).2)).
  { vm_compute. left. }
  split; [exact Hnd|]. split; [exact Hin|].
  exact (booking_marks_task_planned 100 (world two_undated crowded [])
           (body_for (task 2 "read" None 60 5) (combine 101 17 0) (combine 101 18 0))
           (Some "evt3") Hnd Hin).
Defined.

(** C4, as stated, fails: the booked task reads 'planned', not 'scheduled',
    and its [due] is not the placed start. *)
Lemma booking_leaves_due_counterexample :
  new_entries (world two_undated crowded [])
    (plan_all_pending 100 (world two_undated crowded [])).2
  = [Booked 2 (combine 101 17 0) (combine 101 18 0) (Some "evt3"); Unplaced 1]
  ∧ ∃ t', t' ∈ db (plan_all_pending 100 (world two_undated crowded [])).2
          ∧ id t' = 2
          ∧ ¬ (status t' = "scheduled" ∧ calendar_event_id t' ≠ None
               ∧ due t' = Some (combine 101 17 0)).
Proof.
  split; [vm_compute; reflexivity|].
  exists (booked (task 2 "read" None 60 5) (combine 101 17 0) (Some "evt3")).
  split; [vm_compute; right; left|]. split; [reflexivity|].
  intros (Hst & _). vm_compute in Hst. discriminate.
Qed.


(** The pass over two tasks whose first insertion raises. *)
Lemma pass_stops_at_adapter_failure_witness :
  failures (new_calls insert_fails (plan_all_pending 100 insert_fails).2) = [ServiceError]
  ∧ ∃ order done rest,
    sort_tasks 100 (pending (db insert_fails)) = Ret order
    ∧ order = done ++ rest
    ∧ entry_task <$> new_entries insert_fails (plan_all_pending 100 insert_fails).2
      = id <$> done
    ∧ (failures (new_calls insert_fails (plan_all_pending 100 insert_fails).2) = [] →
         (plan_all_pending 100 insert_fails).1 = Ret tt ∧ rest = [])
    ∧ (∀ e, e ∈ failures (new_calls insert_fails (plan_all_pending 100 insert_fails).2) →
         (plan_all_pending 100 insert_fails).1 = Raise e ∧ rest ≠ []
         ∧ failures (new_calls insert_fails (plan_all_pending 100 insert_fails).2) = [e])
    ∧ (∀ t, t ∈ order →
         (∀ s e eid, Booked (id t) s e eid
                     ∉ new_entries insert_fails (plan_all_pending 100 insert_fails).2) →
         t ∈ db (plan_all_pending 100 insert_fails).2).
Proof.
  split; [vm_compute; reflexivity|].
  apply (pass_stops_at_adapter_failure 100 insert_fails).
  - apply (bool_decide_unpack _). vm_compute. exact I.
  - intros t Ht _. vm_compute in Ht.
    apply elem_of_cons in Ht as [->|Ht]; [reflexivity|].
    apply elem_of_cons in Ht as [->|Ht]; [reflexivity|].
    by apply elem_of_nil in Ht.
Defined.

(** C5, as stated, fails: the adapter's error leaves the pass, and the task
    after the one it struck is never tried, although the calendar is empty. *)
Lemma adapter_failure_aborts_pass_counterexample :
  (plan_all_pending 100 insert_fails).1 = Raise ServiceError
  ∧ new_entries insert_fails (plan_all_pending 100 insert_fails).2 = []
  ∧ db (plan_all_pending 100 insert_fails).2 = two_undated
  ∧ held (remote (plan_all_pending 100 insert_fails).2) = [].
Proof. vm_compute. done. Qed.

(** C6 at a failing input: one pending task with a [due], one without.  The
    sort compares a [datetime] key with a [date] key and raises; neither task
    is tried. *)
Theorem dated_and_undated_tasks_are_not_ordered :
  plan_all_pending 100
    (world [task 1 "report" (Some (combine 99 17 0)) 60 1; task 2 "read" None 60 5] [] [])
  = (Raise TypeError,
     world [task 1 "report" (Some (combine 99 17 0)) 60 1; task 2 "read" None 60 5] [] []).
Proof. vm_compute. reflexivity. Qed.

(** On the crowded calendar no call raises; the first run books one task
    and leaves the other; the second run searches again and books nothing. *)
Lemma second_pass_books_nothing_witness :
  failures (new_calls (world two_undated crowded [])
              (plan_all_pending 100 (world two_undated crowded [])).2) = []
  ∧ db (plan_all_pending 100 (plan_all_pending 100 (world two_undated crowded [])).2).2
    = db (plan_all_pending 100 (world two_undated crowded [])).2
  ∧ bookings (journal (plan_all_pending 100
                         (plan_all_pending 100 (world two_undated crowded [])).2).2)
    = bookings (journal (plan_all_pending 100 (world two_undated crowded [])).2)
  ∧ created (new_calls (plan_all_pending 100 (world two_undated crowded [])).2
               (plan_all_pending 100
                  (plan_all_pending 100 (world two_undated crowded [])).2).2) = [].
Proof.
  assert (Hclean : failures (new_calls (world two_undated crowded [])
              (plan_all_pending 100 (world two_undated crowded [])).2) = [])
    by (vm_compute; reflexivity).
  split; [exact Hclean|].
  exact (second_pass_books_nothing 100 (world two_undated crowded []) desk_steady Hclean).
Defined.

(** C7, as stated, fails: the first run is stopped by the one call that
    raises, with nothing booked, no row changed and nothing on the calendar;
    the second run, on the same table and the same calendar, books both
    tasks. *)
Lemma stopped_pass_is_made_up_counterexample :
  (plan_all_pending 100 insert_fails).1 = Raise ServiceError
  ∧ db (plan_all_pending 100 insert_fails).2 = db insert_fails
  ∧ held (remote (plan_all_pending 100 insert_fails).2) = held (remote insert_fails)
  ∧ bookings (journal (plan_all_pending 100 insert_fails).2) = []
  ∧ bookings (journal (plan_all_pending 100 (plan_all_pending 100 insert_fails).2).2)
    = [Booked 2 (combine 100 9 0) (combine 100 10 0) (Some "evt0");
       Booked 1 (combine 100 10 0) (combine 100 11 0) (Some "evt1")]
  ∧ created (new_calls (plan_all_pending 100 insert_fails).2
               (plan_all_pending 100 (plan_all_pending 100 insert_fails).2).2)
    = [(body_for (task 2 "read" None 60 5) (combine 100 9 0) (combine 100 10 0),
        Some "evt0");
       (body_for (task 1 "write" None 60 1) (combine 100 10 0) (combine 100 11 0),
        Some "evt1")].
Proof. vm_compute. done. Qed.

End Scenarios.

(** ** [backend/main.py]: buckets and the step-jump finder *)
Section BackendFacts.
Import Py Backend.

Lemma date_of_next_day now : date_of (now + usec_per_day) = date_of now + 1.
Proof. unfold date_of, usec_per_day. by rewrite <- (Z.div_add _ 1) by lia. Qed.

Lemma bucket_with_planDay now t v : bucket now (with_planDay t v) = bucket now t.
Proof. done. Qed.

Lemma simple_plan_snoc now objs refs r :
  simple_plan now objs (refs ++ [r])
  = alter (λ t, with_planDay t (bucket now t)) r (simple_plan now objs refs).
Proof. unfold simple_plan. by rewrite foldl_app. Qed.

(** Every task of [state.tasks] ends in the bucket of its own fields. *)
Lemma simple_plan_bucket now objs refs : ∀ r t,
  r ∈ refs → simple_plan now objs refs !! r = Some t → planDay t = bucket now t.
Proof.
  induction refs as [|r' refs IH] using rev_ind; intros r t Hr.
  - by apply elem_of_nil in Hr.
  - rewrite simple_plan_snoc. destruct (decide (r = r')) as [->|Hne].
    + rewrite list_lookup_alter_eq. by intros (t0 & _ & ->)%fmap_Some.
    + rewrite list_lookup_alter_ne by done.
      apply IH. apply elem_of_app in Hr as [?|Hr]; [done|].
      by apply list_elem_of_singleton in Hr.
Qed.

(** C8.  After [simple_plan], a task that needs clarification is in
    'unscheduled' whatever its due date; any other task is in 'today' exactly
    when its due date's calendar date is the current date, in 'tomorrow'
    exactly when it is the current date plus one day, and in 'unscheduled'
    exactly when its due date is any other date or absent. *)
Theorem simple_plan_buckets now objs refs r t :
  r ∈ refs → simple_plan now objs refs !! r = Some t →
  (needsClarification t = true → planDay t = "unscheduled")
  ∧ (needsClarification t = false →
       (planDay t = "today" ↔
          ∃ due, dueDate t = Some due ∧ date_of due = date_of now)
       ∧ (planDay t = "tomorrow" ↔
          ∃ due, dueDate t = Some due ∧ date_of due = date_of now + 1)
       ∧ (planDay t = "unscheduled" ↔
          ∀ due, dueDate t = Some due →
                 date_of due ≠ date_of now ∧ date_of due ≠ date_of now + 1)).
Proof.
  intros Hr Ht. rewrite (simple_plan_bucket now objs refs r t Hr Ht).
  unfold bucket. rewrite date_of_next_day. split.
  - by intros ->.
  - intros ->. destruct (dueDate t) as [due|].
    + repeat case_bool_decide; (split; [|split]); split;
        first [ done
              | by intros _; exists due
              | intros (d & [= <-] & ?); lia
              | intros _ d [= <-]; lia
              | intros Hall; destruct (Hall due eq_refl); lia ].
    + (split; [|split]); split; first [ done | by intros (d & ? & ?) ].
Qed.


(** A task due at 15:00 of the day [simple_plan] runs on. *)
Lemma simple_plan_buckets_witness :
  simple_plan (combine 100 8 0) [Board.bank_call] [0%nat] !! 0%nat
  = Some (with_planDay Board.bank_call "today")
  ∧ (needsClarification (with_planDay Board.bank_call "today") = true →
     planDay (with_planDay Board.bank_call "today") = "unscheduled")
  ∧ (needsClarification (with_planDay Board.bank_call "today") = false →
       (planDay (with_planDay Board.bank_call "today") = "today" ↔
          ∃ due, dueDate (with_planDay Board.bank_call "today") = Some due
                 ∧ date_of due = date_of (combine 100 8 0))
       ∧ (planDay (with_planDay Board.bank_call "today") = "tomorrow" ↔
          ∃ due, dueDate (with_planDay Board.bank_call "today") = Some due
                 ∧ date_of due = date_of (combine 100 8 0) + 1)
       ∧ (planDay (with_planDay Board.bank_call "today") = "unscheduled" ↔
          ∀ due, dueDate (with_planDay Board.bank_call "today") = Some due →
                 date_of due ≠ date_of (combine 100 8 0)
                 ∧ date_of due ≠ date_of (combine 100 8 0) + 1)).
Proof.
  split; [vm_compute; reflexivity|].
  apply (simple_plan_buckets (combine 100 8 0) [Board.bank_call] [0%nat] 0%nat
           (with_planDay Board.bank_call "today")).
  - apply list_elem_of_here.
  - vm_compute. reflexivity.
Defined.

(** The scan goes on only between 09:00 and 18:00 of the day it starts on. *)
Lemma find_free_slot_before_18 {G : GoogleCalendar} (w : World G) start d :
  hour_of start < 18 → ∃ found, (find_free_slot start d w).1 = Ret found.
Proof.
  intros Hh. unfold find_free_slot. destruct (cal_service w); [|by eexists].
  unfold adjust_start. case_bool_decide; [by eexists|].
  rewrite bool_decide_eq_false_2 by lia. by eexists.
Qed.

(** When the free/busy query raises, the answer is the adjusted start. *)
Lemma find_free_slot_query_raises {G : GoogleCalendar} (w : World G) c start start' d e :
  cal_service w = Some c → adjust_start start = Ret start' →
  (freebusy_query G c start' (start' + 3 * usec_per_day)).1 = Raise e →
  (find_free_slot start d w).1 = Ret start'.
Proof.
  intros Hc Ha Hq. unfold find_free_slot. rewrite Hc, Ha. simpl. by rewrite Hq.
Qed.

(** C10.  Asked for a start at or after 18:00, with the calendar client in
    place, [GoogleServices.find_free_slot] raises [TypeError] before it
    reaches its [try]: it does signal failure. *)
Theorem find_free_slot_late_start_raises {G : GoogleCalendar} (w : World G) c start d :
  cal_service w = Some c → 18 ≤ hour_of start →
  find_free_slot start d w = (Raise TypeError, w).
Proof.
  intros Hc Hh. unfold find_free_slot. rewrite Hc. unfold adjust_start.
  rewrite bool_decide_eq_false_2 by lia. by rewrite bool_decide_eq_true_2.
Qed.

(** A request for 18:30. *)
Lemma find_free_slot_late_start_raises_witness :
  18 ≤ hour_of (combine 100 18 30)
  ∧ find_free_slot (combine 100 18 30) 60 (Board.process [] [] [])
    = (Raise TypeError, Board.process [] [] []).
Proof.
  split; [vm_compute; congruence|].
  apply (find_free_slot_late_start_raises (Board.process [] [] [])
           {| Board.taken := []; Board.down := false |} (combine 100 18 30) 60 eq_refl).
  vm_compute. congruence.
Defined.

(** The scan gives up after its 96 rounds and answers the requested start,
    which lies inside the first meeting. *)
Lemma find_free_slot_fallback_overlaps :
  (find_free_slot (combine 100 9 0) 5 (Board.process [] [] (Board.back_to_back 100))).1
  = Ret (combine 100 9 0)
  ∧ head (Board.back_to_back 100) = Some (combine 100 9 0, combine 100 9 5).
Proof. vm_compute. done. Qed.

(** C9.  The gap scan of [_find_free_slot] and the step-jump scan of
    [GoogleServices.find_free_slot] are not equivalent: with one meeting from
    09:00 to 09:02, asked for 30 minutes from 09:00, the first starts the
    slot at 09:02 and the second at 09:05. *)
Theorem slot_finders_disagree :
  ∃ (busy : list (Z * Z)) (d start duration s_gap e_gap s_jump : Z),
    start = (Server._day_bounds d).1
    ∧ (Server._find_free_slot d duration
         (Desk.world []
            ((λ b : Z * Z, {| Server.ev_start := Some b.1; Server.ev_end := Some b.2 |})
             <$> busy) [])).1 = Ret (Some (s_gap, e_gap))
    ∧ (find_free_slot start duration (Board.process [] [] busy)).1 = Ret s_jump
    ∧ s_gap ≠ s_jump.
Proof.
  exists [(combine 100 9 0, combine 100 9 2)], 100, (combine 100 9 0), 30,
    (combine 100 9 2), (combine 100 9 32), (combine 100 9 5).
  vm_compute. repeat split; congruence.
Qed.

End BackendFacts.

(** ** The flows of [backend/main.py] and the tasks they book *)
Section BackendFlows.
Import Py Backend.
Context {G : GoogleCalendar}.
Implicit Types (w : World G) (r : nat).

Lemma keeps_refl P w : keeps P w w.
Proof. split; [done|]. exists []. by rewrite app_nil_r. Qed.

Lemma keeps_trans P w1 w2 w3 : keeps P w1 w2 → keeps P w2 w3 → keeps P w1 w3.
Proof.
  intros [Hf1 (a1 & Hi1 & Ha1)] [Hf2 (a2 & Hi2 & Ha2)]. split; [congruence|].
  exists (a1 ++ a2). split; [by rewrite Hi2, Hi1, app_assoc|]. by apply Forall_app.
Qed.

Lemma keeps_mono (P Q : nat → Prop) w w' :
  (∀ r, P r → Q r) → keeps P w w' → keeps Q w w'.
Proof.
  intros Hsub [Hf (a & Hi & Ha)]. split; [done|]. exists a. split; [done|].
  eapply Forall_impl; [exact Ha|]. intros ins ?. by apply Hsub.
Qed.

Lemma flags_alter (f : Task → Task) r (objs : list Task) :
  (∀ t, needsClarification (f t) = needsClarification t) →
  needsClarification <$> alter f r objs = needsClarification <$> objs.
Proof.
  intros Hf. apply list_eq. intros i. rewrite !list_lookup_fmap.
  destruct (decide (r = i)) as [->|Hne].
  - rewrite list_lookup_alter_eq. destruct (objs !! i); simpl; [|done]. by rewrite Hf.
  - by rewrite list_lookup_alter_ne.
Qed.

Lemma update_keeps r (f : Task → Task) P w :
  (∀ t, needsClarification (f t) = needsClarification t) →
  keeps P w (update r f w).2.
Proof.
  intros Hf. split; [by apply flags_alter|]. exists []. simpl. by rewrite app_nil_r.
Qed.

Lemma find_free_slot_keeps start d P w : keeps P w (find_free_slot start d w).2.
Proof.
  unfold find_free_slot. destruct (cal_service w); [|apply keeps_refl].
  destruct (adjust_start start); [|apply keeps_refl].
  split; [done|]. exists []. simpl. by rewrite app_nil_r.
Qed.

Lemma create_event_keeps r name s e text w :
  keeps (eq r) w (create_event r name s e text w).2.
Proof.
  unfold create_event. destruct (cal_service w) as [c|]; [|apply keeps_refl].
  destruct (events_insert G c _) as [[eid|err] c']; simpl.
  - split; [done|]. eexists. split; [done|]. by repeat constructor.
  - split; [done|]. exists []. simpl. by rewrite app_nil_r.
Qed.


(** The tail shared by both [try] bodies: insert, then write the two
    fields. *)
Lemma book_keeps r name s e text w :
  keeps (eq r) w
    (bind (create_event r name s e text)
       (λ event_id, bind (update r (λ t, with_calendarEventId t event_id))
                      (λ _, update r (λ t, with_dueDate t (Some s)))) w).2.
Proof.
  unfold bind at 1. pose proof (create_event_keeps r name s e text w) as Hc.
  destruct (create_event r name s e text w) as [[eid|err] w1]; simpl in *; [|done].
  eapply keeps_trans; [exact Hc|]. unfold bind. simpl.
  eapply keeps_trans; [by apply (update_keeps r (λ t, with_calendarEventId t eid))|].
  by apply (update_keeps r (λ t, with_dueDate t (Some s))).
Qed.

(** The end time is the start plus the duration, or the body stops there. *)
Lemma bind_add_minutes {A} s m (k : Z → B G A) w :
  bind (lift (add_minutes s m)) k w
  = if bool_decide (datetime_min ≤ s + minutes m ≤ datetime_max)
    then k (s + minutes m) w
    else (Raise OverflowError, w).
Proof. unfold bind, lift, add_minutes. by case_bool_decide. Qed.

Lemma schedule_auto_keeps r w : keeps (eq r) w (schedule_auto r w).2.
Proof.
  unfold schedule_auto, bind at 1, get. simpl.
  destruct (objects w !! r) as [task|]; [|apply keeps_refl].
  destruct (dueDate task) as [start|]; [|apply keeps_refl].
  unfold bind at 1.
  pose proof (find_free_slot_keeps start (default 60 (duration task)) (eq r) w) as Hf.
  destruct (find_free_slot start _ w) as [[final|err] w1]; simpl in *; [|done].
  eapply keeps_trans; [exact Hf|]. rewrite bind_add_minutes.
  case_bool_decide; [apply book_keeps|apply keeps_refl].
Qed.

Lemma schedule_voice_keeps now r w : keeps (eq r) w (schedule_voice now r w).2.
Proof.
  unfold schedule_voice, bind at 1, get. simpl.
  destruct (objects w !! r) as [task|]; [|apply keeps_refl].
  unfold bind at 1.
  assert (Hs : keeps (eq r) w
            ((match dueDate task with
              | Some due => ret due
              | None => find_free_slot now (default 60 (duration task))
              end) w).2).
  { destruct (dueDate task); [apply keeps_refl|apply find_free_slot_keeps]. }
  destruct ((match dueDate task with Some due => ret due | None => _ end) w)
    as [[start|err] w1]; simpl in *; [|done].
  eapply keeps_trans; [exact Hs|]. unfold bind at 1.
  pose proof (find_free_slot_keeps start (default 60 (duration task)) (eq r) w1) as Hf.
  destruct (find_free_slot start _ w1) as [[final|err] w2]; simpl in *; [|done].
  eapply keeps_trans; [exact Hf|]. rewrite bind_add_minutes.
  case_bool_decide; [apply book_keeps|apply keeps_refl].
Qed.

Lemma attempt_keeps P (body : B G unit) w :
  keeps P w (body w).2 → keeps P w (attempt body w).2.
Proof. unfold attempt. by destruct (body w) as [[]]. Qed.

Lemma for_each_keeps {A} (body : A → B G unit) (l : list A) P : ∀ w,
  (∀ x w, x ∈ l → keeps P w (body x w).2) →
  keeps P w (for_each body l w).2.
Proof.
  induction l as [|x l IH]; intros w Hbody; simpl; [apply keeps_refl|].
  unfold bind. pose proof (Hbody x w ltac:(left)) as Hx.
  destruct (body x w) as [[[]|err] w1]; simpl in *; [|done].
  eapply keeps_trans; [exact Hx|]. apply IH. intros y w' Hy. apply Hbody. by right.
Qed.

Lemma for_each_attempt_keeps (body : nat → B G unit) (l : list nat) w :
  (∀ r w, keeps (eq r) w (body r w).2) →
  keeps (.∈ l) w (for_each (λ r, attempt (body r)) l w).2.
Proof.
  intros Hbody. apply for_each_keeps. intros r w' Hr. apply attempt_keeps.
  eapply keeps_mono; [|apply Hbody]. by intros ? <-.
Qed.

Lemma ask_deadlines_keeps P refs : ∀ answers w,
  keeps P w (ask_deadlines refs answers w).2.
Proof.
  induction refs as [|r refs IH]; intros answers w; simpl; [apply keeps_refl|].
  unfold bind.
  destruct answers as [|[ai|] answers]; simpl; try apply IH.
  eapply keeps_trans; [|apply IH].
  by apply (update_keeps r (λ t, with_dueDate t (Some ai))).
Qed.

Lemma add_gmail_task_keeps P r w : keeps P w (add_gmail_task r w).2.
Proof.
  unfold add_gmail_task. destruct (objects w !! r) as [task|]; [|apply keeps_refl].
  destruct (title_known _ _ _); [apply keeps_refl|].
  split; [done|]. exists []. simpl. by rewrite app_nil_r.
Qed.

Lemma append_task_keeps P r w : keeps P w (append_task r w).2.
Proof. split; [done|]. exists []. simpl. by rewrite app_nil_r. Qed.

Lemma simple_plan_flags now objs refs :
  needsClarification <$> simple_plan now objs refs = needsClarification <$> objs.
Proof.
  induction refs as [|r refs IH] using rev_ind; [done|].
  rewrite simple_plan_snoc, <- IH. by apply flags_alter.
Qed.

Lemma replan_keeps P now w : keeps P w (replan now w).2.
Proof.
  split; [apply simple_plan_flags|]. exists []. simpl. by rewrite app_nil_r.
Qed.

(** [alloc_all] answers the addresses past the old objects, appends the new
    objects in order, and is never an error. *)
Lemma alloc_all_spec ts : ∀ w,
  (alloc_all ts w).1 = Ret (seq (length (objects w)) (length ts))
  ∧ objects (alloc_all ts w).2 = objects w ++ ts
  ∧ state_tasks (alloc_all ts w).2 = state_tasks w
  ∧ inserted (alloc_all ts w).2 = inserted w.
Proof.
  induction ts as [|t ts IH]; intros w; simpl.
  - by rewrite app_nil_r.
  - unfold bind, alloc, ret. simpl.
    set (w1 := {| objects := objects w ++ [t]; state_tasks := _;
                  cal_service := _; inserted := _ |}).
    destruct (IH w1) as (Hr & Ho & Hs & Hi).
    destruct (alloc_all ts w1) as [[rs|err] w2]; simpl in *; [|done].
    injection Hr as ->. rewrite length_app. simpl.
    replace (length (objects w) + 1)%nat with (S (length (objects w))) by lia.
    by rewrite Ho, <- app_assoc.
Qed.


Lemma parse_gmail_tasks_ready items :
  Forall (λ t, needsClarification t = false ∧ isExternal t = true) (parse_gmail_tasks items).
Proof.
  unfold parse_gmail_tasks. apply Forall_fmap. apply Forall_forall. by intros item _.
Qed.

Lemma wants_deadline_ready w r :
  wants_deadline (objects w) r = true → flags w !! r = Some false.
Proof.
  unfold wants_deadline, flags. rewrite list_lookup_fmap.
  destruct (objects w !! r) as [t|]; simpl; [|done].
  intros [_ Hn%negb_true_iff]%andb_prop. by rewrite Hn.
Qed.

Lemma is_ready_ready w r : is_ready (objects w) r = true → flags w !! r = Some false.
Proof.
  unfold is_ready, flags. rewrite list_lookup_fmap.
  destruct (objects w !! r) as [t|]; simpl; [|done].
  intros Hn%negb_true_iff. by rewrite Hn.
Qed.

(** The objects [alloc_all] made out of tasks that need no clarification. *)
Lemma alloc_all_ready ts w r :
  Forall (λ t, needsClarification t = false) ts →
  r ∈ seq (length (objects w)) (length ts) →
  flags (alloc_all ts w).2 !! r = Some false.
Proof.
  intros Hts Hr. destruct (alloc_all_spec ts w) as (_ & Ho & _).
  unfold flags. rewrite Ho, list_lookup_fmap.
  apply elem_of_seq in Hr as [Hlo Hhi].
  rewrite lookup_app_r by lia.
  destruct (lookup_lt_is_Some_2 ts (r - length (objects w))) as [t Ht]; [lia|].
  rewrite Ht. simpl. f_equal.
  rewrite Forall_forall in Hts. apply Hts. by eapply list_elem_of_lookup_2.
Qed.

(** [run_full_sync] changes no flag, and every insertion it makes is for an
    object whose flag was off once the Gmail tasks were made. *)
Lemma run_full_sync_keeps items answers now w :
  keeps (λ r, flags (alloc_all (parse_gmail_tasks items) w).2 !! r = Some false)
    (alloc_all (parse_gmail_tasks items) w).2
    (run_full_sync items answers now w).2.
Proof.
  unfold run_full_sync. unfold bind at 1.
  destruct (alloc_all_spec (parse_gmail_tasks items) w) as (Hrefs & Hobj & _ & _).
  pose proof (alloc_all_ready (parse_gmail_tasks items) w) as Hnew.
  destruct (alloc_all (parse_gmail_tasks items) w) as [[refs|err] w1];
    simpl in *; [|apply keeps_refl].
  injection Hrefs as ->.
  set (P := λ r, flags w1 !! r = Some false).
  unfold bind at 1.
  pose proof (for_each_keeps add_gmail_task
                (seq (length (objects w)) (length (parse_gmail_tasks items))) P w1
                (λ r w' _, add_gmail_task_keeps P r w')) as H2.
  destruct (for_each add_gmail_task _ w1) as [[[]|err] w2]; simpl in *; [|done].
  eapply keeps_trans; [exact H2|]. destruct H2 as [Hf2 _].
  unfold bind at 1. simpl.
  set (plan := filter (λ r, wants_deadline (objects w2) r = true) (state_tasks w2)).
  unfold bind at 1.
  pose proof (ask_deadlines_keeps P plan answers w2) as H4.
  destruct (ask_deadlines plan answers w2) as [[[]|err] w3]; simpl in *; [|done].
  eapply keeps_trans; [exact H4|]. destruct H4 as [Hf4 _].
  unfold bind at 1. simpl. unfold bind at 1. simpl. unfold bind at 1.
  match goal with |- context [for_each _ ?l w3] => set (chosen := l) end.
  pose proof (for_each_attempt_keeps schedule_auto chosen w3 schedule_auto_keeps) as H7.
  assert (Hchosen : ∀ r, r ∈ chosen → P r).
  { intros r [Hr|Hr]%elem_of_app.
    - apply list_elem_of_filter in Hr as [_ Hr]. apply list_elem_of_filter in Hr as [Hr _].
      unfold P. rewrite <- Hf2. by apply wants_deadline_ready.
    - apply list_elem_of_filter in Hr as [_ Hr]. apply Hnew; [|done].
      eapply Forall_impl; [apply parse_gmail_tasks_ready|]. by intros t [? _]. }
  apply (keeps_mono _ P _ _ Hchosen) in H7.
  destruct (for_each _ chosen w3) as [[[]|err] w4]; simpl in *; [|done].
  eapply keeps_trans; [exact H7|]. apply replan_keeps.
Qed.

(** Likewise for [run_agent_flow], from the world in which the new tasks
    have been made. *)
Lemma run_agent_flow_keeps new_tasks now w :
  keeps (λ r, flags (alloc_all new_tasks w).2 !! r = Some false)
    (match new_tasks with [] => w | _ => (alloc_all new_tasks w).2 end)
    (run_agent_flow new_tasks now w).2.
Proof.
  unfold run_agent_flow. destruct new_tasks as [|t0 ts]; [apply keeps_refl|].
  set (new_tasks := t0 :: ts). unfold bind at 1.
  destruct (alloc_all new_tasks w) as [[refs|err] w1]; simpl; [|apply keeps_refl].
  set (P := λ r, flags w1 !! r = Some false).
  unfold bind at 1.
  pose proof (for_each_keeps append_task refs P w1
                (λ r w' _, append_task_keeps P r w')) as H2.
  destruct (for_each append_task refs w1) as [[[]|err] w2]; simpl in *; [|done].
  eapply keeps_trans; [exact H2|]. destruct H2 as [Hf2 _].
  unfold bind at 1. simpl. unfold bind at 1.
  set (chosen := filter (λ r, is_ready (objects w2) r = true) refs).
  pose proof (for_each_attempt_keeps (schedule_voice now) chosen w2
                (schedule_voice_keeps now)) as H4.
  assert (Hchosen : ∀ r, r ∈ chosen → P r).
  { intros r [Hr _]%list_elem_of_filter. unfold P. rewrite <- Hf2.
    by apply is_ready_ready. }
  apply (keeps_mono _ P _ _ Hchosen) in H4.
  destruct (for_each _ chosen w2) as [[[]|err] w3]; simpl in *; [|done].
  eapply keeps_trans; [exact H4|]. apply replan_keeps.
Qed.


Lemma flags_lookup w r b :
  flags w !! r = Some b ↔ ∃ t, objects w !! r = Some t ∧ needsClarification t = b.
Proof.
  unfold flags. rewrite list_lookup_fmap. split.
  - intros (t & ? & ->)%fmap_Some. by exists t.
  - intros (t & -> & <-). done.
Qed.

Lemma keeps_new_insertions P w w1 w' ins :
  inserted w1 = inserted w → keeps P w1 w' →
  ins ∈ new_insertions w w' → P (for_task ins).
Proof.
  intros Hi [_ (added & Hadd & Hall)]. unfold new_insertions.
  rewrite Hadd, Hi, drop_app_length. rewrite Forall_forall in Hall. apply Hall.
Qed.

Lemma alloc_all_old_flags ts w r b :
  flags w !! r = Some b → flags (alloc_all ts w).2 !! r = Some b.
Proof.
  destruct (alloc_all_spec ts w) as (_ & Ho & _). unfold flags. rewrite Ho, fmap_app.
  apply lookup_app_l_Some.
Qed.

End BackendFlows.

(** ** The flows on a concrete calendar *)
Section BackendScenarios.
Import Py Backend.

(** C3, as stated, fails: [run_full_sync] books the Gmail task, which
    [parse_gmail_tasks] made with [isExternal = True]. *)
Lemma gmail_task_is_booked_counterexample :
  new_insertions (Board.process [] [] [])
    (run_full_sync [Board.yc_mail] [] (combine 100 8 0) (Board.process [] [] [])).2
  = [{| for_task := 0; at_start := combine 100 10 0; at_end := combine 100 12 0 |}]
  ∧ ∃ t, objects (run_full_sync [Board.yc_mail] [] (combine 100 8 0)
                    (Board.process [] [] [])).2 !! 0%nat = Some t
         ∧ isExternal t = true
         ∧ calendarEventId t = Some "evt0"
         ∧ planDay t = "today".
Proof. split; [vm_compute; reflexivity|]. eexists. vm_compute. done. Qed.

End BackendScenarios.

(** ** More of [scheduler_engine.py] *)
Section EngineFacts.
Import Py Server.
Context {S : CalendarService}.
Implicit Types (w : World S) (t : Task) (c : calendar S).

Lemma find_free_slot_run d dur w :
  _find_free_slot d dur w =
    (match (events_list S (remote w) (combine d 9 0) (combine d 18 0)).1 with
     | Ret evs => Ret (find_free_slot_in (combine d 9 0) (combine d 18 0) (busy_of evs) dur)
     | Raise e => Raise e
     end,
     {| db := db w;
        remote := (events_list S (remote w) (combine d 9 0) (combine d 18 0)).2;
        journal := journal w;
        calls := calls w
          ++ [ListCall (combine d 9 0) (combine d 18 0)
                (events_list S (remote w) (combine d 9 0) (combine d 18 0)).1] |}).
Proof.
  unfold _find_free_slot, _busy_intervals_for_day, bind, list_events_between, ret. simpl.
  by destruct (events_list S (remote w) (combine d 9 0) (combine d 18 0)) as [[evs|e] c1].
Qed.

Lemma find_free_slot_in_hours d dur w :
  listing_bounded S →
  ∀ s e, (_find_free_slot d dur w).1 = Ret (Some (s, e)) →
    e = s + minutes (clamp dur) ∧ combine d 9 0 ≤ s ∧ e ≤ combine d 18 0.
Proof.
  intros Hb s e. rewrite find_free_slot_run.
  destruct (events_list S (remote w) (combine d 9 0) (combine d 18 0)) as [[evs|?] c1] eqn:Hlist;
    simpl; [|done].
  intros [= Hfind]. rewrite find_free_slot_in_clamp in Hfind.
  apply find_free_slot_in_sound in Hfind as [-> (? & ? & _)];
    [done|apply clamp_pos|apply busy_of_sorted|].
  apply busy_of_window. apply (Hb (remote w) (combine d 9 0) (combine d 18 0)).
  by rewrite Hlist.
Qed.

(** X1.  [_find_free_slot] does not merge the day's events, which may overlap
    one another and run past the working hours.  All the same, when the
    listing answers only events that start by 18:00, a slot it returns has
    the clamped duration, lies between 09:00 and 18:00 of the day, and
    touches no listed event that has a start and an end. *)
Theorem find_free_slot_clear_of_events d dur w evs s e :
  (events_list S (remote w) (combine d 9 0) (combine d 18 0)).1 = Ret evs →
  Forall (λ ev, ∀ bs, ev_start ev = Some bs → bs ≤ combine d 18 0) evs →
  (_find_free_slot d dur w).1 = Ret (Some (s, e)) →
  e = s + minutes (clamp dur) ∧ s < e
  ∧ combine d 9 0 ≤ s ∧ e ≤ combine d 18 0
  ∧ ∀ ev bs be, ev ∈ evs → ev_start ev = Some bs → ev_end ev = Some be →
                e ≤ bs ∨ be ≤ s.
Proof.
  intros Hlist Hwin. rewrite find_free_slot_run, Hlist. simpl. intros [= Hfind].
  rewrite find_free_slot_in_clamp in Hfind.
  pose proof (clamp_pos dur) as Hd. pose proof (minutes_pos _ Hd) as Hm.
  apply find_free_slot_in_sound in Hfind as [-> (? & ? & Hclear)];
    [|done|apply busy_of_sorted|by apply busy_of_window].
  repeat split; [lia|done..|].
  intros ev bs be Hev Hs He. unfold clear_of in Hclear. rewrite Forall_forall in Hclear.
  apply (Hclear (bs, be)). apply elem_of_busy_of. exists ev. split; [done|].
  unfold event_interval. by rewrite Hs, He.
Qed.

(** *** What a pass does to the table *)

Lemma update_row_step rows t s eid :
  Forall2 (λ r r', r' = r ∨ (id r = id t ∧ r' = booked t s eid))
    rows (update_row rows (booked t s eid)).
Proof.
  unfold update_row. apply Forall2_fmap_r, Forall_Forall2_diag, Forall_forall.
  intros r _. simpl. case_bool_decide; [right|left]; done.
Qed.

Lemma for_tasks_rows today l : ∀ w,
  NoDup (id <$> l) →
  Forall2 (λ r r', r' = r ∨ ∃ t s eid, t ∈ l ∧ id t = id r ∧ r' = booked t s eid)
    (db w) (db (for_tasks (plan_one today) l w).2).
Proof.
  induction l as [|t l IH]; intros w Hnd; simpl.
  - apply Forall_Forall2_diag, Forall_forall. by left.
  - apply NoDup_cons in Hnd as [Hfresh Hnd]. unfold bind.
    pose proof (plan_one_spec today t w) as [_ Hcase].
    destruct (plan_one today t w) as [r1 w1]; simpl in *.
    destruct Hcase as [(s & e & eid & -> & Hdb & _)|[(-> & Hdb & _)|(e & -> & Hdb & _)]].
    + specialize (IH w1 Hnd). rewrite Hdb in IH.
      eapply Forall2_trans; [|apply (update_row_step (db w) t s eid)|exact IH].
      simpl. intros r r1 r2 [->|[Hid ->]] [->|(t' & s' & eid' & Ht' & Hid' & ->)].
      * by left.
      * right. exists t', s', eid'. split; [by right|done].
      * right. exists t, s, eid. split; [left|done].
      * exfalso. apply Hfresh. simpl in Hid'. rewrite <- Hid'.
        by apply list_elem_of_fmap_2.
    + specialize (IH w1 Hnd). rewrite Hdb in IH.
      eapply Forall2_impl; [exact IH|]. simpl.
      intros r r' [->|(t' & s' & eid' & Ht' & Hid' & ->)]; [by left|].
      right. exists t', s', eid'. split; [by right|done].
    + simpl. rewrite Hdb. apply Forall_Forall2_diag, Forall_forall. by left.
Qed.

Lemma plan_all_pending_rows today w :
  NoDup (id <$> db w) →
  Forall2 row_step (db w) (db (plan_all_pending today w).2).
Proof.
  intros Hnd. rewrite plan_all_pending_run.
  destruct (sort_tasks today (pending (db w))) as [order|e] eqn:Hsort.
  - pose proof (sort_tasks_perm _ _ _ Hsort) as Hperm.
    assert (Hnd' : NoDup (id <$> order)).
    { rewrite Hperm. by apply pending_ids_nodup. }
    pose proof (for_tasks_rows today order w Hnd') as Hrows.
    apply Forall2_same_length_lookup in Hrows as [Hlen Hrows].
    apply Forall2_same_length_lookup. split; [done|].
    intros k r r' Hr Hr'. destruct (Hrows k r r' Hr Hr') as [->|(t & s & eid & Ht & Hid & ->)];
      [by left|right].
    rewrite Hperm in Ht. apply pending_elem in Ht as [Hst Ht].
    assert (t = r) as ->.
    { apply (nodup_ids_same_row (db w)); [done..| |done]. by eapply list_elem_of_lookup_2. }
    split; [done|]. by exists s, eid.
  - simpl. apply Forall_Forall2_diag, Forall_forall. by left.
Qed.

(** X2.  Whatever a pass of [plan_all_pending] comes to (a return or an
    exception), the table afterwards has the same rows in the same order, and
    each row is as it was or was pending and now carries a booking: only
    [status], [planned_at] and [calendar_event_id] differ.  Rows that were
    not pending are never touched; [id] is the table's primary key. *)
Theorem pass_touches_only_pending_rows today w :
  NoDup (id <$> db w) →
  Forall2 row_step (db w) (db (plan_all_pending today w).2).
Proof. apply plan_all_pending_rows. Qed.

Lemma row_step_counts rows rows' :
  Forall2 row_step rows rows' →
  (planned_today rows' + pending_count rows' = planned_today rows + pending_count rows)%nat
  ∧ (pending_count rows' ≤ pending_count rows)%nat.
Proof.
  unfold planned_today, pending_count.
  induction 1 as [|r r' rows rows' Hstep _ IH]; [done|].
  rewrite !filter_cons. destruct Hstep as [->|(Hst & s & eid & ->)].
  - repeat case_decide; simpl; lia.
  - repeat case_decide; simpl in *; first [lia | congruence].
Qed.

(** X20.  The two counts of the daily digest move together: whatever a pass
    of [plan_all_pending] comes to, the number of planned tasks plus the
    number of pending tasks is what it was before the pass, and the number
    of pending tasks has not grown. *)
Theorem pass_moves_pending_to_planned today w :
  NoDup (id <$> db w) →
  (planned_today (db (plan_all_pending today w).2)
   + pending_count (db (plan_all_pending today w).2)
   = planned_today (db w) + pending_count (db w))%nat
  ∧ (pending_count (db (plan_all_pending today w).2) ≤ pending_count (db w))%nat.
Proof. intros Hnd. by apply row_step_counts, plan_all_pending_rows. Qed.

(** X21.  [_find_free_slot] answers [None] only when nothing fits, and what
    it answers is the earliest fit: whenever the listing is answered and
    some start leaves the (clamped) duration between 09:00 and 18:00 clear of
    every listed event that has a start and an end, it returns a slot of that
    duration that starts no later.  The events may overlap one another and
    lie outside the day. *)
Theorem find_free_slot_takes_earliest_fit d dur w evs (start : Z) :
  (events_list S (remote w) (combine d 9 0) (combine d 18 0)).1 = Ret evs →
  combine d 9 0 ≤ start → start + minutes (clamp dur) ≤ combine d 18 0 →
  (∀ ev bs be, ev ∈ evs → ev_start ev = Some bs → ev_end ev = Some be →
               start + minutes (clamp dur) ≤ bs ∨ be ≤ start) →
  ∃ s, (_find_free_slot d dur w).1 = Ret (Some (s, s + minutes (clamp dur))) ∧ s ≤ start.
Proof.
  intros Hlist Hlo Hhi Hclear. rewrite find_free_slot_run, Hlist. simpl.
  rewrite find_free_slot_in_clamp.
  destruct (find_free_slot_in_complete (combine d 9 0) (combine d 18 0) (busy_of evs)
              (clamp dur) start (clamp_pos dur)) as (s & -> & Hs).
  - split; [done|]. split; [done|]. apply Forall_forall. intros [bs be] Hb.
    apply elem_of_busy_of in Hb as (ev & Hev & Hiv). unfold event_interval in Hiv.
    destruct (ev_start ev) as [bs'|] eqn:Hs; [|done].
    destruct (ev_end ev) as [be'|] eqn:He; [|done]. injection Hiv as -> ->.
    simpl. by eapply Hclear.
  - by exists s.
Qed.

(** *** The bookings of a pass *)

Lemma try_days_inserts t days : ∀ w,
  listing_bounded S →
  ∃ cs,
    calls (try_days t days w).2 = calls w ++ cs
    ∧ Forall (λ call, ∀ body answer, call = InsertCall body answer →
         body = body_for t (start_dt body) (end_dt body)
         ∧ end_dt body = start_dt body + minutes (clamp (duration_or_60 t))
         ∧ ∃ d, d ∈ days ∧ combine d 9 0 ≤ start_dt body
                ∧ end_dt body ≤ combine d 18 0) cs.
Proof.
  intros w Hb. revert w. induction days as [|d rest IH]; intros w; simpl.
  - exists []. by rewrite app_nil_r.
  - unfold bind at 1 2. pose proof (find_free_slot_in_hours d (duration_or_60 t) w Hb) as Hslot.
    rewrite find_free_slot_run in Hslot |- *.
    destruct (events_list S (remote w) (combine d 9 0) (combine d 18 0))
      as [[evs|e] c1] eqn:Hlist; simpl in *.
    + destruct (find_free_slot_in _ _ _ _) as [[s e]|]; simpl.
      * unfold create_event_summary, commit, bind, ret. simpl.
        destruct (events_insert S c1 _) as [answer c2]; simpl.
        assert (Hgoal : Forall (λ call, ∀ body answer, call = InsertCall body answer →
             body = body_for t (start_dt body) (end_dt body)
             ∧ end_dt body = start_dt body + minutes (clamp (duration_or_60 t))
             ∧ ∃ d0, d0 ∈ d :: rest ∧ combine d0 9 0 ≤ start_dt body
                     ∧ end_dt body ≤ combine d0 18 0)
           [ListCall (combine d 9 0) (combine d 18 0) (Ret evs);
            InsertCall (body_for t s e) answer]).
        { constructor; [done|]. constructor; [|done].
          intros body answer' [= <- _]. simpl. split; [done|].
          destruct (Hslot s e eq_refl) as (? & ? & ?). split; [done|].
          exists d. split; [left|done]. }
        destruct answer as [eid|e']; simpl;
          (eexists; rewrite <- app_assoc; split; [done|exact Hgoal]).
      * match goal with |- context [try_days t rest ?w0] =>
          destruct (IH w0) as (cs & Hc & Hall) end.
        exists (ListCall (combine d 9 0) (combine d 18 0) (Ret evs) :: cs).
        simpl in Hc. rewrite Hc, <- app_assoc. split; [done|].
        constructor; [done|]. eapply Forall_impl; [exact Hall|]. simpl.
        intros call Hc0 body answer Heq.
        destruct (Hc0 body answer Heq) as (? & ? & d' & ? & ?).
        repeat split; [done..|]. exists d'. split; [by right|done].
    + eexists. split; [done|]. by constructor.
Qed.

Lemma plan_one_inserts today t w :
  listing_bounded S →
  ∃ cs,
    calls (plan_one today t w).2 = calls w ++ cs
    ∧ Forall (λ call, ∀ body answer, call = InsertCall body answer →
         due t = None
         ∧ body = body_for t (start_dt body) (end_dt body)
         ∧ end_dt body = start_dt body + minutes (clamp (duration_or_60 t))
         ∧ ∃ d, today ≤ d ≤ today + 2 ∧ combine d 9 0 ≤ start_dt body
                ∧ end_dt body ≤ combine d 18 0) cs.
Proof.
  intros Hb. destruct (due t) as [dt|] eqn:Hdue.
  { rewrite (plan_one_dated today t dt w Hdue). exists []. by rewrite app_nil_r. }
  rewrite (plan_one_undated today t w Hdue). unfold bind.
  destruct (try_days_inserts t (seqZ today 3) w Hb) as (cs & Hc & Hall).
  assert (Hall' : Forall (λ call, ∀ body answer, call = InsertCall body answer →
         None = (None : option Z)
         ∧ body = body_for t (start_dt body) (end_dt body)
         ∧ end_dt body = start_dt body + minutes (clamp (duration_or_60 t))
         ∧ ∃ d, today ≤ d ≤ today + 2 ∧ combine d 9 0 ≤ start_dt body
                ∧ end_dt body ≤ combine d 18 0) cs).
  { eapply Forall_impl; [exact Hall|]. simpl. intros call Hc0 body answer Heq.
    destruct (Hc0 body answer Heq) as (? & ? & d & Hd%elem_of_seqZ & ?).
    repeat split; [done..|]. exists d. split; [lia|done]. }
  destruct (try_days t (seqZ today 3) w) as [[[]|e] w0]; simpl in *; by exists cs.
Qed.

Lemma for_tasks_inserts today l : ∀ w,
  listing_bounded S →
  ∃ cs,
    calls (for_tasks (plan_one today) l w).2 = calls w ++ cs
    ∧ Forall (λ call, ∀ body answer, call = InsertCall body answer →
         ∃ t, t ∈ l ∧ due t = None
              ∧ body = body_for t (start_dt body) (end_dt body)
              ∧ end_dt body = start_dt body + minutes (clamp (duration_or_60 t))
              ∧ ∃ d, today ≤ d ≤ today + 2 ∧ combine d 9 0 ≤ start_dt body
                     ∧ end_dt body ≤ combine d 18 0) cs.
Proof.
  intros w Hb. revert w. induction l as [|t l IH]; intros w; simpl.
  - exists []. by rewrite app_nil_r.
  - unfold bind. destruct (plan_one_inserts today t w Hb) as (cs & Hc & Hall).
    assert (Hall' : Forall (λ call, ∀ body answer, call = InsertCall body answer →
         ∃ t', t' ∈ t :: l ∧ due t' = None
              ∧ body = body_for t' (start_dt body) (end_dt body)
              ∧ end_dt body = start_dt body + minutes (clamp (duration_or_60 t'))
              ∧ ∃ d, today ≤ d ≤ today + 2 ∧ combine d 9 0 ≤ start_dt body
                     ∧ end_dt body ≤ combine d 18 0) cs).
    { eapply Forall_impl; [exact Hall|]. simpl. intros call Hc0 body answer Heq.
      exists t. split; [left|]. by apply (Hc0 body answer). }
    destruct (plan_one today t w) as [[[]|e] w1]; simpl in *; [|by exists cs].
    destruct (IH w1) as (cs1 & Hc1 & Hall1).
    exists (cs ++ cs1). rewrite Hc1, Hc, <- app_assoc. split; [done|].
    apply Forall_app. split; [done|]. eapply Forall_impl; [exact Hall1|]. simpl.
    intros call Hc0 body answer Heq. destruct (Hc0 body answer Heq) as (t' & ? & ?).
    exists t'. split; [by right|done].
Qed.

(** X3.  With a calendar whose listings answer only events that start by
    [timeMax], every body a pass gives the adapter to insert, and so every
    event it creates, is the body of a task that was pending and had no
    [due], lasts the task's duration ([duration_min or 60], a negative one
    taken as 30 minutes), and lies between 09:00 and 18:00 of one day among
    today and the two days after it. *)
Theorem pass_books_within_working_hours today w body answer :
  listing_bounded S →
  InsertCall body answer ∈ new_calls w (plan_all_pending today w).2 →
  ∃ t d,
    t ∈ db w ∧ status t = "pending" ∧ due t = None
    ∧ body = body_for t (start_dt body) (end_dt body)
    ∧ end_dt body = start_dt body + minutes (clamp (duration_or_60 t))
    ∧ start_dt body < end_dt body
    ∧ today ≤ d ≤ today + 2
    ∧ combine d 9 0 ≤ start_dt body ∧ end_dt body ≤ combine d 18 0.
Proof.
  intros Hb. rewrite plan_all_pending_run.
  destruct (sort_tasks today (pending (db w))) as [order|err] eqn:Hsort.
  - destruct (for_tasks_inserts today order w Hb) as (cs & Hc & Hall).
    rewrite (new_calls_app _ _ _ Hc). intros Hin.
    rewrite Forall_forall in Hall.
    destruct (Hall _ Hin body answer eq_refl) as (t & Ht & Hdue & Hbody & Hend & d & ? & ? & ?).
    rewrite (sort_tasks_perm today _ _ Hsort) in Ht. apply pending_elem in Ht as [Hst Ht].
    exists t, d. pose proof (minutes_pos _ (clamp_pos (duration_or_60 t))).
    repeat split; [done..|lia|lia|lia|done|done].
  - simpl. unfold new_calls. rewrite drop_all. intros Hin. by apply elem_of_nil in Hin.
Qed.

(** X4.  A pass handles no task twice: whatever it comes to, the events it
    created and the tasks it gave up on are for distinct tasks. *)
Theorem pass_handles_each_task_once today w :
  NoDup (id <$> db w) →
  NoDup (entry_task <$> new_entries w (plan_all_pending today w).2).
Proof.
  intros Hnd. rewrite plan_all_pending_run.
  destruct (sort_tasks today (pending (db w))) as [order|err] eqn:Hsort.
  - pose proof (sort_tasks_perm _ _ _ Hsort) as Hperm.
    assert (Hnd' : NoDup (id <$> order)).
    { rewrite Hperm. by apply pending_ids_nodup. }
    destruct (for_tasks_spec today order w Hnd') as (done & rest & added & Hsplit & Hj & Hmap & _).
    { intros t Ht. rewrite Hperm in Ht. by apply pending_elem in Ht as [_ ?]. }
    rewrite (new_entries_app _ _ _ Hj), Hmap.
    rewrite Hsplit, fmap_app in Hnd'. by apply NoDup_app in Hnd' as [? _].
  - simpl. unfold new_entries. rewrite drop_all. constructor.
Qed.

(** *** The order of a pass *)

Lemma insert_task_by_priority today x l l' :
  due x = None → Forall (λ t, due t = None) l →
  StronglySorted (λ a b, priority b ≤ priority a) l →
  insert_task today x l = Ret l' →
  StronglySorted (λ a b, priority b ≤ priority a) l'.
Proof.
  intros Hx. revert l'. induction l as [|y l IH]; simpl; intros l' Hl Hs.
  - intros [= <-]. repeat constructor.
  - apply Forall_cons in Hl as [Hy Hl]. apply StronglySorted_inv in Hs as [Hs Hall].
    unfold key_lt, sort_key, due_key. rewrite Hx, Hy. simpl.
    rewrite bool_decide_eq_true_2 by done. case_bool_decide as Hlt.
    + destruct (insert_task today x l) as [r|] eqn:Hins; [|done]. intros [= <-].
      constructor; [by apply IH|].
      rewrite (insert_task_perm _ _ _ _ Hins). constructor; [lia|done].
    + intros [= <-]. constructor; [by constructor|].
      constructor; [lia|]. eapply Forall_impl; [exact Hall|]. simpl. intros; lia.
Qed.

Lemma sort_tasks_by_priority today l l' :
  Forall (λ t, due t = None) l → sort_tasks today l = Ret l' →
  StronglySorted (λ a b, priority b ≤ priority a) l'.
Proof.
  revert l'. induction l as [|x l IH]; simpl; intros l' Hl.
  - intros [= <-]. constructor.
  - apply Forall_cons in Hl as [Hx Hl].
    destruct (sort_tasks today l) as [sorted|] eqn:Hs; [|done].
    apply insert_task_by_priority; [done| |by apply IH].
    apply Forall_forall. intros t Ht. rewrite Forall_forall in Hl. apply Hl.
    by rewrite <- (sort_tasks_perm _ _ _ Hs).
Qed.

(** X5.  A pass that returns has gone over every pending task, once, and
    those of higher [priority] first: a task is offered the calendar before
    any task of lower priority. *)
Theorem pass_serves_higher_priority_first today w :
  NoDup (id <$> db w) →
  (plan_all_pending today w).1 = Ret tt →
  ∃ order,
    order ≡ₚ pending (db w)
    ∧ StronglySorted (λ a b, priority b ≤ priority a) order
    ∧ entry_task <$> new_entries w (plan_all_pending today w).2 = id <$> order.
Proof.
  intros Hnd. rewrite plan_all_pending_run.
  destruct (sort_tasks today (pending (db w))) as [order|err] eqn:Hsort; [|done].
  pose proof (sort_tasks_perm _ _ _ Hsort) as Hperm. intros Hret.
  assert (Hund : Forall (λ t, due t = None) (pending (db w))).
  { apply Forall_forall. intros t [Hst Ht]%pending_elem.
    destruct (due t) as [dt|] eqn:Hdue; [|done].
    pose proof (dated_task_stops_pass today w t dt Ht Hst Hdue) as Hstop.
    rewrite plan_all_pending_run, Hsort in Hstop. by rewrite Hstop in Hret. }
  exists order. split; [done|]. split; [by eapply sort_tasks_by_priority|].
  assert (Hnd' : NoDup (id <$> order)).
  { rewrite Hperm. by apply pending_ids_nodup. }
  destruct (for_tasks_spec today order w Hnd') as (done & rest & added & Hsplit & Hj & Hmap & Hres & _).
  { intros t Ht. rewrite Hperm in Ht. by apply pending_elem in Ht as [_ ?]. }
  rewrite (new_entries_app _ _ _ Hj), Hmap.
  destruct Hres as [[_ ->]|(e & t & He & _)]; [|congruence].
  by rewrite Hsplit, app_nil_r.
Qed.

(** X6.  A task is left pending by a pass that returned only when the
    calendar has no room for it: from then on, for as long as nothing is
    removed from the calendar, no listing of today or of the two days after
    it leaves a gap of the task's duration between 09:00 and 18:00. *)
Theorem pending_after_pass_has_no_room today w t :
  Steady S →
  (plan_all_pending today w).1 = Ret tt →
  t ∈ db (plan_all_pending today w).2 → status t = "pending" →
  no_room t (seqZ today 3) (remote (plan_all_pending today w).2).
Proof.
  intros HS Hret Ht Hst. 
  assert (Hdated : ∀ t0, t0 ∈ db w → status t0 = "pending" → due t0 = None).
  { intros t0 Ht0 Hst0. destruct (due t0) as [dt|] eqn:Hdue; [|done].
    by rewrite (dated_task_stops_pass today w t0 dt Ht0 Hst0 Hdue) in Hret. }
  rewrite plan_all_pending_run in Hret, Ht |- *.
  destruct (sort_tasks today (pending (db w))) as [order|err] eqn:Hsort; [|done].
  pose proof (sort_tasks_perm _ _ _ Hsort) as Hperm.
  destruct (for_tasks_settles today order w HS Hret) as [Hall Hrows].
  destruct (Hrows t Ht) as [Hold|?]; [|congruence].
  destruct (Hall t) as [Hplanned|Hq].
  - rewrite Hperm. by apply pending_elem.
  - specialize (Hplanned t Ht eq_refl). congruence.
  - apply Hq. by apply Hdated.
Qed.

End EngineFacts.

Section EngineScenarios.
Import Py Server Desk.

(** Ninety minutes on the day of overlapping meetings: 11:30 to 13:00. *)
Lemma find_free_slot_clear_of_events_witness :
  (_find_free_slot 100 90 (world [] overlapping [])).1
  = Ret (Some (combine 100 11 30, combine 100 13 0))
  ∧ (combine 100 13 0 = combine 100 11 30 + minutes (clamp 90)
     ∧ combine 100 11 30 < combine 100 13 0
     ∧ combine 100 9 0 ≤ combine 100 11 30 ∧ combine 100 13 0 ≤ combine 100 18 0
     ∧ ∀ ev bs be, ev ∈ overlapping → ev_start ev = Some bs → ev_end ev = Some be →
                   combine 100 13 0 ≤ bs ∨ be ≤ combine 100 11 30).
Proof.
  split; [vm_compute; reflexivity|].
  apply (find_free_slot_clear_of_events 100 90 (world [] overlapping []) overlapping).
  - vm_compute. reflexivity.
  - apply (steady_window desk_steady
             {| held := overlapping; outages := [] |} (combine 100 9 0) (combine 100 18 0)).
    vm_compute. reflexivity.
  - vm_compute. reflexivity.
Defined.

Lemma desk_listing_bounded : listing_bounded service.
Proof. exact (steady_window desk_steady). Qed.

(** The crowded calendar, with a third row that is already planned. *)
Lemma pass_touches_only_pending_rows_witness :
  NoDup (id <$> db (world (two_undated ++ [booked (task 3 "call" None 30 2) 0 None]) crowded []))
  ∧ Forall2 row_step
      (db (world (two_undated ++ [booked (task 3 "call" None 30 2) 0 None]) crowded []))
      (db (plan_all_pending 100
             (world (two_undated ++ [booked (task 3 "call" None 30 2) 0 None]) crowded [])).2).
Proof.
  assert (Hnd : NoDup (id <$> db (world (two_undated ++ [booked (task 3 "call" None 30 2) 0 None])
                                   crowded []))).
  { apply (bool_decide_unpack _). vm_compute. exact I. }
  split; [exact Hnd|].
  exact (pass_touches_only_pending_rows 100 _ Hnd).
Defined.

(** The one insertion on the crowded calendar: task 2, 17:00 to 18:00 of
    day 101. *)
Lemma pass_books_within_working_hours_witness :
  InsertCall (body_for (task 2 "read" None 60 5) (combine 101 17 0) (combine 101 18 0))
    (Ret (Some "evt3"))
    ∈ new_calls (world two_undated crowded [])
        (plan_all_pending 100 (world two_undated crowded [])).2
  ∧ ∃ t d,
      t ∈ db (world two_undated crowded []) ∧ status t = "pending" ∧ due t = None
      ∧ body_for (task 2 "read" None 60 5) (combine 101 17 0) (combine 101 18 0)
        = body_for t (combine 101 17 0) (combine 101 18 0)
      ∧ combine 101 18 0 = combine 101 17 0 + minutes (clamp (duration_or_60 t))
      ∧ combine 101 17 0 < combine 101 18 0
      ∧ 100 ≤ d ≤ 100 + 2 ∧ combine d 9 0 ≤ combine 101 17 0
      ∧ combine 101 18 0 ≤ combine d 18 0.
Proof.
  assert (Hin : InsertCall
      (body_for (task 2 "read" None 60 5) (combine 101 17 0) (combine 101 18 0))
      (Ret (Some "evt3"))
    ∈ new_calls (world two_undated crowded [])
        (plan_all_pending 100 (world two_undated crowded [])).2).
  { vm_compute. do 2 right. left. }
  split; [exact Hin|].
  exact (pass_books_within_working_hours 100 (world two_undated crowded [])
           (body_for (task 2 "read" None 60 5) (combine 101 17 0) (combine 101 18 0))
           (Ret (Some "evt3")) desk_listing_bounded Hin).
Defined.

Lemma pass_handles_each_task_once_witness :
  NoDup (id <$> db (world two_undated crowded []))
  ∧ NoDup (entry_task <$> new_entries (world two_undated crowded [])
             (plan_all_pending 100 (world two_undated crowded [])).2).
Proof.
  assert (Hnd : NoDup (id <$> db (world two_undated crowded []))).
  { apply (bool_decide_unpack _). vm_compute. exact I. }
  split; [exact Hnd|].
  exact (pass_handles_each_task_once 100 (world two_undated crowded []) Hnd).
Defined.

(** Task 2 (priority 5) is gone over before task 1 (priority 1). *)
Lemma pass_serves_higher_priority_first_witness :
  NoDup (id <$> db (world two_undated crowded []))
  ∧ (plan_all_pending 100 (world two_undated crowded [])).1 = Ret tt
  ∧ ∃ order,
      order ≡ₚ pending (db (world two_undated crowded []))
      ∧ StronglySorted (λ a b, priority b ≤ priority a) order
      ∧ entry_task <$> new_entries (world two_undated crowded [])
                         (plan_all_pending 100 (world two_undated crowded [])).2
        = id <$> order.
Proof.
  assert (Hnd : NoDup (id <$> db (world two_undated crowded []))).
  { apply (bool_decide_unpack _). vm_compute. exact I. }
  split; [exact Hnd|]. split; [vm_compute; reflexivity|].
  apply (pass_serves_higher_priority_first 100 (world two_undated crowded []) Hnd).
  vm_compute. reflexivity.
Defined.

(** Task 1 stays pending on the crowded calendar. *)
Lemma pending_after_pass_has_no_room_witness :
  (plan_all_pending 100 (world two_undated crowded [])).1 = Ret tt
  ∧ task 1 "write" None 60 1 ∈ db (plan_all_pending 100 (world two_undated crowded [])).2
  ∧ no_room (task 1 "write" None 60 1) (seqZ 100 3)
      (remote (plan_all_pending 100 (world two_undated crowded [])).2).
Proof.
  assert (Hin : task 1 "write" None 60 1
                ∈ db (plan_all_pending 100 (world two_undated crowded [])).2).
  { vm_compute. left. }
  split; [vm_compute; reflexivity|]. split; [exact Hin|].
  apply (pending_after_pass_has_no_room 100 (world two_undated crowded [])
           (task 1 "write" None 60 1) desk_steady); [|exact Hin|].
  - vm_compute. reflexivity.
  - reflexivity.
Defined.

Lemma pass_moves_pending_to_planned_witness :
  NoDup (id <$> db (world two_undated crowded []))
  ∧ (planned_today (db (plan_all_pending 100 (world two_undated crowded [])).2)
     + pending_count (db (plan_all_pending 100 (world two_undated crowded [])).2)
     = planned_today (db (world two_undated crowded []))
       + pending_count (db (world two_undated crowded [])))%nat
  ∧ (pending_count (db (plan_all_pending 100 (world two_undated crowded [])).2)
     ≤ pending_count (db (world two_undated crowded [])))%nat.
Proof.
  assert (Hnd : NoDup (id <$> db (world two_undated crowded []))).
  { apply (bool_decide_unpack _). vm_compute. exact I. }
  split; [exact Hnd|].
  exact (pass_moves_pending_to_planned 100 (world two_undated crowded []) Hnd).
Defined.

(** Among the overlapping meetings ninety minutes fit at 13:00; the finder
    gives them from 11:30. *)
Lemma find_free_slot_takes_earliest_fit_witness :
  ∃ s, (_find_free_slot 100 90 (world [] overlapping [])).1
       = Ret (Some (s, s + minutes (clamp 90)))
       ∧ s ≤ combine 100 13 0.
Proof.
  apply (find_free_slot_takes_earliest_fit 100 90 (world [] overlapping []) overlapping
           (combine 100 13 0)).
  - vm_compute. reflexivity.
  - vm_compute. congruence.
  - vm_compute. congruence.
  - intros ev bs be Hev Hs He.
    apply elem_of_cons in Hev as [->|Hev]; [injection Hs as <-; injection He as <-;
      vm_compute; right; congruence|].
    apply elem_of_cons in Hev as [->|Hev]; [injection Hs as <-; injection He as <-;
      vm_compute; right; congruence|].
    apply elem_of_cons in Hev as [->|Hev]; [injection Hs as <-; injection He as <-;
      vm_compute; left; congruence|].
    by apply elem_of_nil in Hev.
Defined.

End EngineScenarios.

(** ** More of [GoogleServices.find_free_slot] *)
Section BackendFinder.
Import Py Backend.

Lemma minute_of_range x : 0 ≤ minute_of x < 60.
Proof.
  unfold minute_of, usec_per_hour, usec_per_minute.
  pose proof (Z.mod_pos_bound x 3600000000 ltac:(lia)).
  split; [apply Z.div_pos; lia|apply Z.div_lt_upper_bound; lia].
Qed.

(** X7.  The jump of lines 531-535 lands on a five-minute mark of the clock,
    at the busy slot's end or less than five minutes after it; an end that
    is on such a mark already is not moved.  (Seconds are left as they are.) *)
Theorem round_up_5_lands_on_mark slot_end :
  slot_end ≤ round_up_5 slot_end < slot_end + minutes 5
  ∧ minute_of (round_up_5 slot_end) `mod` 5 = 0
  ∧ (minute_of slot_end `mod` 5 = 0 → round_up_5 slot_end = slot_end).
Proof.
  unfold round_up_5. pose proof (minute_of_range slot_end) as Hm.
  pose proof (Z.mod_pos_bound (minute_of slot_end) 5 ltac:(lia)) as Hr.
  case_bool_decide as Hmod.
  - split; [unfold minutes, usec_per_minute; lia|]. split; [|done].
    revert Hm Hr Hmod. unfold minute_of, minutes, usec_per_hour, usec_per_minute.
    intros Hm Hr Hmod.
    set (m := (slot_end `mod` 3600000000) `div` 60000000) in *.
    set (k := 5 - m `mod` 5).
    pose proof (Z.mod_pos_bound slot_end 3600000000 ltac:(lia)) as Hb.
    pose proof (Z.div_mod (slot_end `mod` 3600000000) 60000000 ltac:(lia)) as Hdm.
    pose proof (Z.mod_pos_bound (slot_end `mod` 3600000000) 60000000 ltac:(lia)) as Hs.
    fold m in Hdm.
    assert (Hmk : (m + k) `mod` 5 = 0).
    { unfold k. rewrite (Z.div_mod m 5) at 1 by lia.
      replace (5 * (m `div` 5) + m `mod` 5 + (5 - m `mod` 5)) with ((m `div` 5 + 1) * 5) by lia.
      apply Z.mod_mul. lia. }
    assert (Hle : m + k ≤ 60).
    { pose proof (Z.div_mod m 5 ltac:(lia)). 
      assert (m `div` 5 < 12) by (apply Z.div_lt_upper_bound; lia).
      unfold k. lia. }
    rewrite <- Zplus_mod_idemp_l.
    replace (slot_end `mod` 3600000000 + k * 60000000)
      with ((m + k) * 60000000 + (slot_end `mod` 3600000000) `mod` 60000000) by lia.
    set (s := (slot_end `mod` 3600000000) `mod` 60000000) in *.
    assert (Hk : 0 < k) by (unfold k; lia).
    clearbody k. clearbody s. clearbody m.
    destruct (decide (m + k = 60)) as [Heq|Hne].
    + rewrite Heq. replace (60 * 60000000 + s) with (s + 1 * 3600000000) by lia.
      rewrite Z.mod_add by lia. rewrite (Z.mod_small s) by lia.
      rewrite (Z.div_small s) by lia. done.
    + rewrite (Z.mod_small ((m + k) * 60000000 + s)) by lia.
      replace ((m + k) * 60000000 + s) with (s + (m + k) * 60000000) by lia.
      rewrite Z.div_add by lia. rewrite (Z.div_small s) by lia. done.
  - split; [unfold minutes, usec_per_minute; lia|]. done.
Qed.

Lemma round_up_5_le x : x ≤ round_up_5 x.
Proof.
  unfold round_up_5. pose proof (Z.mod_pos_bound (minute_of x) 5 ltac:(lia)).
  case_bool_decide; unfold minutes, usec_per_minute; lia.
Qed.

Lemma first_conflict_none busy f e :
  first_conflict busy f e = Ret None ↔
  Forall (λ slot, ∃ s' e', slot = Some (s', e') ∧ (e' ≤ f ∨ e ≤ s')) busy.
Proof.
  induction busy as [|[[s' e']|] busy IH]; simpl.
  - split; [constructor|done].
  - destruct (bool_decide (f < e')) eqn:H1; destruct (bool_decide (s' < e)) eqn:H2; simpl;
      try apply bool_decide_eq_true in H1; try apply bool_decide_eq_true in H2;
      try apply bool_decide_eq_false in H1; try apply bool_decide_eq_false in H2.
    + split; [done|]. intros Hall. apply Forall_cons in Hall as [(? & ? & [= <- <-] & ?) _]. lia.
    + rewrite IH. split; [|by intros [_ ?]%Forall_cons].
      intros Hall. constructor; [|done]. exists s', e'. split; [done|lia].
    + rewrite IH. split; [|by intros [_ ?]%Forall_cons].
      intros Hall. constructor; [|done]. exists s', e'. split; [done|lia].
    + rewrite IH. split; [|by intros [_ ?]%Forall_cons].
      intros Hall. constructor; [|done]. exists s', e'. split; [done|lia].
  - split; [done|]. intros Hall. by apply Forall_cons in Hall as [(? & ? & ? & _) _].
Qed.

Lemma first_conflict_some busy cur e next :
  first_conflict busy cur e = Ret (Some next) →
  ∃ s' e', Some (s', e') ∈ busy ∧ cur < e' ∧ next = round_up_5 e'.
Proof.
  induction busy as [|[[s' e']|] busy IH]; simpl; [done| |done].
  destruct (bool_decide (cur < e')) eqn:H1; simpl.
  - destruct (bool_decide (s' < e)); simpl.
    + intros [= <-]. apply bool_decide_eq_true in H1. exists s', e'. split; [left|done].
    + intros (s2 & e2 & ? & ?)%IH. exists s2, e2. split; [by right|done].
  - intros (s2 & e2 & ? & ?)%IH. exists s2, e2. split; [by right|done].
Qed.

Lemma scan_slots_sound n busy d : ∀ cur f,
  scan_slots n busy d cur = Ret (Some f) →
  out_of_hours f (f + minutes d) = false
  ∧ first_conflict busy f (f + minutes d) = Ret None
  ∧ (f = cur ∨ (cur < f ∧ ∃ s' e', Some (s', e') ∈ busy ∧ f = round_up_5 e')).
Proof.
  induction n as [|n IH]; intros cur f; simpl; [done|].
  destruct (out_of_hours cur (cur + minutes d)) eqn:Hh; [done|].
  destruct (first_conflict busy cur (cur + minutes d)) as [[next|]|] eqn:Hc; [| |done].
  - intros Hscan. destruct (IH next f Hscan) as (? & ? & Hf). split; [done|]. split; [done|].
    apply first_conflict_some in Hc as (s' & e' & Hin & Hlt & ->).
    pose proof (round_up_5_le e'). right.
    destruct Hf as [->|(? & s2 & e2 & ? & ->)].
    + split; [lia|]. by exists s', e'.
    + split; [lia|]. by exists s2, e2.
  - intros [= <-]. split; [done|]. split; [done|]. by left.
Qed.

Lemma out_of_hours_false cur e :
  out_of_hours cur e = false ↔
  9 ≤ hour_of cur ∧ (hour_of e < 18 ∨ (hour_of e = 18 ∧ minute_of e = 0)).
Proof.
  unfold out_of_hours. pose proof (minute_of_range e).
  repeat case_bool_decide; simpl; split; try done; lia.
Qed.

(** X8.  With the calendar client in place and the free/busy query answered,
    [GoogleServices.find_free_slot] returns the start it was asked for (put
    at 09:00 if it was earlier), or a later time.  A later time is free: it
    is the end of a busy slot rounded up to a five-minute mark, the clock
    reads 09:00 or later at it and 18:00 or earlier at its end, and it
    meets no busy slot of the answer.  A start that is itself within hours
    and free is returned as it is. *)
Theorem find_free_slot_moves_only_to_free_time {G : GoogleCalendar} (w : World G)
    c start start' d busy :
  cal_service w = Some c → adjust_start start = Ret start' →
  (freebusy_query G c start' (start' + 3 * usec_per_day)).1 = Ret busy →
  ∃ found,
    (find_free_slot start d w).1 = Ret found
    ∧ (found = start'
       ∨ (start' < found
          ∧ (∃ s' e', Some (s', e') ∈ busy ∧ found = round_up_5 e')
          ∧ 9 ≤ hour_of found
          ∧ (hour_of (found + minutes d) < 18
             ∨ (hour_of (found + minutes d) = 18 ∧ minute_of (found + minutes d) = 0))
          ∧ Forall (λ slot, ∃ s' e', slot = Some (s', e')
                                     ∧ (e' ≤ found ∨ found + minutes d ≤ s')) busy))
    ∧ (9 ≤ hour_of start'
       ∧ (hour_of (start' + minutes d) < 18
          ∨ (hour_of (start' + minutes d) = 18 ∧ minute_of (start' + minutes d) = 0))
       ∧ Forall (λ slot, ∃ s' e', slot = Some (s', e')
                                  ∧ (e' ≤ start' ∨ start' + minutes d ≤ s')) busy →
       found = start').
Proof.
  intros Hc Ha Hq. unfold find_free_slot, scan_or_fallback.
  remember 96%nat as n eqn:Hn. rewrite Hc, Ha. simpl. rewrite Hq.
  eexists. split; [done|]. split.
  - destruct (scan_slots n busy d start') as [[f|]|] eqn:Hscan; [|by left..].
    apply scan_slots_sound in Hscan as (Hh & Hfree & [->|(Hlt & Hend)]); [by left|right].
    apply out_of_hours_false in Hh as [? ?]. apply first_conflict_none in Hfree. done.
  - intros (H9 & H18 & Hfree). rewrite Hn.
    change (scan_slots 96 busy d start') with (scan_slots (S 95) busy d start').
    cbn [scan_slots].
    rewrite (proj2 (out_of_hours_false start' (start' + minutes d))) by done.
    by rewrite (proj2 (first_conflict_none busy start' (start' + minutes d)) Hfree).
Qed.

(** One meeting from 09:00 to 09:02; thirty minutes asked from 09:00 are
    given from 09:05. *)
Lemma find_free_slot_moves_only_to_free_time_witness :
  ∃ found,
    (find_free_slot (combine 100 9 0) 30
       (Board.process [] [] [(combine 100 9 0, combine 100 9 2)])).1 = Ret found
    ∧ (found = combine 100 9 0
       ∨ (combine 100 9 0 < found
          ∧ (∃ s' e', Some (s', e') ∈ [Some (combine 100 9 0, combine 100 9 2)]
                      ∧ found = round_up_5 e')
          ∧ 9 ≤ hour_of found
          ∧ (hour_of (found + minutes 30) < 18
             ∨ (hour_of (found + minutes 30) = 18 ∧ minute_of (found + minutes 30) = 0))
          ∧ Forall (λ slot, ∃ s' e', slot = Some (s', e')
                                     ∧ (e' ≤ found ∨ found + minutes 30 ≤ s'))
              [Some (combine 100 9 0, combine 100 9 2)]))
    ∧ (9 ≤ hour_of (combine 100 9 0)
       ∧ (hour_of (combine 100 9 0 + minutes 30) < 18
          ∨ (hour_of (combine 100 9 0 + minutes 30) = 18
             ∧ minute_of (combine 100 9 0 + minutes 30) = 0))
       ∧ Forall (λ slot, ∃ s' e', slot = Some (s', e')
                                  ∧ (e' ≤ combine 100 9 0
                                     ∨ combine 100 9 0 + minutes 30 ≤ s'))
           [Some (combine 100 9 0, combine 100 9 2)] →
       found = combine 100 9 0).
Proof.
  apply (find_free_slot_moves_only_to_free_time
           (Board.process [] [] [(combine 100 9 0, combine 100 9 2)])
           {| Board.taken := [(combine 100 9 0, combine 100 9 2)]; Board.down := false |}
           (combine 100 9 0) (combine 100 9 0) 30
           [Some (combine 100 9 0, combine 100 9 2)]).
  - reflexivity.
  - vm_compute. reflexivity.
  - vm_compute. reflexivity.
Defined.

End BackendFinder.

(** ** What the flows leave alone *)
Section FlowInvariants.
Import Py Backend.
Context {G : GoogleCalendar}.
Implicit Types (w : World G) (r : nat).

(** A relation between the world before and the world after that every
    step of the flows respects is respected by the flows. *)
Section Respect.
Variable R : relation (World G).
Hypothesis R_refl : ∀ w, R w w.
Hypothesis R_trans : ∀ w1 w2 w3, R w1 w2 → R w2 w3 → R w1 w3.
Hypothesis R_find : ∀ start d w, R w (find_free_slot start d w).2.
Hypothesis R_create : ∀ r name s e text w, R w (create_event r name s e text w).2.
Hypothesis R_event_id : ∀ r v w, R w (update r (λ t, with_calendarEventId t v) w).2.
Hypothesis R_due : ∀ r v w, R w (update r (λ t, with_dueDate t v) w).2.
Hypothesis R_alloc : ∀ t w, R w (alloc t w).2.
Hypothesis R_append : ∀ r w, R w (append_task r w).2.
Hypothesis R_replan : ∀ now w, R w (replan now w).2.

Lemma bind_respects {A C} (m : B G A) (k : A → B G C) w :
  R w (m w).2 → (∀ a w', R w' (k a w').2) → R w (bind m k w).2.
Proof.
  intros Hm Hk. unfold bind. destruct (m w) as [[a|e] w1]; simpl in *; [|done].
  eapply R_trans; [exact Hm|apply Hk].
Qed.

Lemma attempt_respects (body : B G unit) w : R w (body w).2 → R w (attempt body w).2.
Proof. unfold attempt. by destruct (body w) as [[]]. Qed.

Lemma for_each_respects {A} (body : A → B G unit) (l : list A) :
  (∀ x w, R w (body x w).2) → ∀ w, R w (for_each body l w).2.
Proof.
  intros Hbody. induction l as [|x l IH]; intros w; simpl; [apply R_refl|].
  apply bind_respects; [apply Hbody|]. intros _ w'. apply IH.
Qed.

Lemma book_respects r name s e text w :
  R w (bind (create_event r name s e text)
         (λ event_id, bind (update r (λ t, with_calendarEventId t event_id))
                        (λ _, update r (λ t, with_dueDate t (Some s)))) w).2.
Proof.
  apply bind_respects; [apply R_create|]. intros eid w1.
  apply bind_respects; [apply R_event_id|]. intros _ w2. apply R_due.
Qed.

Lemma schedule_auto_respects r w : R w (schedule_auto r w).2.
Proof.
  unfold schedule_auto. apply bind_respects; [apply R_refl|]. intros [task|] w1; [|apply R_refl].
  destruct (dueDate task) as [start|]; [|apply R_refl].
  apply bind_respects; [apply R_find|]. intros final w2.
  apply bind_respects; [apply R_refl|]. intros final_end w3. apply book_respects.
Qed.

Lemma schedule_voice_respects now r w : R w (schedule_voice now r w).2.
Proof.
  unfold schedule_voice. apply bind_respects; [apply R_refl|]. intros [task|] w1; [|apply R_refl].
  apply bind_respects.
  { destruct (dueDate task); [apply R_refl|apply R_find]. }
  intros start w2. apply bind_respects; [apply R_find|]. intros final w3.
  apply bind_respects; [apply R_refl|]. intros final_end w4. apply book_respects.
Qed.

Lemma alloc_all_respects ts : ∀ w, R w (alloc_all ts w).2.
Proof.
  induction ts as [|t ts IH]; intros w; simpl; [apply R_refl|].
  apply bind_respects; [apply R_alloc|]. intros r w1.
  apply bind_respects; [apply IH|]. intros rs w2. apply R_refl.
Qed.

Lemma add_gmail_task_respects r w : R w (add_gmail_task r w).2.
Proof.
  unfold add_gmail_task. destruct (objects w !! r) as [task|]; [|apply R_refl].
  destruct (title_known _ _ _); [apply R_refl|apply R_append].
Qed.

Lemma ask_deadlines_respects refs : ∀ answers w, R w (ask_deadlines refs answers w).2.
Proof.
  induction refs as [|r refs IH]; intros answers w; simpl; [apply R_refl|].
  apply bind_respects; [|intros _ w'; apply IH].
  destruct answers as [|[ai|] answers]; [apply R_refl|apply R_due|apply R_refl].
Qed.

Lemma run_full_sync_respects items answers now w :
  R w (run_full_sync items answers now w).2.
Proof.
  unfold run_full_sync.
  apply bind_respects; [apply alloc_all_respects|]. intros gmail_tasks w1.
  apply bind_respects; [apply for_each_respects, add_gmail_task_respects|]. intros _ w2.
  apply bind_respects; [apply R_refl|]. intros plan w3.
  apply bind_respects; [apply ask_deadlines_respects|]. intros _ w4.
  apply bind_respects; [apply R_refl|]. intros sched w5.
  apply bind_respects; [apply R_refl|]. intros dated w6.
  apply bind_respects; [|intros _ w7; apply R_replan].
  apply for_each_respects. intros r w'. apply attempt_respects, schedule_auto_respects.
Qed.

Lemma run_agent_flow_respects new_tasks now w :
  R w (run_agent_flow new_tasks now w).2.
Proof.
  unfold run_agent_flow. destruct new_tasks as [|t0 ts]; [apply R_refl|].
  apply bind_respects; [apply alloc_all_respects|]. intros refs w1.
  apply bind_respects; [apply for_each_respects, R_append|]. intros _ w2.
  apply bind_respects; [apply R_refl|]. intros sched w3.
  apply bind_respects; [|intros _ w4; apply R_replan].
  apply for_each_respects. intros r w'. apply attempt_respects, schedule_voice_respects.
Qed.

End Respect.

Lemma for_each_attempt_returns (body : nat → B G unit) (l : list nat) : ∀ w,
  (for_each (λ r, attempt (body r)) l w).1 = Ret tt.
Proof.
  induction l as [|r l IH]; intros w; simpl; [done|]. unfold bind, attempt.
  destruct (body r w) as [[[]|e] w1]; apply IH.
Qed.

Lemma for_each_returns {A} (body : A → B G unit) (l : list A) : 
  (∀ x w, (body x w).1 = Ret tt) → ∀ w, (for_each body l w).1 = Ret tt.
Proof.
  intros Hbody. induction l as [|x l IH]; intros w; simpl; [done|]. unfold bind.
  specialize (Hbody x w). destruct (body x w) as [[[]|e] w1]; simpl in *; [apply IH|done].
Qed.

Lemma ask_deadlines_returns refs : ∀ answers w, (ask_deadlines refs answers w).1 = Ret tt.
Proof.
  induction refs as [|r refs IH]; intros answers w; simpl; [done|]. unfold bind.
  destruct answers as [|[ai|] answers]; simpl; apply IH.
Qed.

(** X9.  [run_agent_flow], and [run_full_sync] from its Gmail step on, raise
    nothing, whatever the calendar answers: an error met while one task is
    booked ([find_free_slot]'s [TypeError] for a late start, a refused
    insertion) is caught by the loop's [try], and the flow goes on to the
    next task and to the final [simple_plan]. *)
Theorem flows_never_raise w :
  (∀ items answers now, (run_full_sync items answers now w).1 = Ret tt)
  ∧ (∀ new_tasks now, (run_agent_flow new_tasks now w).1 = Ret tt).
Proof.
  split.
  - intros items answers now. unfold run_full_sync. unfold bind at 1.
    destruct (alloc_all_spec (parse_gmail_tasks items) w) as (Hr & _).
    destruct (alloc_all (parse_gmail_tasks items) w) as [[refs|e] w1]; simpl in *; [|done].
    unfold bind at 1.
    pose proof (for_each_returns add_gmail_task refs) as H2.
    destruct (for_each add_gmail_task refs w1) as [[[]|e] w2] eqn:Hfe.
    2:{ specialize (H2 ltac:(intros x w'; unfold add_gmail_task, append_task;
                             destruct (objects w' !! x); [destruct (title_known _ _ _)|]; done) w1).
        rewrite Hfe in H2. done. }
    unfold bind at 1. simpl. unfold bind at 1.
    match goal with |- context [ask_deadlines ?l answers w2] =>
      pose proof (ask_deadlines_returns l answers w2) as H4;
      destruct (ask_deadlines l answers w2) as [[[]|e] w3]; simpl in *; [|done] end.
    unfold bind at 1. simpl. unfold bind at 1. simpl. unfold bind at 1.
    match goal with |- context [for_each _ ?l w3] =>
      pose proof (for_each_attempt_returns schedule_auto l w3) as H7;
      destruct (for_each (λ r, attempt (schedule_auto r)) l w3) as [[[]|e] w4];
        simpl in *; [done|done] end.
  - intros new_tasks now. unfold run_agent_flow. destruct new_tasks as [|t0 ts]; [done|].
    unfold bind at 1.
    destruct (alloc_all_spec (t0 :: ts) w) as (Hr & _).
    destruct (alloc_all (t0 :: ts) w) as [[refs|e] w1]; simpl in *; [|done].
    unfold bind at 1.
    pose proof (for_each_returns append_task refs (λ _ _, eq_refl) w1) as H2.
    destruct (for_each append_task refs w1) as [[[]|e] w2]; simpl in *; [|done].
    unfold bind at 1. simpl. unfold bind at 1.
    match goal with |- context [for_each _ ?l w2] =>
      pose proof (for_each_attempt_returns (schedule_voice now) l w2) as H7;
      destruct (for_each (λ r, attempt (schedule_voice now r)) l w2) as [[[]|e] w3];
        simpl in *; [done|done] end.
Qed.

Lemma same_identity_refl t : same_identity t t.
Proof. by repeat split. Qed.

Lemma extends_refl w : extends w w.
Proof. split; [done|]. intros r t Hr. exists t. split; [done|apply same_identity_refl]. Qed.

Lemma extends_trans w1 w2 w3 : extends w1 w2 → extends w2 w3 → extends w1 w3.
Proof.
  intros [Hp1 Ho1] [Hp2 Ho2]. split; [by etrans|]. intros r t Hr.
  destruct (Ho1 r t Hr) as (t1 & Hr1 & H1). destruct (Ho2 r t1 Hr1) as (t2 & Hr2 & H2).
  exists t2. split; [done|]. unfold same_identity in *. 
  destruct H1 as (? & ? & ? & ? & ? & ?), H2 as (? & ? & ? & ? & ? & ?).
  repeat split; congruence.
Qed.

Lemma alter_extends (f : Task → Task) r (objs : list Task) :
  (∀ t, same_identity t (f t)) →
  ∀ r' t, objs !! r' = Some t → ∃ t', alter f r objs !! r' = Some t' ∧ same_identity t t'.
Proof.
  intros Hf r' t Hr. destruct (decide (r = r')) as [->|Hne].
  - rewrite list_lookup_alter_eq, Hr. simpl. by eexists.
  - rewrite list_lookup_alter_ne by done. exists t. split; [done|apply same_identity_refl].
Qed.

Lemma update_extends r (f : Task → Task) w :
  (∀ t, same_identity t (f t)) → extends w (update r f w).2.
Proof. intros Hf. split; [done|]. simpl. by apply alter_extends. Qed.

Lemma simple_plan_extends now objs refs :
  ∀ r t, objs !! r = Some t →
         ∃ t', simple_plan now objs refs !! r = Some t' ∧ same_identity t t'.
Proof.
  induction refs as [|r0 refs IH] using rev_ind; intros r t Hr.
  - exists t. split; [done|apply same_identity_refl].
  - rewrite simple_plan_snoc. destruct (IH r t Hr) as (t1 & Hr1 & H1).
    destruct (alter_extends (λ t, with_planDay t (bucket now t)) r0
                (simple_plan now objs refs) (λ t, same_identity_refl _) r t1 Hr1)
      as (t2 & Hr2 & H2).
    exists t2. split; [done|]. unfold same_identity in *.
    destruct H1 as (? & ? & ? & ? & ? & ?), H2 as (? & ? & ? & ? & ? & ?).
    repeat split; congruence.
Qed.

Lemma find_free_slot_extends start d w : extends w (find_free_slot start d w).2.
Proof.
  unfold find_free_slot. destruct (cal_service w); [|apply extends_refl].
  destruct (adjust_start start); [|apply extends_refl]. split; [done|]. simpl.
  intros r t ?. exists t. split; [done|apply same_identity_refl].
Qed.

Lemma create_event_extends r name s e text w : extends w (create_event r name s e text w).2.
Proof.
  unfold create_event. destruct (cal_service w) as [c|]; [|apply extends_refl].
  destruct (events_insert G c _) as [[eid|err] c']; simpl;
    (split; [done|]; simpl; intros r' t ?; exists t; split; [done|apply same_identity_refl]).
Qed.

Lemma alloc_extends t w : extends w (alloc t w).2.
Proof.
  split; [done|]. simpl. intros r t' Hr. exists t'.
  split; [by apply lookup_app_l_Some|apply same_identity_refl].
Qed.

Lemma append_task_extends r w : extends w (append_task r w).2.
Proof.
  split; [by apply prefix_app_r|]. simpl. intros r' t ?. exists t.
  split; [done|apply same_identity_refl].
Qed.

Lemma replan_extends now w : extends w (replan now w).2.
Proof. split; [done|]. simpl. apply simple_plan_extends. Qed.

Lemma run_full_sync_extends items answers now w :
  extends w (run_full_sync items answers now w).2.
Proof.
  apply (run_full_sync_respects extends extends_refl extends_trans).
  - apply find_free_slot_extends.
  - apply create_event_extends.
  - intros r v w'. by apply update_extends.
  - intros r v w'. by apply update_extends.
  - apply alloc_extends.
  - apply append_task_extends.
  - apply replan_extends.
Qed.

Lemma run_agent_flow_extends new_tasks now w :
  extends w (run_agent_flow new_tasks now w).2.
Proof.
  apply (run_agent_flow_respects extends extends_refl extends_trans).
  - apply find_free_slot_extends.
  - apply create_event_extends.
  - intros r v w'. by apply update_extends.
  - intros r v w'. by apply update_extends.
  - apply alloc_extends.
  - apply append_task_extends.
  - apply replan_extends.
Qed.

(** X10.  Neither flow removes or reorders an entry of [STATE.tasks], and
    neither changes the [id], [title], [duration], [needsClarification],
    [pendingQuestions] or [isExternal] of a task: the flows append tasks and
    write [dueDate], [calendarEventId] and [planDay] only. *)
Theorem flows_only_append_and_reschedule w :
  (∀ items answers now, extends w (run_full_sync items answers now w).2)
  ∧ (∀ new_tasks now, extends w (run_agent_flow new_tasks now w).2).
Proof.
  split.
  - intros items answers now. apply run_full_sync_extends.
  - intros new_tasks now. apply run_agent_flow_extends.
Qed.

End FlowInvariants.

(** ** More of [simple_plan] *)
Section PlannerFacts.
Import Py Backend.

Lemma bucket_same_day now now' t : date_of now' = date_of now → bucket now' t = bucket now t.
Proof. intros Hd. unfold bucket. by rewrite !date_of_next_day, Hd. Qed.

(** [simple_plan], object by object. *)
Lemma simple_plan_lookup now objs refs r :
  simple_plan now objs refs !! r
  = (λ t, if decide (r ∈ refs) then with_planDay t (bucket now t) else t) <$> objs !! r.
Proof.
  induction refs as [|r0 refs IH] using rev_ind.
  - unfold simple_plan. cbn [foldl]. destruct (objs !! r) as [t|]; [|done].
    cbn [fmap option_fmap option_map]. case_decide as Hin; [|done].
    by apply elem_of_nil in Hin.
  - rewrite simple_plan_snoc. destruct (decide (r0 = r)) as [->|Hne].
    + rewrite list_lookup_alter_eq, IH. destruct (objs !! r) as [t|]; [|done].
      cbn [fmap option_fmap option_map].
      assert (Hin : r ∈ refs ++ [r]) by (apply elem_of_app; right; left).
      repeat case_decide; done.
    + rewrite list_lookup_alter_ne, IH by done. destruct (objs !! r) as [t|]; [|done].
      cbn [fmap option_fmap option_map].
      assert (Hiff : r ∈ refs ++ [r0] ↔ r ∈ refs).
      { rewrite elem_of_app, list_elem_of_singleton. split; [|by left].
        intros [?|?]; [done|congruence]. }
      repeat case_decide; tauto.
Qed.

(** X11.  [simple_plan] writes [planDay] and nothing else, and only of the
    tasks in [state.tasks]: every other field of every task, and every task
    object that is not in the list, is as it was. *)
Theorem simple_plan_writes_planDay_only now objs refs r t :
  objs !! r = Some t →
  ∃ v, simple_plan now objs refs !! r = Some (with_planDay t v)
       ∧ (r ∉ refs → v = planDay t)
       ∧ length (simple_plan now objs refs) = length objs.
Proof.
  intros Hr. rewrite simple_plan_lookup, Hr. simpl.
  assert (Hlen : length (simple_plan now objs refs) = length objs).
  { induction refs as [|r0 refs IH] using rev_ind; [done|].
    by rewrite simple_plan_snoc, length_alter. }
  destruct (decide (r ∈ refs)) as [Hin|Hnin].
  - exists (bucket now t). done.
  - exists (planDay t). split; [by destruct t|done].
Qed.

Lemma simple_plan_writes_planDay_only_witness :
  [Board.bank_call; Board.bank_call] !! 1%nat = Some Board.bank_call
  ∧ ∃ v, simple_plan (combine 100 8 0) [Board.bank_call; Board.bank_call] [0%nat] !! 1%nat
         = Some (with_planDay Board.bank_call v)
         ∧ (1%nat ∉ [0%nat] → v = planDay Board.bank_call)
         ∧ length (simple_plan (combine 100 8 0) [Board.bank_call; Board.bank_call] [0%nat])
           = length [Board.bank_call; Board.bank_call].
Proof.
  split; [reflexivity|].
  apply (simple_plan_writes_planDay_only (combine 100 8 0)
           [Board.bank_call; Board.bank_call] [0%nat] 1%nat Board.bank_call).
  reflexivity.
Defined.

(** X12.  Planning again on the same calendar day changes nothing: what
    [simple_plan] writes depends on the clock through its date only, and not
    on the [planDay] it finds.  ([demo_state] plans on every request.) *)
Theorem simple_plan_again_same_day now now' objs refs :
  date_of now' = date_of now →
  simple_plan now' (simple_plan now objs refs) refs = simple_plan now objs refs.
Proof.
  intros Hd. apply list_eq. intros r. rewrite !simple_plan_lookup.
  destruct (objs !! r) as [t|]; simpl; [|done].
  destruct (decide (r ∈ refs)); [|done]. f_equal.
  by rewrite bucket_with_planDay, (bucket_same_day now now' t Hd).
Qed.

(** Planned at 08:00 and again at 16:30 of day 100. *)
Lemma simple_plan_again_same_day_witness :
  date_of (combine 100 16 30) = date_of (combine 100 8 0)
  ∧ simple_plan (combine 100 16 30)
      (simple_plan (combine 100 8 0) [Board.bank_call] [0%nat]) [0%nat]
    = simple_plan (combine 100 8 0) [Board.bank_call] [0%nat].
Proof.
  split; [reflexivity|].
  apply (simple_plan_again_same_day (combine 100 8 0) (combine 100 16 30)
           [Board.bank_call] [0%nat]).
  reflexivity.
Defined.

End PlannerFacts.

(** ** Step 4 of [run_full_sync]: tasks read from the mailbox *)
Section GmailSync.
Import Py Backend.
Context {G : GoogleCalendar}.
Implicit Types (w : World G) (r : nat).

Lemma title_known_spec objs refs name :
  title_known objs refs name = true ↔
  ∃ r x, r ∈ refs ∧ objs !! r = Some x ∧ lower (title x) = lower name.
Proof.
  unfold title_known. rewrite existsb_exists. split.
  - intros (r & Hr%list_elem_of_In & Hx). destruct (objs !! r) as [x|] eqn:Hl; [|done].
    apply bool_decide_eq_true in Hx. by exists r, x.
  - intros (r & x & Hr & Hl & Hx). exists r. split; [by apply list_elem_of_In|].
    rewrite Hl. by apply bool_decide_eq_true.
Qed.

(** A title known stays known while tasks are only appended and keep their
    titles. *)
Lemma title_known_extends w w' name :
  extends w w' →
  title_known (objects w) (state_tasks w) name = true →
  title_known (objects w') (state_tasks w') name = true.
Proof.
  intros [Hpre Hobj]. rewrite !title_known_spec. intros (r & x & Hr & Hl & Hx).
  destruct (Hobj r x Hl) as (x' & Hl' & _ & Ht & _). exists r, x'.
  split; [|split; [done|congruence]].
  destruct Hpre as [k ->]. apply elem_of_app. by left.
Qed.

Lemma add_gmail_task_extends r w : extends w (add_gmail_task r w).2.
Proof.
  unfold add_gmail_task. destruct (objects w !! r) as [task|]; [|apply extends_refl].
  destruct (title_known _ _ _); [apply extends_refl|].
  split; [by apply prefix_app_r|]. simpl. intros r' t ?. exists t.
  split; [done|apply same_identity_refl].
Qed.

Lemma add_gmail_task_known r w task :
  objects w !! r = Some task →
  title_known (objects (add_gmail_task r w).2) (state_tasks (add_gmail_task r w).2)
    (title task) = true.
Proof.
  intros Hr. unfold add_gmail_task. rewrite Hr.
  destruct (title_known (objects w) (state_tasks w) (title task)) eqn:Hk; [done|].
  simpl. apply title_known_spec. exists r, task.
  split; [apply elem_of_app; right; left|done].
Qed.

Lemma add_gmail_task_objects r w : objects (add_gmail_task r w).2 = objects w.
Proof.
  unfold add_gmail_task. destruct (objects w !! r); [|done]. by destruct (title_known _ _ _).
Qed.

Lemma for_each_add_gmail_task_spec refs : ∀ w,
  (for_each add_gmail_task refs w).1 = Ret tt
  ∧ extends w (for_each add_gmail_task refs w).2
  ∧ objects (for_each add_gmail_task refs w).2 = objects w
  ∧ inserted (for_each add_gmail_task refs w).2 = inserted w
  ∧ cal_service (for_each add_gmail_task refs w).2 = cal_service w
  ∧ ∀ r task, r ∈ refs → objects w !! r = Some task →
      title_known (objects (for_each add_gmail_task refs w).2)
        (state_tasks (for_each add_gmail_task refs w).2) (title task) = true.
Proof.
  induction refs as [|r0 refs IH]; intros w; simpl.
  - split; [done|]. split; [apply extends_refl|]. do 3 (split; [done|]).
    intros r task Hr. by apply elem_of_nil in Hr.
  - unfold bind.
    pose proof (add_gmail_task_extends r0 w) as Hext.
    pose proof (add_gmail_task_objects r0 w) as Hobj.
    pose proof (add_gmail_task_known r0 w) as Hknown.
    assert (Hret : (add_gmail_task r0 w).1 = Ret tt
                   ∧ inserted (add_gmail_task r0 w).2 = inserted w
                   ∧ cal_service (add_gmail_task r0 w).2 = cal_service w).
    { unfold add_gmail_task. destruct (objects w !! r0); [|done].
      by destruct (title_known _ _ _). }
    destruct (add_gmail_task r0 w) as [[[]|e] w1]; simpl in *; [|by destruct Hret].
    destruct Hret as (_ & Hi & Hc).
    destruct (IH w1) as (Hr1 & Hext1 & Hobj1 & Hi1 & Hc1 & Hk1).
    split; [done|]. split; [by eapply extends_trans|]. split; [congruence|].
    split; [congruence|]. split; [congruence|].
    intros r task [->|Hr]%elem_of_cons Hl.
    + eapply title_known_extends; [exact Hext1|]. by apply Hknown.
    + apply (Hk1 r task); [done|]. by rewrite Hobj.
Qed.

(** Where [run_full_sync] stands after its step 4, and what it does to
    [STATE.tasks] after that: nothing. *)
Lemma run_full_sync_after_gmail items answers now w :
  let w2 := (for_each add_gmail_task
               (seq (length (objects w)) (length (parse_gmail_tasks items)))
               (alloc_all (parse_gmail_tasks items) w).2).2 in
  state_tasks (run_full_sync items answers now w).2 = state_tasks w2
  ∧ extends w2 (run_full_sync items answers now w).2.
Proof.
  set (same := λ w w' : World G, state_tasks w' = state_tasks w ∧ extends w w').
  assert (Hrefl : ∀ w, same w w) by (intros ?; split; [done|apply extends_refl]).
  assert (Htrans : ∀ w1 w2 w3, same w1 w2 → same w2 w3 → same w1 w3).
  { intros w1 w2 w3 [? ?] [? ?]. split; [congruence|by eapply extends_trans]. }
  assert (Hupd : ∀ r (f : Task → Task) w', (∀ t, same_identity t (f t)) →
                                            same w' (update r f w').2).
  { intros r f w' Hf. split; [done|by apply update_extends]. }
  assert (Hfind : ∀ start d w', same w' (find_free_slot start d w').2).
  { intros start d w'. unfold find_free_slot. destruct (cal_service w'); [|apply Hrefl].
    destruct (adjust_start start); [|apply Hrefl]. split; [done|]. split; [done|]. simpl.
    intros r t ?. exists t. split; [done|apply same_identity_refl]. }
  assert (Hcreate : ∀ r name s e text w', same w' (create_event r name s e text w').2).
  { intros r name s e text w'. unfold create_event.
    destruct (cal_service w') as [c|]; [|apply Hrefl].
    destruct (events_insert G c _) as [[eid|err] c']; simpl;
      (split; [done|]; split; [done|]; simpl; intros r' t ?; exists t;
       split; [done|apply same_identity_refl]). }
  assert (Hreplan : ∀ now w', same w' (replan now w').2).
  { intros now' w'. split; [done|]. split; [done|]. simpl. apply simple_plan_extends. }
  intros w2.
  change (same w2 (run_full_sync items answers now w).2). subst w2.
  unfold run_full_sync. unfold bind at 1.
  destruct (alloc_all_spec (parse_gmail_tasks items) w) as (Hrefs & _).
  destruct (alloc_all (parse_gmail_tasks items) w) as [[refs|err] w1]; simpl in *; [|done].
  injection Hrefs as ->. unfold bind at 1.
  destruct (for_each_add_gmail_task_spec
              (seq (length (objects w)) (length (parse_gmail_tasks items))) w1) as (Hret & _).
  destruct (for_each add_gmail_task _ w1) as [[[]|err] w2]; simpl in *; [|done].
  apply (bind_respects same Htrans); [apply Hrefl|]. intros plan w3.
  apply (bind_respects same Htrans).
  { apply (ask_deadlines_respects same Hrefl Htrans). intros r v w'. by apply Hupd. }
  intros _ w4. apply (bind_respects same Htrans); [apply Hrefl|]. intros sched w5.
  apply (bind_respects same Htrans); [apply Hrefl|]. intros dated w6.
  apply (bind_respects same Htrans); [|intros _ w7; apply Hreplan].
  apply (for_each_respects same Hrefl Htrans). intros r w'.
  apply attempt_respects.
  apply (schedule_auto_respects same Hrefl Htrans Hfind Hcreate).
  - intros r' v w''. by apply Hupd.
  - intros r' v w''. by apply Hupd.
Qed.

(** After a [run_full_sync], and whatever has been appended since, a Gmail
    step over titles that were read then appends nothing: step 4 compares
    the lower-cased titles of the tasks with those of [STATE.tasks]. *)
Lemma gmail_again_adds_nothing w items answers now wmid items' answers' now' :
  extends (run_full_sync items answers now w).2 wmid →
  Forall (λ it', ∃ it, it ∈ items
                       ∧ lower (capitalize (item_title it'))
                         = lower (capitalize (item_title it))) items' →
  state_tasks (run_full_sync items' answers' now' wmid).2 = state_tasks wmid.
Proof.
  intros Hmid Hsame.
  destruct (run_full_sync_after_gmail items answers now w) as [_ Hext1].
  set (w' := (run_full_sync items answers now w).2) in *.
  destruct (run_full_sync_after_gmail items' answers' now' wmid) as [-> _].
  destruct (alloc_all_spec (parse_gmail_tasks items) w) as (_ & Hobj & _).
  destruct (for_each_add_gmail_task_spec
              (seq (length (objects w)) (length (parse_gmail_tasks items)))
              (alloc_all (parse_gmail_tasks items) w).2) as (_ & _ & _ & _ & _ & Hknown).
  set (w2 := (for_each add_gmail_task _ (alloc_all (parse_gmail_tasks items) w).2).2) in *.
  (* every title read in the first run is still known *)
  assert (Hk : ∀ it, it ∈ items → item_title it ≠ "" →
                title_known (objects wmid) (state_tasks wmid)
                  (capitalize (item_title it)) = true).
  { intros it Hit Hne. eapply title_known_extends; [exact Hmid|].
    eapply title_known_extends; [exact Hext1|].
    assert (Hin : it ∈ filter (λ item, item_title item ≠ "") items)
      by by apply list_elem_of_filter.
    apply list_elem_of_lookup_1 in Hin as [k Hk].
    set (task := {| id := item_uuid it; title := capitalize (item_title it);
                    dueDate := item_due it;
                    duration := Some (default 60 (item_duration it));
                    planDay := "unscheduled"; needsClarification := false;
                    pendingQuestions := []; calendarEventId := None; isExternal := true |}).
    assert (Ht : parse_gmail_tasks items !! k = Some task).
    { unfold parse_gmail_tasks. by rewrite list_lookup_fmap, Hk. }
    apply (Hknown (length (objects w) + k)%nat task).
    - apply elem_of_seq. apply lookup_lt_Some in Ht. lia.
    - rewrite Hobj, lookup_app_r by lia.
      by replace (length (objects w) + k - length (objects w))%nat with k by lia. }
  (* so this step 4 appends nothing *)
  destruct (alloc_all_spec (parse_gmail_tasks items') wmid) as (_ & Hobj' & Hst' & _).
  assert (Hext' : extends wmid (alloc_all (parse_gmail_tasks items') wmid).2).
  { split; [by rewrite Hst'|]. rewrite Hobj'. intros r t Hr. exists t.
    split; [by apply lookup_app_l_Some|apply same_identity_refl]. }
  rewrite <- Hst'.
  assert (Hnew : ∀ r task, (length (objects wmid) ≤ r)%nat →
            objects (alloc_all (parse_gmail_tasks items') wmid).2 !! r = Some task →
            title_known (objects wmid) (state_tasks wmid) (title task) = true).
  { intros r task Hle Hl. rewrite Hobj', lookup_app_r in Hl by done.
    unfold parse_gmail_tasks in Hl. rewrite list_lookup_fmap in Hl.
    apply fmap_Some in Hl as (it' & Hit' & ->). simpl.
    apply list_elem_of_lookup_2, list_elem_of_filter in Hit' as [Hne Hit'].
    rewrite Forall_forall in Hsame. destruct (Hsame it' Hit') as (it & Hit & Hlow).
    assert (Hne' : item_title it ≠ "").
    { intros Heq. rewrite Heq in Hlow. destruct (item_title it'); [done|discriminate]. }
    specialize (Hk it Hit Hne'). apply title_known_spec in Hk as (r0 & x & ? & ? & Hx).
    apply title_known_spec. exists r0, x. split; [done|]. split; [done|].
    by rewrite Hx, Hlow. }
  set (w1 := (alloc_all (parse_gmail_tasks items') wmid).2) in *.
  assert (Hgo : ∀ refs w0, extends wmid w0 → objects w0 = objects w1 →
            Forall (λ r, (length (objects wmid) ≤ r)%nat) refs →
            state_tasks (for_each add_gmail_task refs w0).2 = state_tasks w0).
  { induction refs as [|r refs IH]; intros w0 He Ho Hall; simpl; [done|].
    apply Forall_cons in Hall as [Hr Hall]. unfold bind, add_gmail_task.
    destruct (objects w0 !! r) as [task|] eqn:Hl; [|by apply IH].
    rewrite (title_known_extends wmid w0 (title task) He); [by apply IH|].
    apply (Hnew r task Hr). by rewrite <- Ho. }
  apply Hgo; [done..|]. apply Forall_forall. intros r Hr%elem_of_seq. lia.
Qed.

End GmailSync.

(** ** Step 2 of [run_full_sync]: tasks read from the calendar *)
Section CalendarImport.
Import Py Backend.
Context {G : GoogleCalendar}.
Implicit Types (w : World G) (r : nat).

Lemma id_known_spec objs refs task_id :
  id_known objs refs task_id = true ↔
  ∃ r x, r ∈ refs ∧ objs !! r = Some x ∧ id x = task_id.
Proof.
  unfold id_known. rewrite existsb_exists. split.
  - intros (r & Hr%list_elem_of_In & Hx). destruct (objs !! r) as [x|] eqn:Hl; [|done].
    apply bool_decide_eq_true in Hx. by exists r, x.
  - intros (r & x & Hr & Hl & Hx). exists r. split; [by apply list_elem_of_In|].
    rewrite Hl. by apply bool_decide_eq_true.
Qed.

Lemma id_known_task_ids w task_id :
  id_known (objects w) (state_tasks w) task_id = true ↔ task_id ∈ task_ids w.
Proof.
  rewrite id_known_spec. unfold task_ids. rewrite list_elem_of_omap. split.
  - intros (r & x & Hr & Hl & Hx). exists r. split; [done|]. by rewrite Hl, <- Hx.
  - intros (r & Hr & Hx). apply fmap_Some in Hx as (x & Hl & ->). by exists r, x.
Qed.

(** What one round of the loop does: it raises and changes nothing, it
    skips the event, or it appends the event's task. *)
Lemma import_event_cases now ev w :
  (∃ e, event_times now ev = Raise e ∧ import_event now ev w = (Raise e, w))
  ∨ import_event now ev w = (Ret tt, w)
    ∧ (∀ e, event_times now ev ≠ Raise e)
    ∧ (∀ s e task_id, event_times now ev = Ret (Some (s, e)) →
         event_id ev = Some task_id → task_id ≠ "" →
         id_known (objects w) (state_tasks w) task_id = true)
  ∨ ∃ task_id s e,
      event_times now ev = Ret (Some (s, e)) ∧ event_id ev = Some task_id
      ∧ task_id ≠ "" ∧ id_known (objects w) (state_tasks w) task_id = false
      ∧ import_event now ev w
        = (Ret tt,
           {| objects := objects w
                ++ [event_task task_id (default "Untitled Event" (event_summary ev)) s e];
              state_tasks := state_tasks w ++ [length (objects w)];
              cal_service := cal_service w; inserted := inserted w |}).
Proof.
  unfold import_event. destruct (event_times now ev) as [[[s e]|]|err] eqn:Ht.
  - destruct (event_id ev) as [task_id|] eqn:Hid.
    + case_bool_decide as Hempty.
      * right. left. split; [done|]. split; [done|]. intros ??? _ [= <-] ?. done.
      * destruct (id_known (objects w) (state_tasks w) task_id) eqn:Hk.
        -- right. left. split; [done|]. split; [done|]. by intros ??? _ [= <-] _.
        -- right. right. by exists task_id, s, e.
    + right. left. split; [done|]. split; [done|]. by intros ??? _ ?.
  - right. left. split; [done|]. split; [done|]. by intros ??? ?.
  - left. by exists err.
Qed.

(** The loop only appends: objects and entries of [STATE.tasks] stay, and
    each new entry is the address of a new object made from an event with a
    non-empty id. *)
Lemma import_calendar_appends now events : ∀ w,
  ∃ new,
    objects (import_calendar now events w).2 = objects w ++ new
    ∧ state_tasks (import_calendar now events w).2
      = state_tasks w ++ seq (length (objects w)) (length new)
    ∧ cal_service (import_calendar now events w).2 = cal_service w
    ∧ inserted (import_calendar now events w).2 = inserted w
    ∧ Forall (λ t, ∃ ev s e task_id,
                ev ∈ events ∧ event_times now ev = Ret (Some (s, e))
                ∧ event_id ev = Some task_id ∧ task_id ≠ ""
                ∧ t = event_task task_id (default "Untitled Event" (event_summary ev)) s e)
        new.
Proof.
  unfold import_calendar. induction events as [|ev events IH]; intros w; simpl.
  - exists []. by rewrite !app_nil_r.
  - unfold bind.
    destruct (import_event_cases now ev w)
      as [(err & _ & ->)|[(-> & _)|(task_id & s & e & Ht & Hid & Hne & _ & ->)]]; simpl.
    + exists []. by rewrite !app_nil_r.
    + destruct (IH w) as (new & Ho & Hs & Hc & Hi & Hall). exists new.
      repeat split; [done..|]. eapply Forall_impl; [exact Hall|]. simpl.
      intros t (ev' & s & e & tid & ? & ?). exists ev', s, e, tid. split; [by right|done].
    + set (task := event_task task_id _ s e).
      set (w1 := {| objects := objects w ++ [task]; state_tasks := _;
                    cal_service := _; inserted := _ |}).
      destruct (IH w1) as (new & Ho & Hs & Hc & Hi & Hall). exists (task :: new).
      rewrite Ho, Hs. simpl. rewrite length_app. simpl.
      replace (length (objects w) + 1)%nat with (S (length (objects w))) by lia.
      rewrite <- !app_assoc. repeat split; [done..|]. constructor.
      * exists ev, s, e, task_id. split; [left|done].
      * eapply Forall_impl; [exact Hall|]. simpl.
        intros t (ev' & s' & e' & tid & ? & ?). exists ev', s', e', tid.
        split; [by right|done].
Qed.

Lemma task_ids_snoc w t :
  Forall (λ r, (r < length (objects w))%nat) (state_tasks w) →
  omap (λ r, id <$> (objects w ++ [t]) !! r) (state_tasks w ++ [length (objects w)])
  = task_ids w ++ [id t].
Proof.
  intros Hwf. rewrite omap_app. simpl. rewrite list_lookup_middle by done. simpl.
  f_equal. unfold task_ids. apply list_omap_ext. apply Forall_Forall2_diag.
  eapply Forall_impl; [exact Hwf|]. simpl. intros r Hr. by rewrite lookup_app_l.
Qed.

Lemma import_calendar_ids now events : ∀ w,
  Forall (λ r, (r < length (objects w))%nat) (state_tasks w) →
  NoDup (task_ids w) →
  task_ids w `prefix_of` task_ids (import_calendar now events w).2
  ∧ NoDup (task_ids (import_calendar now events w).2).
Proof.
  unfold import_calendar. induction events as [|ev events IH]; intros w Hwf Hnd; simpl.
  - done.
  - unfold bind.
    destruct (import_event_cases now ev w)
      as [(err & _ & ->)|[(-> & _)|(task_id & s & e & _ & _ & _ & Hk & ->)]]; simpl.
    + done.
    + by apply IH.
    + set (task := event_task task_id _ s e).
      set (w1 := {| objects := objects w ++ [task]; state_tasks := _;
                    cal_service := _; inserted := _ |}).
      assert (Hids : task_ids w1 = task_ids w ++ [task_id]) by by apply task_ids_snoc.
      destruct (IH w1) as [Hpre Hnd1].
      * simpl. rewrite length_app. simpl. apply Forall_app. split.
        -- eapply Forall_impl; [exact Hwf|]. simpl. intros; lia.
        -- constructor; [lia|done].
      * rewrite Hids. apply NoDup_app. split; [done|]. split; [|apply NoDup_singleton].
        intros i Hi ->%list_elem_of_singleton.
        apply id_known_task_ids in Hi. congruence.
      * split; [|done]. etrans; [|exact Hpre]. rewrite Hids. by apply prefix_app_r.
Qed.

(** X14.  Reading the calendar into [STATE.tasks] makes no two tasks of one
    id: when the ids of [STATE.tasks] are distinct before the loop of step 2
    they are distinct after it, whatever the events (two of one id, an event
    whose id a task has already) and whether or not the loop gets to its
    end; and the ids that were there stay, in their order. *)
Theorem calendar_import_keeps_ids_distinct now events w :
  Forall (λ r, (r < length (objects w))%nat) (state_tasks w) →
  NoDup (task_ids w) →
  NoDup (task_ids (import_calendar now events w).2)
  ∧ task_ids w `prefix_of` task_ids (import_calendar now events w).2.
Proof. intros Hwf Hnd. by destruct (import_calendar_ids now events w Hwf Hnd). Qed.

Lemma id_known_import_event now ev w task_id :
  id_known (objects w) (state_tasks w) task_id = true →
  id_known (objects (import_event now ev w).2) (state_tasks (import_event now ev w).2)
    task_id = true.
Proof.
  destruct (import_event_cases now ev w)
    as [(err & _ & ->)|[(-> & _)|(tid & s & e & _ & _ & _ & _ & ->)]]; simpl; [done..|].
  rewrite !id_known_spec. intros (r & x & Hr & Hl & Hx). exists r, x.
  split; [apply elem_of_app; by left|]. split; [by apply lookup_app_l_Some|done].
Qed.

Lemma id_known_import_calendar now events task_id : ∀ w,
  id_known (objects w) (state_tasks w) task_id = true →
  id_known (objects (import_calendar now events w).2)
    (state_tasks (import_calendar now events w).2) task_id = true.
Proof.
  unfold import_calendar. induction events as [|ev events IH]; intros w Hk; simpl; [done|].
  unfold bind. pose proof (id_known_import_event now ev w task_id Hk) as Hk1.
  destruct (import_event now ev w) as [[[]|err] w1]; simpl in *; [by apply IH|done].
Qed.

Lemma import_calendar_settled now events : ∀ w,
  (import_calendar now events w).1 = Ret tt →
  ∀ w',
    (∀ task_id,
       id_known (objects (import_calendar now events w).2)
         (state_tasks (import_calendar now events w).2) task_id = true →
       id_known (objects w') (state_tasks w') task_id = true) →
    import_calendar now events w' = (Ret tt, w').
Proof.
  unfold import_calendar. induction events as [|ev events IH]; intros w Hret w' Hmono;
    simpl in *; [done|].
  unfold bind in Hret, Hmono |- *.
  pose proof (λ tid, id_known_import_calendar now events tid (import_event now ev w).2) as Hlater.
  unfold import_calendar in Hlater.
  destruct (import_event_cases now ev w)
    as [(err & _ & Heq)|[(Heq & Hnoraise & Hk)|(tid & s & e & Ht & Hid & Hne & _ & Heq)]];
    rewrite Heq in Hret, Hmono, Hlater; simpl in *; [done| |].
  - assert (Hskip : import_event now ev w' = (Ret tt, w')).
    { destruct (import_event_cases now ev w')
        as [(err & Herr & _)|[(-> & _)|(tid & s & e & Ht & Hid & Hne & Hk' & _)]];
        [by destruct (Hnoraise err)|done|].
      rewrite Hmono in Hk'; [done|]. apply Hlater. by eapply Hk. }
    rewrite Hskip. simpl. by eapply IH.
  - assert (Hskip : import_event now ev w' = (Ret tt, w')).
    { unfold import_event. rewrite Ht, Hid. rewrite bool_decide_eq_false_2 by done.
      rewrite Hmono; [done|]. apply Hlater. apply id_known_spec.
      exists (length (objects w)), (event_task tid (default "Untitled Event" (event_summary ev)) s e).
      split; [apply elem_of_app; right; left|]. split; [|done].
      by apply list_lookup_middle. }
    rewrite Hskip. simpl. by eapply IH.
Qed.

(** X15.  Reading the same events again, at the same time of day, changes
    nothing: after a loop of step 2 that got to its end, a second loop over
    the same events appends no task and raises nothing, since every event it
    would add is found by its id. *)
Theorem calendar_import_again_adds_nothing now events w :
  (import_calendar now events w).1 = Ret tt →
  import_calendar now events (import_calendar now events w).2
  = (Ret tt, (import_calendar now events w).2).
Proof. intros Hret. by apply (import_calendar_settled now events w Hret). Qed.

End CalendarImport.

(** ** The endpoint [delete_task] *)
Section DeleteTask.
Import Py Backend.
Context {G : GoogleCalendar}.
Implicit Types (w : World G) (r : nat).

(** The task found by the loop is the one [remove] takes out: no earlier
    entry is that object or equals it, as none has its id. *)
Lemma first_with_id_split objs refs task_id r :
  first_with_id objs refs task_id = Some r →
  ∃ l1 l2 x,
    refs = l1 ++ r :: l2 ∧ objs !! r = Some x ∧ id x = task_id
    ∧ id_known objs l1 task_id = false
    ∧ py_remove objs r refs = l1 ++ l2.
Proof.
  induction refs as [|r' refs IH]; simpl; [done|].
  destruct (objs !! r') as [x'|] eqn:Hl'.
  - case_bool_decide as Hid.
    + intros [= <-]. exists [], refs, x'. rewrite bool_decide_eq_true_2 by done. done.
    + intros (l1 & l2 & x & -> & Hl & Hx & Hk & Hrm)%IH.
      exists (r' :: l1), l2, x. simpl. rewrite Hl'.
      rewrite (bool_decide_eq_false_2 (id x' = task_id)) by done. simpl.
      rewrite (bool_decide_eq_false_2 (r' = r)) by (intros ->; congruence).
      rewrite (bool_decide_eq_false_2 (Some x' = objs !! r)) by (rewrite Hl; congruence).
      simpl. by rewrite Hrm.
  - intros (l1 & l2 & x & -> & Hl & Hx & Hk & Hrm)%IH.
    exists (r' :: l1), l2, x. simpl. rewrite Hl'. simpl.
    rewrite (bool_decide_eq_false_2 (r' = r)) by (intros ->; congruence).
    rewrite (bool_decide_eq_false_2 (None = objs !! r)) by (rewrite Hl; congruence).
    simpl. by rewrite Hrm.
Qed.

Lemma first_with_id_none objs refs task_id :
  first_with_id objs refs task_id = None ↔ id_known objs refs task_id = false.
Proof.
  unfold id_known. induction refs as [|r refs IH]; simpl; [done|].
  destruct (objs !! r) as [x|]; simpl; [|done].
  case_bool_decide; simpl; [|done]. split; discriminate.
Qed.

(** X16.  [delete_task] takes out of [STATE.tasks] the first task of the
    given id and no other entry, and answers [ok]; when no task has the id it
    changes nothing and answers not [ok].  With distinct ids no task of the
    id is left. *)
Theorem delete_task_removes_first_match task_id w :
  (id_known (objects w) (state_tasks w) task_id = false →
     delete_task task_id w = (Ret (false, None), w))
  ∧ (id_known (objects w) (state_tasks w) task_id = true →
       ∃ l1 r l2 t event,
         state_tasks w = l1 ++ r :: l2
         ∧ objects w !! r = Some t ∧ id t = task_id
         ∧ id_known (objects w) l1 task_id = false
         ∧ delete_task task_id w
           = (Ret (true, event),
              {| objects := objects w; state_tasks := l1 ++ l2;
                 cal_service := cal_service w; inserted := inserted w |}))
  ∧ (NoDup (task_ids w) →
       id_known (objects (delete_task task_id w).2)
         (state_tasks (delete_task task_id w).2) task_id = false).
Proof.
  split; [|split].
  - intros Hk. unfold delete_task.
    by rewrite (proj2 (first_with_id_none _ _ _) Hk).
  - intros Hk. unfold delete_task.
    destruct (first_with_id (objects w) (state_tasks w) task_id) as [r|] eqn:Hf.
    + destruct (first_with_id_split _ _ _ _ Hf) as (l1 & l2 & x & Hs & Hl & Hx & Hk1 & Hrm).
      exists l1, r, l2, x. eexists. rewrite Hrm. done.
    + apply first_with_id_none in Hf. congruence.
  - intros Hnd. unfold delete_task.
    destruct (first_with_id (objects w) (state_tasks w) task_id) as [r|] eqn:Hf; simpl.
    + destruct (first_with_id_split _ _ _ _ Hf) as (l1 & l2 & x & Hs & Hl & Hx & Hk1 & Hrm).
      rewrite Hrm. unfold task_ids in Hnd. rewrite Hs, omap_app in Hnd. simpl in Hnd.
      rewrite Hl in Hnd. simpl in Hnd. apply NoDup_app in Hnd as (_ & _ & Hnd).
      apply NoDup_cons in Hnd as [Hnotin _].
      destruct (id_known (objects w) (l1 ++ l2) task_id) eqn:Hk; [|done].
      apply id_known_spec in Hk as (r' & x' & [Hr'|Hr']%elem_of_app & Hl' & Hx').
      * assert (id_known (objects w) l1 task_id = true); [|congruence].
        apply id_known_spec. by exists r', x'.
      * exfalso. apply Hnotin. rewrite Hx. apply list_elem_of_omap. exists r'.
        split; [done|]. by rewrite Hl', <- Hx'.
    + by apply first_with_id_none.
Qed.

(** X17.  A task that step 2 of [run_full_sync] read from the calendar is
    handed to [GOOGLE.delete_event] by [delete_task] exactly when its event
    was one of the agent's own, titled 'FlowPilot:...'; deleting a task read
    from any other event takes it out of [STATE.tasks] and leaves the
    calendar alone. *)
Theorem deleting_imported_task_spares_foreign_events now events task_id w :
  Forall (λ r, (r < length (objects w))%nat) (state_tasks w) →
  id_known (objects w) (state_tasks w) task_id = false →
  id_known (objects (import_calendar now events w).2)
    (state_tasks (import_calendar now events w).2) task_id = true →
  ∃ t, t ∈ objects (import_calendar now events w).2 ∧ id t = task_id
       ∧ isExternal t = negb (String.prefix "FlowPilot:" (title t))
       ∧ (delete_task task_id (import_calendar now events w).2).1
         = Ret (true, if isExternal t then None else Some task_id).
Proof.
  intros Hwf Hold Hnew.
  destruct (import_calendar_appends now events w) as (new & Ho & Hs & _ & _ & Hall).
  set (w' := (import_calendar now events w).2) in *.
  unfold delete_task.
  destruct (first_with_id (objects w') (state_tasks w') task_id) as [r|] eqn:Hf.
  2:{ apply first_with_id_none in Hf. congruence. }
  destruct (first_with_id_split _ _ _ _ Hf) as (l1 & l2 & x & Hsplit & Hl & Hx & _).
  assert (Hr : r ∈ state_tasks w') by (rewrite Hsplit; apply elem_of_app; right; left).
  rewrite Hs in Hr. apply elem_of_app in Hr as [Hr|Hr].
  { exfalso. rewrite Ho in Hl.
    assert (id_known (objects w) (state_tasks w) task_id = true); [|congruence].
    apply id_known_spec. destruct (objects w !! r) as [x0|] eqn:Hl0.
    - exists r, x0. split; [done|]. split; [done|].
      rewrite (lookup_app_l_Some _ _ _ _ Hl0) in Hl. congruence.
    - apply lookup_ge_None in Hl0. rewrite Forall_forall in Hwf.
      specialize (Hwf r Hr). lia. }
  apply elem_of_seq in Hr as [Hlo Hhi].
  rewrite Ho, lookup_app_r in Hl by lia.
  rewrite Forall_forall in Hall.
  destruct (Hall x) as (ev & s & e & tid & _ & _ & _ & Hne & Hxe);
    [by eapply list_elem_of_lookup_2|].
  exists x. split; [rewrite Ho; apply elem_of_app; right; by eapply list_elem_of_lookup_2|].
  split; [done|]. simpl. rewrite Ho, lookup_app_r by lia. rewrite Hl.
  assert (tid = task_id) as -> by (rewrite Hxe in Hx; done).
  rewrite Hxe. simpl. destruct (String.prefix "FlowPilot:" _); simpl; [|done].
  by rewrite bool_decide_eq_false_2.
Qed.

End DeleteTask.

(** ** The flows, the endpoint and a missing calendar client *)
Section FlowCompositions.
Import Py Backend.
Context {G : GoogleCalendar}.
Implicit Types (w : World G) (r : nat).

(** X18.  A task that [run_full_sync] read from the mailbox is never handed
    to [GOOGLE.delete_event]: [delete_task] takes it out of [STATE.tasks] and
    leaves on the calendar the event the sync may have made for it, since
    the task is marked external. *)
Theorem deleting_gmail_task_leaves_its_event items answers now w k task task_id :
  parse_gmail_tasks items !! k = Some task →
  first_with_id (objects (run_full_sync items answers now w).2)
    (state_tasks (run_full_sync items answers now w).2) task_id
  = Some (length (objects w) + k)%nat →
  (delete_task task_id (run_full_sync items answers now w).2).1 = Ret (true, None).
Proof.
  intros Hk Hf.
  destruct (run_full_sync_after_gmail items answers now w) as [_ [_ Hobj]].
  destruct (alloc_all_spec (parse_gmail_tasks items) w) as (_ & Ho & _).
  destruct (for_each_add_gmail_task_spec
              (seq (length (objects w)) (length (parse_gmail_tasks items)))
              (alloc_all (parse_gmail_tasks items) w).2) as (_ & _ & Ho2 & _).
  destruct (Hobj (length (objects w) + k)%nat task) as (t' & Hl' & Hsame).
  { rewrite Ho2, Ho, lookup_app_r by lia.
    by replace (length (objects w) + k - length (objects w))%nat with k by lia. }
  unfold delete_task. rewrite Hf. simpl. rewrite Hl'.
  destruct Hsame as (_ & _ & _ & _ & _ & Hext).
  pose proof (parse_gmail_tasks_ready items) as Hready. rewrite Forall_forall in Hready.
  destruct (Hready task) as [_ Hx]; [by eapply list_elem_of_lookup_2|].
  rewrite Hext, Hx. simpl. by destruct (calendarEventId t').
Qed.

Lemma alter_out_of_range {A} (f : A → A) (l : list A) i : l !! i = None → alter f i l = l.
Proof.
  intros Hi. apply list_eq. intros j. destruct (decide (i = j)) as [->|Hne].
  - by rewrite list_lookup_alter_eq, Hi.
  - by rewrite list_lookup_alter_ne.
Qed.

(** What the loop of [run_agent_flow] does to a task when there is no
    client: the two fields are written, unless the end time overflowed. *)
Local Abbreviation mark now :=
  (λ t : Task,
     if bool_decide (datetime_min
                     ≤ default now (dueDate t) + minutes (default 60 (duration t))
                     ≤ datetime_max)
     then with_dueDate
            (with_calendarEventId t (Some "ERROR: Google Calendar service not available."))
            (Some (default now (dueDate t)))
     else t).

(** With [GOOGLE.cal_service] missing, one round of the loop of
    [run_agent_flow] inserts nothing and marks the task. *)
Lemma attempt_schedule_voice_no_client now r w :
  cal_service w = None →
  attempt (schedule_voice now r) w
  = (Ret tt,
     {| objects := alter (mark now) r (objects w);
        state_tasks := state_tasks w; cal_service := None; inserted := inserted w |}).
Proof.
  intros Hc. unfold attempt, schedule_voice, bind at 1, get. simpl.
  destruct (objects w !! r) as [task|] eqn:Hl.
  - assert (Hstart :
        (match dueDate task with
         | Some due => ret due
         | None => find_free_slot now (default 60 (duration task))
         end) w = (Ret (default now (dueDate task)), w)).
    { destruct (dueDate task); [done|]. unfold find_free_slot. by rewrite Hc. }
    unfold bind at 1. rewrite Hstart. unfold bind at 1, find_free_slot at 1. rewrite Hc.
    rewrite bind_add_minutes. case_bool_decide as Hrange.
    + unfold bind, create_event, update. rewrite Hc. simpl. f_equal. f_equal; [|done].
      apply list_eq. intros j. destruct (decide (r = j)) as [->|Hne].
      * rewrite !list_lookup_alter_eq, Hl. simpl. by rewrite bool_decide_true.
      * by rewrite !list_lookup_alter_ne.
    + simpl. f_equal. destruct w as [objs refs c ins]. simpl in *. subst c. f_equal.
      apply list_eq. intros j. destruct (decide (r = j)) as [->|Hne].
      * rewrite list_lookup_alter_eq, Hl. simpl. by rewrite bool_decide_false.
      * by rewrite list_lookup_alter_ne.
  - unfold ret. simpl. rewrite alter_out_of_range by done. destruct w. simpl in *.
    by rewrite Hc.
Qed.

Lemma for_each_schedule_voice_no_client now l : ∀ w,
  cal_service w = None →
  for_each (λ r, attempt (schedule_voice now r)) l w
  = (Ret tt,
     {| objects := foldl (λ objs r, alter (mark now) r objs) (objects w) l;
        state_tasks := state_tasks w; cal_service := None; inserted := inserted w |}).
Proof.
  induction l as [|r l IH]; intros w Hc; simpl.
  - unfold ret. destruct w. simpl in *. by rewrite Hc.
  - unfold bind. rewrite (attempt_schedule_voice_no_client now r w Hc). by rewrite IH.
Qed.

Lemma mark_again now t : mark now (mark now t) = mark now t.
Proof.
  destruct (bool_decide (datetime_min
                         ≤ default now (dueDate t) + minutes (default 60 (duration t))
                         ≤ datetime_max)) eqn:Hin; rewrite ?Hin; [|done].
  destruct t. simpl in *. by rewrite Hin.
Qed.

Lemma foldl_alter_lookup {A} (f : A → A) (l : list nat) (objs : list A) r :
  (∀ a, f (f a) = f a) →
  foldl (λ objs r, alter f r objs) objs l !! r
  = (λ a, if decide (r ∈ l) then f a else a) <$> objs !! r.
Proof.
  intros Hf. induction l as [|r0 l IH] using rev_ind.
  - cbn [foldl]. destruct (objs !! r) as [a|]; [|done].
    cbn [fmap option_fmap option_map]. case_decide as Hin; [|done].
    by apply elem_of_nil in Hin.
  - rewrite foldl_app. cbn [foldl]. destruct (decide (r0 = r)) as [->|Hne].
    + rewrite list_lookup_alter_eq, IH. destruct (objs !! r) as [a|]; [|done].
      cbn [fmap option_fmap option_map].
      assert (Hin : r ∈ l ++ [r]) by (apply elem_of_app; right; left).
      repeat case_decide; by rewrite ?Hf.
    + rewrite list_lookup_alter_ne, IH by done. destruct (objs !! r) as [a|]; [|done].
      cbn [fmap option_fmap option_map].
      assert (Hiff : r ∈ l ++ [r0] ↔ r ∈ l).
      { rewrite elem_of_app, list_elem_of_singleton. split; [|by left].
        intros [?|?]; [done|congruence]. }
      repeat case_decide; tauto.
Qed.

Lemma for_each_append_task_spec refs : ∀ w,
  for_each append_task refs w
  = (Ret tt, {| objects := objects w; state_tasks := state_tasks w ++ refs;
                cal_service := cal_service w; inserted := inserted w |}).
Proof.
  induction refs as [|r refs IH]; intros w; simpl.
  - unfold ret. rewrite app_nil_r. by destruct w.
  - unfold bind, append_task. rewrite IH. simpl. by rewrite <- app_assoc.
Qed.

Lemma run_agent_flow_nonempty new_tasks now :
  new_tasks ≠ [] →
  run_agent_flow (G := G) new_tasks now
  = bind (alloc_all new_tasks)
      (λ new_refs,
         bind (for_each append_task new_refs)
           (λ _, bind (λ w, (Ret (filter (λ r, is_ready (objects w) r = true) new_refs), w))
                   (λ tasks_to_schedule,
                      bind (for_each (λ r, attempt (schedule_voice now r)) tasks_to_schedule)
                        (λ _, replan now)))).
Proof. by destruct new_tasks. Qed.

(** X19.  With no calendar client ([GOOGLE.cal_service] is [None]),
    [run_agent_flow] makes no event.  A new task that needs no clarification
    is marked as booked all the same when its end time is a [datetime]: the
    text that [create_event] returns in place of an event id, 'ERROR: Google
    Calendar service not available.', is stored as its [calendarEventId],
    and a task without a due date gets the current time as its [dueDate].
    When the end time is none (the sum of line 709 raises [OverflowError]),
    the [except] of the loop takes over and both fields stay as they
    were. *)
Theorem agent_flow_without_client_stores_error_text new_tasks now w k t :
  cal_service w = None →
  new_tasks !! k = Some t → needsClarification t = false →
  inserted (run_agent_flow new_tasks now w).2 = inserted w
  ∧ ∃ t', objects (run_agent_flow new_tasks now w).2 !! (length (objects w) + k)%nat
          = Some t'
          ∧ title t' = title t
          ∧ (datetime_min
             ≤ default now (dueDate t) + minutes (default 60 (duration t))
             ≤ datetime_max →
             calendarEventId t' = Some "ERROR: Google Calendar service not available."
             ∧ dueDate t' = Some (default now (dueDate t)))
          ∧ (¬ (datetime_min
                ≤ default now (dueDate t) + minutes (default 60 (duration t))
                ≤ datetime_max) →
             calendarEventId t' = calendarEventId t ∧ dueDate t' = dueDate t).
Proof.
  intros Hc Hk Hready.
  destruct (alloc_all_spec new_tasks w) as (Hrefs & Ho & Hs & Hi).
  assert (Hc1 : cal_service (alloc_all new_tasks w).2 = None).
  { clear -Hc. revert w Hc. induction new_tasks as [|x l IH]; intros w Hc; simpl; [done|].
    unfold bind, alloc. simpl.
    set (w1 := {| objects := objects w ++ [x]; state_tasks := _;
                  cal_service := _; inserted := _ |}).
    specialize (IH w1 Hc). by destruct (alloc_all l w1) as [[rs|e] w2]. }
  set (r := (length (objects w) + k)%nat).
  assert (Hfinal : ∃ chosen,
    r ∈ chosen
    ∧ run_agent_flow new_tasks now w
      = (Ret tt,
         {| objects :=
              simple_plan now
                (foldl (λ objs r, alter (mark now) r objs) (objects w ++ new_tasks) chosen)
                (state_tasks w ++ seq (length (objects w)) (length new_tasks));
            state_tasks := state_tasks w ++ seq (length (objects w)) (length new_tasks);
            cal_service := None; inserted := inserted w |})).
  { rewrite run_agent_flow_nonempty by (intros ->; done). unfold bind at 1.
    destruct (alloc_all new_tasks w) as [[refs|e] w1]; simpl in Hrefs, Ho, Hs, Hi, Hc1; [|done].
    injection Hrefs as ->. cbn [fst snd]. unfold bind at 1.
    rewrite for_each_append_task_spec.
    unfold bind at 1. cbn [fst snd objects]. unfold bind at 1.
    rewrite for_each_schedule_voice_no_client by done.
    cbn [fst snd objects inserted state_tasks cal_service replan].
    eexists. split; [|by rewrite Ho, Hs, Hi].
    apply list_elem_of_filter. split.
    - unfold is_ready. cbn [objects]. rewrite ?Ho, lookup_app_r by (unfold r; lia).
      replace (r - length (objects w))%nat with k by (unfold r; lia).
      by rewrite Hk, Hready.
    - apply elem_of_seq. apply lookup_lt_Some in Hk. unfold r. lia. }
  destruct Hfinal as (chosen & Hin & ->). cbn [fst snd objects inserted].
  split; [done|].
  rewrite simple_plan_lookup, (foldl_alter_lookup (mark now)) by apply mark_again.
  rewrite lookup_app_r by (unfold r; lia).
  replace (r - length (objects w))%nat with k by (unfold r; lia). rewrite Hk.
  cbn [fmap option_fmap option_map]. rewrite (decide_True (P := r ∈ chosen)) by done.
  eexists. split; [done|].
  case_bool_decide as Hrange.
  - split; [by case_decide|]. split; [by case_decide|]. done.
  - split; [by case_decide|]. split; [done|]. by case_decide.
Qed.

End FlowCompositions.

(** ** Which tasks the flows book *)
Section BookedTasks.
Import Py Backend.
Context {G : GoogleCalendar}.
Implicit Types (w : World G) (r : nat).

Lemma wants_deadline_spec (objs : list Task) r :
  wants_deadline objs r = true →
  ∃ t, objs !! r = Some t ∧ dueDate t = None ∧ planDay t = "unscheduled"
       ∧ needsClarification t = false.
Proof.
  unfold wants_deadline. destruct (objs !! r) as [t|]; [|done].
  intros [Hdp Hn%negb_true_iff]%andb_prop.
  apply andb_prop in Hdp as [Hd%bool_decide_eq_true Hp%bool_decide_eq_true].
  by exists t.
Qed.

(** Step 4 puts into [STATE.tasks] nothing but Gmail tasks. *)
Lemma for_each_add_gmail_task_refs refs : ∀ w r,
  r ∈ state_tasks (for_each add_gmail_task refs w).2 → r ∈ state_tasks w ∨ r ∈ refs.
Proof.
  induction refs as [|r0 refs IH]; intros w r; simpl; [by left|].
  unfold bind.
  assert (Hstep : (add_gmail_task r0 w).1 = Ret tt
                  ∧ ∀ r, r ∈ state_tasks (add_gmail_task r0 w).2 →
                         r ∈ state_tasks w ∨ r = r0).
  { unfold add_gmail_task. destruct (objects w !! r0); [|by split; [|left]].
    destruct (title_known _ _ _); [by split; [|left]|]. split; [done|]. simpl.
    intros r' [?|Hr']%elem_of_app; [by left|right].
    by apply list_elem_of_singleton in Hr'. }
  destruct (add_gmail_task r0 w) as [[[]|e] w1]; simpl in *;
    destruct Hstep as [Hret Hsub]; [|done].
  intros [Hr|Hr]%IH.
  - destruct (Hsub r Hr) as [?| ->]; [by left|right; left].
  - right. by right.
Qed.

(** Whom [run_full_sync] books: a Gmail task of this run, or a task that
    step 5 took, which was in [STATE.tasks] without a due date. *)
Lemma run_full_sync_books items answers now w (Q : nat → Prop) :
  (∀ r, (length (objects w) ≤ r < length (objects w) + length (parse_gmail_tasks items))%nat →
        Q r) →
  (∀ r t0, r ∈ state_tasks w → objects w !! r = Some t0 → dueDate t0 = None →
           planDay t0 = "unscheduled" → needsClarification t0 = false → Q r) →
  ∀ ins, ins ∈ new_insertions w (run_full_sync items answers now w).2 → Q (for_task ins).
Proof.
  intros Hnew Hold ins Hin.
  destruct (alloc_all_spec (parse_gmail_tasks items) w) as (Hrefs & Hobj & Hst & Hi).
  apply (keeps_new_insertions Q w (alloc_all (parse_gmail_tasks items) w).2
           (run_full_sync items answers now w).2 ins Hi); [|done].
  clear ins Hin. unfold run_full_sync. unfold bind at 1.
  destruct (alloc_all (parse_gmail_tasks items) w) as [[refs|err] w1];
    simpl in *; [|apply keeps_refl].
  injection Hrefs as ->.
  unfold bind at 1.
  pose proof (for_each_keeps add_gmail_task
                (seq (length (objects w)) (length (parse_gmail_tasks items))) Q w1
                (λ r w' _, add_gmail_task_keeps Q r w')) as H2.
  destruct (for_each_add_gmail_task_spec
              (seq (length (objects w)) (length (parse_gmail_tasks items))) w1)
    as (_ & _ & Hobj2 & _).
  pose proof (for_each_add_gmail_task_refs
                (seq (length (objects w)) (length (parse_gmail_tasks items))) w1) as Hrefs2.
  destruct (for_each add_gmail_task _ w1) as [[[]|err] w2]; simpl in *; [|done].
  eapply keeps_trans; [exact H2|].
  unfold bind at 1. simpl.
  set (plan := filter (λ r, wants_deadline (objects w2) r = true) (state_tasks w2)).
  unfold bind at 1.
  pose proof (ask_deadlines_keeps Q plan answers w2) as H4.
  destruct (ask_deadlines plan answers w2) as [[[]|err] w3]; simpl in *; [|done].
  eapply keeps_trans; [exact H4|].
  unfold bind at 1. simpl. unfold bind at 1. simpl. unfold bind at 1.
  match goal with |- context [for_each _ ?l w3] => set (chosen := l) end.
  pose proof (for_each_attempt_keeps schedule_auto chosen w3 schedule_auto_keeps) as H7.
  assert (Hchosen : ∀ r, r ∈ chosen → Q r).
  { intros r [Hr|Hr]%elem_of_app.
    - apply list_elem_of_filter in Hr as [_ Hr]. apply list_elem_of_filter in Hr as [Hw Hr].
      apply wants_deadline_spec in Hw as (t & Hl & Hd & Hp & Hn).
      rewrite Hobj2, Hobj in Hl.
      destruct (decide (r < length (objects w))%nat) as [Hlt|Hge].
      + rewrite lookup_app_l in Hl by done.
        apply Hrefs2 in Hr as [Hr|Hr%elem_of_seq]; [|lia]. rewrite Hst in Hr.
        by eapply Hold.
      + apply Hnew. apply lookup_lt_Some in Hl. rewrite length_app in Hl. lia.
    - apply list_elem_of_filter in Hr as [_ Hr%elem_of_seq]. apply Hnew. lia. }
  apply (keeps_mono _ Q _ _ Hchosen) in H7.
  destruct (for_each _ chosen w3) as [[[]|err] w4]; simpl in *; [|done].
  eapply keeps_trans; [exact H7|]. apply replan_keeps.
Qed.

(** Whom [run_agent_flow] books: a task it has just parsed, and one that
    needs no clarification. *)
Lemma run_agent_flow_books new_tasks now w ins :
  ins ∈ new_insertions w (run_agent_flow new_tasks now w).2 →
  ∃ k t0, new_tasks !! k = Some t0 ∧ for_task ins = (length (objects w) + k)%nat
          ∧ needsClarification t0 = false.
Proof.
  intros Hin. destruct new_tasks as [|t0 ts].
  { simpl in Hin. unfold new_insertions in Hin. rewrite drop_all in Hin.
    by apply elem_of_nil in Hin. }
  remember (t0 :: ts) as new_tasks eqn:Hnt.
  assert (Hne : new_tasks ≠ []) by (by subst).
  clear t0 ts Hnt.
  set (Q := λ r, ∃ k t, new_tasks !! k = Some t ∧ r = (length (objects w) + k)%nat
                        ∧ needsClarification t = false).
  destruct (alloc_all_spec new_tasks w) as (Hrefs & Hobj & Hst & Hi).
  apply (keeps_new_insertions Q w (alloc_all new_tasks w).2
           (run_agent_flow new_tasks now w).2 ins Hi); [|done].
  clear ins Hin. rewrite run_agent_flow_nonempty by done. unfold bind at 1.
  destruct (alloc_all new_tasks w) as [[refs|err] w1]; simpl in *; [|apply keeps_refl].
  injection Hrefs as ->.
  unfold bind at 1.
  pose proof (for_each_keeps append_task (seq (length (objects w)) (length new_tasks)) Q w1
                (λ r w' _, append_task_keeps Q r w')) as H2.
  pose proof (for_each_append_task_spec (seq (length (objects w)) (length new_tasks)) w1)
    as Hspec.
  destruct (for_each append_task _ w1) as [[[]|err] w2]; simpl in *; [|done].
  eapply keeps_trans; [exact H2|].
  unfold bind at 1. simpl. unfold bind at 1.
  set (chosen := filter (λ r, is_ready (objects w2) r = true)
                   (seq (length (objects w)) (length new_tasks))).
  pose proof (for_each_attempt_keeps (schedule_voice now) chosen w2
                (schedule_voice_keeps now)) as H4.
  assert (Hchosen : ∀ r, r ∈ chosen → Q r).
  { intros r [Hr Hs%elem_of_seq]%list_elem_of_filter.
    injection Hspec as ->. simpl in Hr. unfold is_ready in Hr.
    rewrite Hobj, lookup_app_r in Hr by lia.
    destruct (new_tasks !! (r - length (objects w))%nat) as [t|] eqn:Hl; [|done].
    exists (r - length (objects w))%nat, t. split; [done|]. split; [lia|].
    by apply negb_true_iff. }
  apply (keeps_mono _ Q _ _ Hchosen) in H4.
  destruct (for_each _ chosen w2) as [[[]|err] w3]; simpl in *; [|done].
  eapply keeps_trans; [exact H4|]. apply replan_keeps.
Qed.

(** A task [run_agent_flow] has parsed is where it was put, with its
    identity. *)
Lemma agent_flow_new_task new_tasks now w k t0 :
  new_tasks !! k = Some t0 →
  ∃ t', objects (run_agent_flow new_tasks now w).2 !! (length (objects w) + k)%nat = Some t'
        ∧ same_identity t0 t'.
Proof.
  intros Hk.
  assert (Hext : extends (alloc_all new_tasks w).2 (run_agent_flow new_tasks now w).2).
  { rewrite run_agent_flow_nonempty by (by intros ->). unfold bind at 1.
    destruct (alloc_all_spec new_tasks w) as (Hrefs & _).
    destruct (alloc_all new_tasks w) as [[refs|e] w1]; simpl in *; [|done].
    apply (bind_respects extends extends_trans).
    { apply (for_each_respects extends extends_refl extends_trans).
      intros r w'. apply append_task_extends. }
    intros _ w2. apply (bind_respects extends extends_trans); [apply extends_refl|].
    intros sched w3.
    apply (bind_respects extends extends_trans); [|intros _ w4; apply replan_extends].
    apply (for_each_respects extends extends_refl extends_trans). intros r w'.
    apply attempt_respects.
    apply (schedule_voice_respects extends extends_refl extends_trans).
    - apply find_free_slot_extends.
    - apply create_event_extends.
    - intros r' v w''. by apply update_extends.
    - intros r' v w''. by apply update_extends. }
  destruct Hext as [_ Hobj]. destruct (alloc_all_spec new_tasks w) as (_ & Ho & _).
  apply Hobj. rewrite Ho, lookup_app_r by lia.
  by replace (length (objects w) + k - length (objects w))%nat with k by lia.
Qed.

(** One round of the Canvas loop raises and changes nothing, skips the
    component, or appends a task that has a due date. *)
Lemma import_canvas_event_cases ev w :
  (∃ e, import_canvas_event ev w = (Raise e, w))
  ∨ import_canvas_event ev w = (Ret tt, w)
  ∨ ∃ task,
      dueDate task ≠ None
      ∧ import_canvas_event ev w
        = (Ret tt,
           {| objects := objects w ++ [task];
              state_tasks := state_tasks w ++ [length (objects w)];
              cal_service := cal_service w; inserted := inserted w |}).
Proof.
  unfold import_canvas_event.
  destruct (vevent_dtstart ev) as [[d|due]|]; [by right; left| |by left; exists AttributeError].
  destruct (canvas_duration due (vevent_dtend ev)) as [duration|e]; [|by left; exists e].
  destruct (id_known _ _ _); [by right; left|]. right. right.
  by exists (canvas_task ("ics-" +:+ vevent_hash ev) (vevent_summary ev) due duration).
Qed.

(** The Canvas loop only appends, and every task it makes has a due
    date. *)
Lemma import_canvas_ics_appends vevents : ∀ w,
  ∃ new,
    objects (import_canvas_ics vevents w).2 = objects w ++ new
    ∧ state_tasks (import_canvas_ics vevents w).2
      = state_tasks w ++ seq (length (objects w)) (length new)
    ∧ cal_service (import_canvas_ics vevents w).2 = cal_service w
    ∧ inserted (import_canvas_ics vevents w).2 = inserted w
    ∧ Forall (λ t, dueDate t ≠ None) new.
Proof.
  unfold import_canvas_ics. induction vevents as [|ev vevents IH]; intros w; simpl.
  - exists []. by rewrite !app_nil_r.
  - unfold bind.
    destruct (import_canvas_event_cases ev w) as [(e & ->)|[->|(task & Hd & ->)]]; simpl.
    + exists []. by rewrite !app_nil_r.
    + apply IH.
    + set (w1 := {| objects := objects w ++ [task]; state_tasks := _;
                    cal_service := _; inserted := _ |}).
      destruct (IH w1) as (new & Ho & Hs & Hc & Hi & Hall). exists (task :: new).
      rewrite Ho, Hs. simpl. rewrite length_app. simpl.
      replace (length (objects w) + 1)%nat with (S (length (objects w))) by lia.
      rewrite <- !app_assoc. repeat split; [done..|]. by constructor.
Qed.

(** So do steps 2 and 3 together. *)
Lemma sync_imports_appends now events canvas w :
  ∃ new,
    objects (sync_imports now events canvas w).2 = objects w ++ new
    ∧ state_tasks (sync_imports now events canvas w).2
      = state_tasks w ++ seq (length (objects w)) (length new)
    ∧ cal_service (sync_imports now events canvas w).2 = cal_service w
    ∧ inserted (sync_imports now events canvas w).2 = inserted w
    ∧ Forall (λ t, dueDate t ≠ None) new.
Proof.
  unfold sync_imports, bind.
  destruct (import_calendar_appends now events w) as (new1 & Ho1 & Hs1 & Hc1 & Hi1 & Hall1).
  assert (Hd1 : Forall (λ t, dueDate t ≠ None) new1).
  { eapply Forall_impl; [exact Hall1|]. simpl.
    by intros t (ev & s & e & tid & _ & _ & _ & _ & ->). }
  destruct (import_calendar now events w) as [[[]|e] w1]; simpl in *; [|by exists new1].
  destruct canvas as [[vevents|e]|]; simpl; [|by exists new1..].
  destruct (import_canvas_ics_appends vevents w1) as (new2 & Ho2 & Hs2 & Hc2 & Hi2 & Hall2).
  exists (new1 ++ new2). rewrite Ho2, Hs2, Ho1, Hs1, Hc2, Hi2, Hc1, Hi1.
  rewrite !length_app, <- !app_assoc, seq_app.
  repeat split; [done..|]. by apply Forall_app.
Qed.

Lemma sync_imports_extends now events canvas w :
  extends w (sync_imports now events canvas w).2.
Proof.
  destruct (sync_imports_appends now events canvas w) as (new & Ho & Hs & _).
  split; [rewrite Hs; by apply prefix_app_r|]. intros r t Hr. exists t. rewrite Ho.
  split; [by apply lookup_app_l_Some|apply same_identity_refl].
Qed.

(** The whole run stops in its imports or goes on from what they left. *)
Lemma run_full_sync_all_cases now events canvas items answers now' w :
  ((sync_imports now events canvas w).1 = Ret tt
   ∧ run_full_sync_all now events canvas items answers now' w
     = run_full_sync items answers now' (sync_imports now events canvas w).2)
  ∨ ((∃ e, (sync_imports now events canvas w).1 = Raise e)
     ∧ (run_full_sync_all now events canvas items answers now' w).2
       = (sync_imports now events canvas w).2).
Proof.
  unfold run_full_sync_all, bind.
  destruct (sync_imports now events canvas w) as [[[]|e] w1]; simpl; [by left|right].
  split; [by exists e|done].
Qed.

(** Whom the whole run books: a Gmail task of this run, or a task that was
    in [STATE.tasks] without a due date before the imports. *)
Lemma run_full_sync_all_books now events canvas items answers now' w ins :
  ins ∈ new_insertions w (run_full_sync_all now events canvas items answers now' w).2 →
  (∃ k g, parse_gmail_tasks items !! k = Some g
          ∧ for_task ins
            = (length (objects (sync_imports now events canvas w).2) + k)%nat)
  ∨ (∃ t0, for_task ins ∈ state_tasks w ∧ objects w !! for_task ins = Some t0
           ∧ dueDate t0 = None ∧ planDay t0 = "unscheduled"
           ∧ needsClarification t0 = false).
Proof.
  intros Hin.
  destruct (sync_imports_appends now events canvas w) as (new & Ho & Hs & _ & Hi & Hall).
  destruct (run_full_sync_all_cases now events canvas items answers now' w)
    as [[_ Heq]|[_ Heq]]; rewrite Heq in Hin.
  2:{ unfold new_insertions in Hin. rewrite Hi, drop_all in Hin.
      by apply elem_of_nil in Hin. }
  set (w1 := (sync_imports now events canvas w).2) in *.
  assert (Hin1 : ins ∈ new_insertions w1 (run_full_sync items answers now' w1).2).
  { unfold new_insertions in *. by rewrite Hi. }
  apply (run_full_sync_books items answers now' w1
           (λ r, (∃ k g, parse_gmail_tasks items !! k = Some g
                         ∧ r = (length (objects w1) + k)%nat)
                 ∨ (∃ t0, r ∈ state_tasks w ∧ objects w !! r = Some t0
                          ∧ dueDate t0 = None ∧ planDay t0 = "unscheduled"
                          ∧ needsClarification t0 = false))); [| |exact Hin1].
  - intros r [Hlo Hhi]. left.
    destruct (lookup_lt_is_Some_2 (parse_gmail_tasks items) (r - length (objects w1)))
      as [g Hg]; [lia|].
    exists (r - length (objects w1))%nat, g. split; [done|lia].
  - intros r t0 Hr Hl Hd Hp Hn. right. exists t0.
    rewrite Ho in Hl. rewrite Hs in Hr.
    destruct (decide (r < length (objects w))%nat) as [Hlt|Hge].
    + rewrite lookup_app_l in Hl by done.
      apply elem_of_app in Hr as [Hr|Hr%elem_of_seq]; [done|lia].
    + rewrite lookup_app_r in Hl by lia. rewrite Forall_forall in Hall.
      destruct (Hall t0); [by eapply list_elem_of_lookup_2|done].
Qed.

(** C3 (amended).  Every calendar insertion that [run_full_sync] or
    [run_agent_flow] makes is made for a task whose [needsClarification] is
    false, and neither flow changes that field or [isExternal] of any task:
    a task that needs clarification is never booked by them.  An external
    task is never booked by [run_agent_flow], which books only tasks it has
    just parsed, and [parse_into_tasks] makes none external.
    [run_full_sync] books the Gmail tasks of the run, which
    [parse_gmail_tasks] makes external, and the tasks that were in
    [STATE.tasks] without a due date when the run began; it books no task
    that its calendar or Canvas step added, and no task that had a due date
    when the run began, external or not. *)
Theorem flows_book_only_ready_tasks (w : World G) :
  (∀ items answers now ins,
     ins ∈ new_insertions w (run_full_sync items answers now w).2 →
     ∃ t, objects (run_full_sync items answers now w).2 !! for_task ins = Some t
          ∧ needsClarification t = false)
  ∧ (∀ new_tasks now ins,
       ins ∈ new_insertions w (run_agent_flow new_tasks now w).2 →
       ∃ t, objects (run_agent_flow new_tasks now w).2 !! for_task ins = Some t
            ∧ needsClarification t = false)
  ∧ (∀ items answers now r t,
       objects w !! r = Some t →
       ∃ t', objects (run_full_sync items answers now w).2 !! r = Some t'
             ∧ needsClarification t' = needsClarification t
             ∧ isExternal t' = isExternal t)
  ∧ (∀ new_tasks now r t,
       objects w !! r = Some t →
       ∃ t', objects (run_agent_flow new_tasks now w).2 !! r = Some t'
             ∧ needsClarification t' = needsClarification t
             ∧ isExternal t' = isExternal t)
  ∧ (∀ new_tasks now ins,
       ins ∈ new_insertions w (run_agent_flow new_tasks now w).2 →
       ∃ k t0 t',
         new_tasks !! k = Some t0 ∧ for_task ins = (length (objects w) + k)%nat
         ∧ needsClarification t0 = false
         ∧ objects (run_agent_flow new_tasks now w).2 !! for_task ins = Some t'
         ∧ isExternal t' = isExternal t0)
  ∧ (∀ vitems now ins,
       ins ∈ new_insertions w (run_agent_flow (parse_into_tasks vitems) now w).2 →
       ∃ t', objects (run_agent_flow (parse_into_tasks vitems) now w).2 !! for_task ins
             = Some t'
             ∧ isExternal t' = false ∧ needsClarification t' = false)
  ∧ (∀ now events canvas items answers now' ins,
       ins ∈ new_insertions w
               (run_full_sync_all now events canvas items answers now' w).2 →
       (∃ k g, parse_gmail_tasks items !! k = Some g
               ∧ for_task ins
                 = (length (objects (sync_imports now events canvas w).2) + k)%nat)
       ∨ (∃ t0, for_task ins ∈ state_tasks w ∧ objects w !! for_task ins = Some t0
                ∧ dueDate t0 = None ∧ planDay t0 = "unscheduled"
                ∧ needsClarification t0 = false))
  ∧ (∀ now events canvas items answers now' r,
       (length (objects w) ≤ r < length (objects (sync_imports now events canvas w).2))%nat
       ∨ (∃ t0, objects w !! r = Some t0
                ∧ (dueDate t0 ≠ None ∨ needsClarification t0 = true)) →
       ∀ ins, ins ∈ new_insertions w
                      (run_full_sync_all now events canvas items answers now' w).2 →
              for_task ins ≠ r).
Proof.
  split; [|split; [|split; [|split; [|split; [|split; [|split]]]]]].
  - intros items answers now ins Hin.
    pose proof (run_full_sync_keeps items answers now w) as Hk.
    destruct (alloc_all_spec (parse_gmail_tasks items) w) as (_ & _ & _ & Hi).
    pose proof (keeps_new_insertions _ w _ _ ins Hi Hk Hin) as Hp. simpl in Hp.
    apply flags_lookup. destruct Hk as [Hf _]. by rewrite Hf.
  - intros new_tasks now ins Hin.
    pose proof (run_agent_flow_keeps new_tasks now w) as Hk.
    destruct new_tasks as [|t0 ts].
    { simpl in Hin. unfold new_insertions in Hin. rewrite drop_all in Hin.
      by apply elem_of_nil in Hin. }
    destruct (alloc_all_spec (t0 :: ts) w) as (_ & _ & _ & Hi).
    pose proof (keeps_new_insertions _ w _ _ ins Hi Hk Hin) as Hp. simpl in Hp.
    apply flags_lookup. destruct Hk as [Hf _]. by rewrite Hf.
  - intros items answers now r t Hr.
    destruct (run_full_sync_extends items answers now w) as [_ Hobj].
    destruct (Hobj r t Hr) as (t' & Hl & _ & _ & _ & Hn & _ & Hx). by exists t'.
  - intros new_tasks now r t Hr.
    destruct (run_agent_flow_extends new_tasks now w) as [_ Hobj].
    destruct (Hobj r t Hr) as (t' & Hl & _ & _ & _ & Hn & _ & Hx). by exists t'.
  - intros new_tasks now ins Hin.
    destruct (run_agent_flow_books new_tasks now w ins Hin) as (k & t0 & Hk & Hr & Hn).
    destruct (agent_flow_new_task new_tasks now w k t0 Hk)
      as (t' & Hl & _ & _ & _ & _ & _ & Hx).
    exists k, t0, t'. by rewrite Hr.
  - intros vitems now ins Hin.
    destruct (run_agent_flow_books _ now w ins Hin) as (k & t0 & Hk & Hr & Hn).
    destruct (agent_flow_new_task _ now w k t0 Hk) as (t' & Hl & _ & _ & _ & Hn' & _ & Hx).
    exists t'. rewrite Hr. split; [done|]. split; [|congruence].
    rewrite Hx. unfold parse_into_tasks in Hk. rewrite list_lookup_fmap in Hk.
    by apply fmap_Some in Hk as (item & _ & ->).
  - intros now events canvas items answers now' ins.
    apply run_full_sync_all_books.
  - intros now events canvas items answers now' r Hr ins Hin <-.
    destruct (run_full_sync_all_books now events canvas items answers now' w ins Hin)
      as [(k & g & _ & Hk)|(t0 & _ & Hl & Hd & _ & Hn)].
    + destruct Hr as [Hr|(t0 & Hl & _)]; [lia|].
      apply lookup_lt_Some in Hl.
      destruct (sync_imports_appends now events canvas w) as (new & Ho & _).
      rewrite Ho, length_app in Hk. lia.
    + destruct Hr as [Hr|(t1 & Hl1 & Hor)].
      * apply lookup_lt_Some in Hl. lia.
      * rewrite Hl in Hl1. injection Hl1 as <-. destruct Hor; congruence.
Qed.

(** X13.  Syncing the mailbox again adds no task twice.  After one
    [run_full_sync] that got past its imports, a second one whose Gmail
    items make titles already read (letter case apart) adds to
    [STATE.tasks] what its calendar and Canvas steps add, the events the
    first run booked among them, and nothing else: step 4 compares the
    lower-cased titles of the Gmail tasks with those of [STATE.tasks]. *)
Theorem second_sync_adds_no_task w now1 events1 canvas1 items answers now1'
    now2 events2 canvas2 items' answers' now2' :
  (sync_imports now1 events1 canvas1 w).1 = Ret tt →
  Forall (λ it', ∃ it, it ∈ items
                       ∧ lower (capitalize (item_title it'))
                         = lower (capitalize (item_title it))) items' →
  state_tasks (run_full_sync_all now2 events2 canvas2 items' answers' now2'
                 (run_full_sync_all now1 events1 canvas1 items answers now1' w).2).2
  = state_tasks (sync_imports now2 events2 canvas2
                   (run_full_sync_all now1 events1 canvas1 items answers now1' w).2).2.
Proof.
  intros Hret Hsame.
  destruct (run_full_sync_all_cases now1 events1 canvas1 items answers now1' w)
    as [[_ Heq]|[[e He] _]]; [|congruence].
  rewrite Heq. set (w0 := (sync_imports now1 events1 canvas1 w).2).
  set (w1 := (run_full_sync items answers now1' w0).2).
  destruct (run_full_sync_all_cases now2 events2 canvas2 items' answers' now2' w1)
    as [[_ Heq2]|[_ Heq2]]; rewrite Heq2; [|done].
  apply (gmail_again_adds_nothing w0 items answers now1'); [|done].
  apply sync_imports_extends.
Qed.

End BookedTasks.

(** ** The flows and the endpoint on concrete inputs *)
Section FlowScenarios.
Import Py Backend.

(** The mail of day 100 is read again on day 101, when the calendar lists
    the event of the first run. *)
Lemma second_sync_adds_no_task_witness :
  (sync_imports (combine 100 8 0) [] None (Board.process [] [] [])).1 = Ret tt
  ∧ Forall (λ it', ∃ it, it ∈ [Board.yc_mail]
                         ∧ lower (capitalize (item_title it'))
                           = lower (capitalize (item_title it)))
      [Board.yc_mail_again]
  ∧ state_tasks
      (run_full_sync_all (combine 101 8 0) [Board.own_event] None
         [Board.yc_mail_again] [] (combine 101 8 0)
         (run_full_sync_all (combine 100 8 0) [] None [Board.yc_mail] [] (combine 100 8 0)
            (Board.process [] [] [])).2).2
    = state_tasks
        (sync_imports (combine 101 8 0) [Board.own_event] None
           (run_full_sync_all (combine 100 8 0) [] None [Board.yc_mail] []
              (combine 100 8 0) (Board.process [] [] [])).2).2.
Proof.
  assert (Hsame : Forall (λ it', ∃ it, it ∈ [Board.yc_mail]
                       ∧ lower (capitalize (item_title it'))
                         = lower (capitalize (item_title it)))
                    [Board.yc_mail_again]).
  { constructor; [|constructor]. exists Board.yc_mail. split; [left|reflexivity]. }
  split; [reflexivity|]. split; [exact Hsame|].
  exact (second_sync_adds_no_task (Board.process [] [] []) (combine 100 8 0) [] None
           [Board.yc_mail] [] (combine 100 8 0) (combine 101 8 0) [Board.own_event] None
           [Board.yc_mail_again] [] (combine 101 8 0) eq_refl Hsame).
Defined.

(** On those inputs the second run takes in the event of the first as a
    task of its own, not external, and no second task for the mail. *)
Lemma second_sync_imports_own_event :
  (λ t, (id t, title t, isExternal t))
  <$> objects
        (run_full_sync_all (combine 101 8 0) [Board.own_event] None
           [Board.yc_mail_again] [] (combine 101 8 0)
           (run_full_sync_all (combine 100 8 0) [] None [Board.yc_mail] [] (combine 100 8 0)
              (Board.process [] [] [])).2).2
  = [("6f1c", "Apply to yc (from email)", true);
     ("evt0", "FlowPilot: Apply to yc (from email)", false);
     ("b07e", "Apply to yc (from email)", true)]
  ∧ state_tasks
      (run_full_sync_all (combine 101 8 0) [Board.own_event] None
         [Board.yc_mail_again] [] (combine 101 8 0)
         (run_full_sync_all (combine 100 8 0) [] None [Board.yc_mail] [] (combine 100 8 0)
            (Board.process [] [] [])).2).2
    = [0%nat; 1%nat].
Proof. vm_compute. done. Qed.

(** A whole run on day 100 over one task said without a time, the agenda,
    the quiz and the mail; the language model puts the task at 14:00.  The
    run books that task and the Gmail task, and none of the three tasks its
    imports made. *)
Lemma full_sync_books_undated_and_mail :
  new_insertions (Board.process [Board.buy_milk] [0%nat] [])
    (run_full_sync_all (combine 100 8 0) Board.agenda (Some (Ret [Board.quiz]))
       [Board.yc_mail] [Some (combine 100 14 0)] (combine 100 8 0)
       (Board.process [Board.buy_milk] [0%nat] [])).2
  = [{| for_task := 0; at_start := combine 100 14 0; at_end := combine 100 14 15 |};
     {| for_task := 4; at_start := combine 100 10 0; at_end := combine 100 12 0 |}]
  ∧ (λ t, (id t, isExternal t, calendarEventId t))
    <$> objects
          (run_full_sync_all (combine 100 8 0) Board.agenda (Some (Ret [Board.quiz]))
             [Board.yc_mail] [Some (combine 100 14 0)] (combine 100 8 0)
             (Board.process [Board.buy_milk] [0%nat] [])).2
    = [("b", false, Some "evt0"); ("e1", true, None); ("e2", false, Some "e2");
       ("ics--42", true, None); ("6f1c", true, Some "evt1")].
Proof. vm_compute. done. Qed.

(** The agenda read into a process that holds one task. *)
Lemma calendar_import_keeps_ids_distinct_witness :
  Forall (λ r, (r < length (objects (Board.process [Board.bank_call] [0%nat] [])))%nat)
    (state_tasks (Board.process [Board.bank_call] [0%nat] []))
  ∧ NoDup (task_ids (Board.process [Board.bank_call] [0%nat] []))
  ∧ NoDup (task_ids (import_calendar (combine 100 8 0) Board.agenda
                       (Board.process [Board.bank_call] [0%nat] [])).2)
  ∧ task_ids (Board.process [Board.bank_call] [0%nat] [])
    `prefix_of` task_ids (import_calendar (combine 100 8 0) Board.agenda
                            (Board.process [Board.bank_call] [0%nat] [])).2.
Proof.
  assert (Hwf : Forall (λ r, (r < length (objects (Board.process [Board.bank_call] [0%nat] [])))%nat)
                  (state_tasks (Board.process [Board.bank_call] [0%nat] []))).
  { constructor; [simpl; lia|constructor]. }
  assert (Hnd : NoDup (task_ids (Board.process [Board.bank_call] [0%nat] []))).
  { apply (bool_decide_unpack _). vm_compute. exact I. }
  split; [exact Hwf|]. split; [exact Hnd|].
  exact (calendar_import_keeps_ids_distinct (combine 100 8 0) Board.agenda
           (Board.process [Board.bank_call] [0%nat] []) Hwf Hnd).
Defined.

Lemma calendar_import_again_adds_nothing_witness :
  (import_calendar (combine 100 8 0) Board.agenda (Board.process [] [] [])).1 = Ret tt
  ∧ import_calendar (combine 100 8 0) Board.agenda
      (import_calendar (combine 100 8 0) Board.agenda (Board.process [] [] [])).2
    = (Ret tt, (import_calendar (combine 100 8 0) Board.agenda (Board.process [] [] [])).2).
Proof.
  assert (Hret : (import_calendar (combine 100 8 0) Board.agenda
                    (Board.process [] [] [])).1 = Ret tt) by (vm_compute; reflexivity).
  split; [exact Hret|].
  exact (calendar_import_again_adds_nothing (combine 100 8 0) Board.agenda
           (Board.process [] [] []) Hret).
Defined.

(** The meeting 'e1' is not the agent's: deleting its task leaves it. *)
Lemma deleting_imported_task_spares_foreign_events_witness :
  Forall (λ r, (r < length (objects (Board.process [] [] [])))%nat)
    (state_tasks (Board.process [] [] []))
  ∧ id_known (objects (Board.process [] [] [])) (state_tasks (Board.process [] [] [])) "e1"
    = false
  ∧ ∃ t, t ∈ objects (import_calendar (combine 100 8 0) Board.agenda
                        (Board.process [] [] [])).2
         ∧ id t = "e1"
         ∧ isExternal t = negb (String.prefix "FlowPilot:" (title t))
         ∧ (delete_task "e1" (import_calendar (combine 100 8 0) Board.agenda
                                (Board.process [] [] [])).2).1
           = Ret (true, if isExternal t then None else Some "e1").
Proof.
  assert (Hwf : Forall (λ r, (r < length (objects (Board.process [] [] [])))%nat)
                  (state_tasks (Board.process [] [] []))) by constructor.
  split; [exact Hwf|]. split; [reflexivity|].
  apply (deleting_imported_task_spares_foreign_events (combine 100 8 0) Board.agenda "e1"
           (Board.process [] [] []) Hwf).
  - reflexivity.
  - vm_compute. reflexivity.
Defined.

(** The mail's task was booked as 'evt0' by the sync; deleting it hands no
    event to [delete_event]. *)
Lemma deleting_gmail_task_leaves_its_event_witness :
  (∃ task, parse_gmail_tasks [Board.yc_mail] !! 0%nat = Some task)
  ∧ first_with_id
      (objects (run_full_sync [Board.yc_mail] [] (combine 100 8 0) (Board.process [] [] [])).2)
      (state_tasks (run_full_sync [Board.yc_mail] [] (combine 100 8 0)
                      (Board.process [] [] [])).2) "6f1c"
    = Some (length (objects (Board.process [] [] [])) + 0)%nat
  ∧ (delete_task "6f1c"
       (run_full_sync [Board.yc_mail] [] (combine 100 8 0) (Board.process [] [] [])).2).1
    = Ret (true, None).
Proof.
  split; [eexists; vm_compute; reflexivity|]. split; [vm_compute; reflexivity|].
  eapply (deleting_gmail_task_leaves_its_event [Board.yc_mail] [] (combine 100 8 0)
            (Board.process [] [] []) 0%nat _ "6f1c").
  - vm_compute. reflexivity.
  - vm_compute. reflexivity.
Defined.

(** Two tasks said to a process that has no calendar client. *)
Lemma agent_flow_without_client_stores_error_text_witness :
  cal_service (Board.offline [] []) = None
  ∧ [Board.bank_call; Board.buy_milk] !! 1%nat = Some Board.buy_milk
  ∧ needsClarification Board.buy_milk = false
  ∧ inserted (run_agent_flow [Board.bank_call; Board.buy_milk] (combine 100 8 0)
                (Board.offline [] [])).2
    = inserted (Board.offline [] [])
  ∧ ∃ t', objects (run_agent_flow [Board.bank_call; Board.buy_milk] (combine 100 8 0)
                     (Board.offline [] [])).2
            !! (length (objects (Board.offline [] [])) + 1)%nat = Some t'
          ∧ title t' = title Board.buy_milk
          ∧ (datetime_min
             ≤ default (combine 100 8 0) (dueDate Board.buy_milk)
               + minutes (default 60 (duration Board.buy_milk))
             ≤ datetime_max →
             calendarEventId t' = Some "ERROR: Google Calendar service not available."
             ∧ dueDate t' = Some (default (combine 100 8 0) (dueDate Board.buy_milk)))
          ∧ (¬ (datetime_min
                ≤ default (combine 100 8 0) (dueDate Board.buy_milk)
                  + minutes (default 60 (duration Board.buy_milk))
                ≤ datetime_max) →
             calendarEventId t' = calendarEventId Board.buy_milk
             ∧ dueDate t' = dueDate Board.buy_milk).
Proof.
  split; [reflexivity|]. split; [reflexivity|]. split; [reflexivity|].
  apply (agent_flow_without_client_stores_error_text [Board.bank_call; Board.buy_milk]
           (combine 100 8 0) (Board.offline [] []) 1%nat Board.buy_milk);
    reflexivity.
Defined.

(** The two cases on that process: the short task is marked with the error
    text and the time of the call, the task of ten million days is left as
    it was said. *)
Lemma offline_agent_flow_marks :
  (run_agent_flow [Board.buy_milk; Board.long_haul] (combine 100 8 0)
     (Board.offline [] [])).1 = Ret tt
  ∧ (λ t, (calendarEventId t, dueDate t))
    <$> objects (run_agent_flow [Board.buy_milk; Board.long_haul] (combine 100 8 0)
                   (Board.offline [] [])).2
    = [(Some "ERROR: Google Calendar service not available.", Some (combine 100 8 0));
       (None, None)].
Proof. vm_compute. done. Qed.

End FlowScenarios.

(** ** How long the events of the flows last *)
Section FlowDurations.
Import Py Backend.
Context {G : GoogleCalendar}.
Implicit Types (w : World G) (r : nat).

Lemma lasts_its_duration_extends w w' ins :
  extends w w' → lasts_its_duration w ins → lasts_its_duration w' ins.
Proof.
  intros [_ Hobj] (t & Hl & He). destruct (Hobj _ _ Hl) as (t' & Hl' & _ & _ & Hd & _).
  exists t'. split; [done|]. by rewrite Hd.
Qed.

Lemma books_by_duration_refl w : books_by_duration w w.
Proof. split; [apply extends_refl|]. exists []. by rewrite app_nil_r. Qed.

Lemma books_by_duration_trans w1 w2 w3 :
  books_by_duration w1 w2 → books_by_duration w2 w3 → books_by_duration w1 w3.
Proof.
  intros [He1 (a1 & Hi1 & Ha1)] [He2 (a2 & Hi2 & Ha2)].
  split; [by eapply extends_trans|]. exists (a1 ++ a2).
  split; [by rewrite Hi2, Hi1, app_assoc|]. apply Forall_app. split; [|done].
  eapply Forall_impl; [exact Ha1|]. intros ins. by apply lasts_its_duration_extends.
Qed.

(** A step that inserts nothing. *)
Lemma books_by_duration_quiet w w' :
  extends w w' → inserted w' = inserted w → books_by_duration w w'.
Proof. intros He Hi. split; [done|]. exists []. by rewrite app_nil_r. Qed.

Lemma find_free_slot_quiet start d w :
  extends w (find_free_slot start d w).2
  ∧ inserted (find_free_slot start d w).2 = inserted w
  ∧ objects (find_free_slot start d w).2 = objects w.
Proof.
  unfold find_free_slot. destruct (cal_service w); [|split; [apply extends_refl|done]].
  destruct (adjust_start start); [|split; [apply extends_refl|done]].
  split; [|done]. split; [done|]. simpl.
  intros r t ?. exists t. split; [done|apply same_identity_refl].
Qed.

(** The tail of both [try] bodies, for a task that is where the body read
    it. *)
Lemma book_by_duration r task name s text w :
  objects w !! r = Some task →
  books_by_duration w
    (bind (create_event r name s (s + minutes (default 60 (duration task))) text)
       (λ event_id, bind (update r (λ t, with_calendarEventId t event_id))
                      (λ _, update r (λ t, with_dueDate t (Some s)))) w).2.
Proof.
  intros Hl. unfold bind at 1, create_event.
  destruct (cal_service w) as [c|]; simpl.
  - destruct (events_insert G c _) as [[eid|err] c']; simpl.
    + unfold bind, update. simpl. split.
      * split; [done|]. simpl. intros r' t Hr'.
        destruct (decide (r = r')) as [->|Hne].
        -- rewrite !list_lookup_alter_eq, Hr'. simpl. by eexists.
        -- rewrite !list_lookup_alter_ne by done. exists t.
           split; [done|apply same_identity_refl].
      * eexists. split; [done|]. constructor; [|done]. unfold lasts_its_duration. simpl.
        rewrite !list_lookup_alter_eq, Hl. simpl. by eexists.
    + apply books_by_duration_quiet; [|done]. split; [done|]. simpl.
      intros r' t ?. exists t. split; [done|apply same_identity_refl].
  - unfold bind, update. simpl. apply books_by_duration_quiet; [|done].
    split; [done|]. simpl. intros r' t Hr'.
    destruct (decide (r = r')) as [->|Hne].
    + rewrite !list_lookup_alter_eq, Hr'. simpl. by eexists.
    + rewrite !list_lookup_alter_ne by done. exists t.
      split; [done|apply same_identity_refl].
Qed.

Lemma schedule_auto_by_duration r w : books_by_duration w (schedule_auto r w).2.
Proof.
  unfold schedule_auto, bind at 1, get. simpl.
  destruct (objects w !! r) as [task|] eqn:Hl; [|apply books_by_duration_refl].
  destruct (dueDate task) as [start|]; [|apply books_by_duration_refl].
  unfold bind at 1.
  destruct (find_free_slot_quiet start (default 60 (duration task)) w) as (He & Hi & Ho).
  destruct (find_free_slot start _ w) as [[final|err] w1]; simpl in *;
    [|by apply books_by_duration_quiet].
  eapply books_by_duration_trans; [by apply books_by_duration_quiet|].
  rewrite bind_add_minutes. case_bool_decide; [|apply books_by_duration_refl].
  apply book_by_duration. by rewrite Ho.
Qed.

Lemma schedule_voice_by_duration now r w : books_by_duration w (schedule_voice now r w).2.
Proof.
  unfold schedule_voice, bind at 1, get. simpl.
  destruct (objects w !! r) as [task|] eqn:Hl; [|apply books_by_duration_refl].
  unfold bind at 1.
  assert (Hs : extends w
            ((match dueDate task with
              | Some due => ret due
              | None => find_free_slot now (default 60 (duration task))
              end) w).2
          ∧ inserted ((match dueDate task with
              | Some due => ret due
              | None => find_free_slot now (default 60 (duration task))
              end) w).2 = inserted w
          ∧ objects ((match dueDate task with
              | Some due => ret due
              | None => find_free_slot now (default 60 (duration task))
              end) w).2 = objects w).
  { destruct (dueDate task); [split; [apply extends_refl|done]|apply find_free_slot_quiet]. }
  destruct ((match dueDate task with Some due => ret due | None => _ end) w)
    as [[start|err] w1]; simpl in *; destruct Hs as (He & Hi & Ho);
    [|by apply books_by_duration_quiet].
  eapply books_by_duration_trans; [by apply books_by_duration_quiet|].
  unfold bind at 1.
  destruct (find_free_slot_quiet start (default 60 (duration task)) w1) as (He2 & Hi2 & Ho2).
  destruct (find_free_slot start _ w1) as [[final|err] w2]; simpl in *;
    [|by apply books_by_duration_quiet].
  eapply books_by_duration_trans; [by apply books_by_duration_quiet|].
  rewrite bind_add_minutes. case_bool_decide; [|apply books_by_duration_refl].
  apply book_by_duration. by rewrite Ho2, Ho.
Qed.

Lemma run_full_sync_by_duration items answers now w :
  books_by_duration w (run_full_sync items answers now w).2.
Proof.
  assert (Hupd : ∀ r (f : Task → Task) w', (∀ t, same_identity t (f t)) →
                                            books_by_duration w' (update r f w').2).
  { intros r f w' Hf. apply books_by_duration_quiet; [by apply update_extends|done]. }
  assert (Halloc : ∀ t w', books_by_duration w' (alloc t w').2).
  { intros t w'. apply books_by_duration_quiet; [|done]. split; [done|]. simpl.
    intros r t' Hr. exists t'. split; [by apply lookup_app_l_Some|apply same_identity_refl]. }
  assert (Happend : ∀ r w', books_by_duration w' (append_task r w').2).
  { intros r w'. apply books_by_duration_quiet; [|done]. split; [by apply prefix_app_r|].
    simpl. intros r' t ?. exists t. split; [done|apply same_identity_refl]. }
  unfold run_full_sync.
  apply (bind_respects _ books_by_duration_trans).
  { apply (alloc_all_respects _ books_by_duration_refl books_by_duration_trans Halloc). }
  intros gmail_tasks w1. apply (bind_respects _ books_by_duration_trans).
  { apply (for_each_respects _ books_by_duration_refl books_by_duration_trans).
    intros r w'.
    apply (add_gmail_task_respects _ books_by_duration_refl Happend). }
  intros _ w2. apply (bind_respects _ books_by_duration_trans);
    [apply books_by_duration_refl|].
  intros plan w3. apply (bind_respects _ books_by_duration_trans).
  { apply (ask_deadlines_respects _ books_by_duration_refl books_by_duration_trans).
    intros r v w'. by apply Hupd. }
  intros _ w4. apply (bind_respects _ books_by_duration_trans);
    [apply books_by_duration_refl|].
  intros sched w5. apply (bind_respects _ books_by_duration_trans);
    [apply books_by_duration_refl|].
  intros dated w6. apply (bind_respects _ books_by_duration_trans).
  - apply (for_each_respects _ books_by_duration_refl books_by_duration_trans).
    intros r w'. apply attempt_respects, schedule_auto_by_duration.
  - intros _ w7. apply books_by_duration_quiet; [|done]. split; [done|]. simpl.
    apply simple_plan_extends.
Qed.

Lemma run_agent_flow_by_duration new_tasks now w :
  books_by_duration w (run_agent_flow new_tasks now w).2.
Proof.
  assert (Halloc : ∀ t w', books_by_duration w' (alloc t w').2).
  { intros t w'. apply books_by_duration_quiet; [|done]. split; [done|]. simpl.
    intros r t' Hr. exists t'. split; [by apply lookup_app_l_Some|apply same_identity_refl]. }
  assert (Happend : ∀ r w', books_by_duration w' (append_task r w').2).
  { intros r w'. apply books_by_duration_quiet; [|done]. split; [by apply prefix_app_r|].
    simpl. intros r' t ?. exists t. split; [done|apply same_identity_refl]. }
  unfold run_agent_flow. destruct new_tasks as [|t0 ts]; [apply books_by_duration_refl|].
  apply (bind_respects _ books_by_duration_trans).
  { apply (alloc_all_respects _ books_by_duration_refl books_by_duration_trans Halloc). }
  intros refs w1. apply (bind_respects _ books_by_duration_trans).
  { apply (for_each_respects _ books_by_duration_refl books_by_duration_trans). 
    intros r w'. apply Happend. }
  intros _ w2. apply (bind_respects _ books_by_duration_trans);
    [apply books_by_duration_refl|].
  intros sched w3. apply (bind_respects _ books_by_duration_trans).
  - apply (for_each_respects _ books_by_duration_refl books_by_duration_trans).
    intros r w'. apply attempt_respects, schedule_voice_by_duration.
  - intros _ w4. apply books_by_duration_quiet; [|done]. split; [done|]. simpl.
    apply simple_plan_extends.
Qed.

(** X22.  Every event that [run_full_sync] or [run_agent_flow] puts on the
    calendar is for a task of the process and lasts what that task's
    [duration] says, in minutes, and an hour when the task has none; the
    flows never change a task's [duration]. *)
Theorem flows_book_for_the_task_duration w :
  (∀ items answers now ins,
     ins ∈ new_insertions w (run_full_sync items answers now w).2 →
     lasts_its_duration (run_full_sync items answers now w).2 ins)
  ∧ (∀ new_tasks now ins,
       ins ∈ new_insertions w (run_agent_flow new_tasks now w).2 →
       lasts_its_duration (run_agent_flow new_tasks now w).2 ins).
Proof.
  split.
  - intros items answers now ins.
    destruct (run_full_sync_by_duration items answers now w) as [_ (added & Hi & Hall)].
    unfold new_insertions. rewrite Hi, drop_app_length. rewrite Forall_forall in Hall.
    apply Hall.
  - intros new_tasks now ins.
    destruct (run_agent_flow_by_duration new_tasks now w) as [_ (added & Hi & Hall)].
    unfold new_insertions. rewrite Hi, drop_app_length. rewrite Forall_forall in Hall.
    apply Hall.
Qed.

End FlowDurations.
